(** * Weighted goal-region samplers of the OMPL planning interface

    A shallow embedding of

      - ompl_interface/src/detail/weighted_goal_region_samples.cpp
        (class [WeightedGoalRegionSamples], module [Samples]), and
      - ompl_interface/src/modified_planners/weighted_goal_region_sampler.cpp
        (class [WeightedGoalRegionSampler], module [Sampler]),

    together with the properties of their goal store, sampling thread and
    weighted goal selection.

    Conventions of the embedding.

      - [unsigned int] members are integers in [Z], every increment written
        with its wrap-around [uint].
      - [double] weights are binary64 numbers, the primitive floats of the
        kernel, with the operations and comparisons the source writes
        ([w / (w + 1.)], [w / (1. - w)], [w < 0.2], [new_w > 1.0]), each
        rounded as IEEE 754 says.  Distances, which the two files only
        compare, are exact rationals ([Q]), an infinite distance [None].
      - A member function is a computation [M Obj A]: it reads and updates
        the object, ends by returning, by throwing an [ompl::Exception] or in
        undefined behaviour (a null or dangling pointer dereferenced), and
        records the events [Acquire]/[Release] of [lock_], the accesses to
        [states_] and to [goals_priority_queue_], and the calls of the
        new-state callback, in program order.
      - The [std::thread] running [goalSamplingThread] is the control point
        [pc] the thread has reached; one step of the thread is one
        transition of that control point, so that calls of the planning
        thread can be interleaved between any two of them.  A call of the
        planning thread is one transition.
      - The injected sampling function is a function of the time of the
        call, so that it may answer differently at every call; the steps of
        the thread carry the time.
      - [ompl::base::GoalStates], [ompl::base::SpaceInformation] and
        [ompl::BinaryHeap] belong to the OMPL library; module [Ompl] has the
        members the two files call, with the behaviour the library documents.
      - The logging macros (OMPL_DEBUG) have no counterpart, but for the
        one of roadmapGrowingThread, whose arguments dereference
        [prm_planner_] (event [RoadmapCounts]). *)

From Stdlib Require Import ZArith QArith Qpower Lia Lqa Permutation Floats.
From stdpp Require Import base tactics option list.

#[local] Set Warnings "-inexact-float".

(** ** Machine integers and comparisons on distances *)

(** Wrap-around of [unsigned int]. *)
Definition uint (z : Z) : Z := (z mod 2 ^ 32)%Z.

(** [x < y] on distances, as a boolean. *)
Definition Qltb (x y : Q) : bool := negb (Qle_bool y x).

(** ** The value of a binary64 number

    The numbers [m * 2 ^ e] the doubles stand for, and what it is for a
    double to be the result of rounding a positive number; the operations
    themselves are those of the kernel, specified by the library
    ([SFadd], [SFsub], [SFdiv] for [prec = 53] and [emax = 1024]). *)

Definition pow2 (e : Z) : Q := (2 ^ e)%Q.

Definition val (m e : Z) : Q := (inject_Z m * pow2 e)%Q.

(** The position of [y] with respect to the integer [m] below it, as the
    library's [location] records it. *)
Definition loc_ok (y : Q) (m : Z) (l : location) : Prop :=
  match l with
  | loc_Exact => (y == inject_Z m)%Q
  | loc_Inexact Lt => (inject_Z m < y ∧ y < inject_Z m + (1 # 2))%Q
  | loc_Inexact Eq => (y == inject_Z m + (1 # 2))%Q
  | loc_Inexact Gt => (inject_Z m + (1 # 2) < y ∧ y < inject_Z m + 1)%Q
  end.

(** The double of mantissa [m] and exponent [e] is one of the two doubles
    next to [x]: no double lies between them. *)
Definition faithful (x : Q) (m e : Z) : Prop :=
  ∀ mf ef, bounded prec emax mf ef = true →
    (val (Zpos mf) ef <= x → val (Zpos mf) ef <= val m e)%Q ∧
    (x <= val (Zpos mf) ef → val m e <= val (Zpos mf) ef)%Q.

(** A double that a positive number [x] may be rounded to: one of its two
    neighbours, zero only for a number at most half the least double,
    infinity only for a number above every double. *)
Inductive rounds (x : Q) : spec_float → Prop :=
| rounds_zero : (x <= pow2 (emin - 1))%Q → rounds x (S754_zero false)
| rounds_finite m e :
    bounded prec emax m e = true →
    faithful x (Zpos m) e →
    rounds x (S754_finite false m e)
| rounds_inf :
    (∀ mf ef, bounded prec emax mf ef = true → (val (Zpos mf) ef < x)%Q) →
    rounds x (S754_infinity false).

Module Ompl.
Section Monad.
Context {State Callback : Type}.

(** ** Outcomes, events and the monad of member functions *)

Inductive exception :=
| NoGoalsToSample      (* Exception("There are no goals to sample") *)
| IndexOutOfRange.     (* GoalStates::getState on a bad index *)

Inductive result (A : Type) :=
| Return (a : A)
| Throw (e : exception)
| Undefined.
Global Arguments Return {A} a.
Global Arguments Throw {A} e.
Global Arguments Undefined {A}.

Inductive resource := GoalCollection | WeightQueue.

Inductive event :=
| Acquire                               (* std::lock_guard constructed on lock_ *)
| Release                               (* ... and destroyed *)
| Access (r : resource) (write : bool)  (* states_ or goals_priority_queue_ touched *)
| NewState (f : Callback) (s : State)   (* callback_(newState) *)
| GrowRoadmap (budget : float)          (* growRoadmap(budget) on the planner's roadmap *)
| RoadmapCounts                         (* milestoneCount(), edgeCount() of that roadmap *)
| Warning.                              (* OMPL_WARN *)

Definition M (O A : Type) : Type := O → result A * O * list event.

Definition ret {O A} (a : A) : M O A := λ o, (Return a, o, []).

Definition bind {O A B} (m : M O A) (k : A → M O B) : M O B :=
  λ o, match m o with
       | (Return a, o1, t1) =>
           match k a o1 with (r, o2, t2) => (r, o2, t1 ++ t2) end
       | (Throw e, o1, t1) => (Throw e, o1, t1)
       | (Undefined, o1, t1) => (Undefined, o1, t1)
       end.

Definition gets {O A} (f : O → A) : M O A := λ o, (Return (f o), o, []).
Definition modify {O} (f : O → O) : M O unit := λ o, (Return tt, f o, []).
Definition tell {O} (e : event) : M O unit := λ o, (Return tt, o, [e]).
Definition throw {O A} (e : exception) : M O A := λ o, (Throw e, o, []).
Definition undefined {O A} : M O A := λ o, (Undefined, o, []).

(** [std::lock_guard<std::mutex> slock(lock_)] around [m]: the guard is
    destroyed when the scope is left, also by an exception. *)
Definition lock_guard {O A} (m : M O A) : M O A :=
  λ o, match m o with (r, o', t) => (r, o', Acquire :: t ++ [Release]) end.

(** Run a computation of a sub-object (base class, member) in the object. *)
Definition zoom {O P A} (get : O → P) (set : P → O → O) (m : M P A) : M O A :=
  λ o, match m (get o) with (r, p, t) => (r, set p o, t) end.

Definition outcome {O A} (x : result A * O * list event) : result A := x.1.1.
Definition final {O A} (x : result A * O * list event) : O := x.1.2.
Definition trace {O A} (x : result A * O * list event) : list event := x.2.

(** [n] calls of [m] in a row. *)
Fixpoint calls {O} (n : nat) (m : M O unit) : M O unit :=
  match n with
  | O => ret tt
  | S n => bind (calls n m) (λ _, m)
  end.

(** Lock discipline of a trace: every access to the goal collection or to the
    weight queue happens while [lock_] is held. *)
Fixpoint locked_from (held : bool) (t : list event) : bool :=
  match t with
  | [] => true
  | Acquire :: t => locked_from true t
  | Release :: t => locked_from false t
  | Access _ _ :: t => held && locked_from held t
  | _ :: t => locked_from held t
  end.

Definition well_locked (t : list event) : bool := locked_from false t.

Definition is_acquire (e : event) : bool :=
  match e with Acquire => true | _ => false end.

Definition is_callback (e : event) : bool :=
  match e with NewState _ _ => true | _ => false end.

Definition is_lock_event (e : event) : bool :=
  match e with Acquire | Release => true | _ => false end.

Definition is_grow (e : event) : bool :=
  match e with GrowRoadmap _ => true | _ => false end.

(** lock_ is a std::mutex, which is not recursive: a thread that takes it
    while it holds it blocks for ever.  A trace uses the lock properly when
    the lock is taken only while it is free, released only while it is
    held, and free at the end. *)
Fixpoint lock_free_from (held : bool) (t : list event) : bool :=
  match t with
  | [] => negb held
  | Acquire :: t => negb held && lock_free_from true t
  | Release :: t => held && lock_free_from false t
  | _ :: t => lock_free_from held t
  end.

Definition balanced (t : list event) : bool := lock_free_from false t.

(** A computation stays within a relation between the object before and
    after it. *)
Definition frames {O A} (R : O → O → Prop) (m : M O A) : Prop :=
  ∀ o, R o (final (m o)).

(** A computation that does not touch the lock. *)
Definition lockless {O A} (m : M O A) : Prop :=
  ∀ o, Forall (λ e, is_lock_event e = false) (trace (m o)).

(** A computation that uses the lock properly, whatever the object. *)
Definition proper {O A} (m : M O A) : Prop :=
  ∀ o, balanced (trace (m o)) = true.

End Monad.

Notation "'let*' x ':=' m 'in' k" := (bind m (fun x => k))
  (at level 10, x pattern, m at level 100, k at level 200).
Notation "'do' m ';' k" := (bind m (fun _ => k))
  (at level 10, m at level 100, k at level 200).

Section GoalStates.
Context {State Callback : Type}.
#[local] Abbreviation M := (@M State Callback).

(** ** ompl::base::SpaceInformation and ompl::base::GoalStates

    The space information is owned by the planner; the samplers call its
    oracles only.  [GoalStates] is the base class of both samplers; its
    member functions are the library's. *)

Record SpaceInformation := {
  isSetup : bool;
  satisfiesBounds : State → bool;
  isValid : State → bool;
  distance : State → State → Q
}.

Inductive GoalType := GOAL_STATES | GOAL_LAZY_SAMPLES.

Record GoalStates := {
  si_ : SpaceInformation;
  type_ : GoalType;
  states_ : list State;
  samplePosition_ : Z
}.

Definition GoalStates_new (si : SpaceInformation) : GoalStates :=
  {| si_ := si; type_ := GOAL_STATES; states_ := []; samplePosition_ := 0 |}.

Definition set_si (si : SpaceInformation) (g : GoalStates) : GoalStates :=
  {| si_ := si; type_ := type_ g; states_ := states_ g;
     samplePosition_ := samplePosition_ g |}.

Definition set_type (t : GoalType) (g : GoalStates) : GoalStates :=
  {| si_ := si_ g; type_ := t; states_ := states_ g;
     samplePosition_ := samplePosition_ g |}.

Definition set_states (l : list State) (g : GoalStates) : GoalStates :=
  {| si_ := si_ g; type_ := type_ g; states_ := l;
     samplePosition_ := samplePosition_ g |}.

Definition set_samplePosition (p : Z) (g : GoalStates) : GoalStates :=
  {| si_ := si_ g; type_ := type_ g; states_ := states_ g;
     samplePosition_ := p |}.

(** states_.push_back(si_->cloneState(st)) *)
Definition GoalStates_addState (st : State) : M GoalStates unit :=
  do tell (Access GoalCollection true);
  modify (λ g, set_states (states_ g ++ [st]) g).

Definition GoalStates_clear : M GoalStates unit :=
  do tell (Access GoalCollection true);
  modify (set_states []).

Definition GoalStates_hasStates : M GoalStates bool :=
  do tell (Access GoalCollection false);
  gets (λ g, negb (bool_decide (states_ g = []))).

Definition GoalStates_getStateCount : M GoalStates Z :=
  do tell (Access GoalCollection false);
  gets (λ g, Z.of_nat (length (states_ g))).

Definition GoalStates_maxSampleCount : M GoalStates Z :=
  do tell (Access GoalCollection false);
  gets (λ g, uint (Z.of_nat (length (states_ g)))).

(** The index is an [unsigned int]: the argument arrives modulo 2^32. *)
Definition GoalStates_getState (index : Z) : M GoalStates State :=
  do tell (Access GoalCollection false);
  let* l := gets states_ in
  match l !! Z.to_nat (uint index) with
  | Some s => ret s
  | None => throw IndexOutOfRange
  end.

(** The least distance from [st] to a stored goal; [None] is the infinite
    distance of an empty store. *)
Definition min_distance (si : SpaceInformation) (st : State) (l : list State)
  : option Q :=
  foldl (λ acc s,
           let d := distance si st s in
           match acc with
           | None => Some d
           | Some m => if Qltb d m then Some d else Some m
           end) None l.

Definition GoalStates_distanceGoal (st : State) : M GoalStates (option Q) :=
  do tell (Access GoalCollection false);
  gets (λ g, min_distance (si_ g) st (states_ g)).

(** The draw of the base class: the stored goals in turn.  The state copied
    into the argument is the value returned here. *)
Definition GoalStates_sampleGoal : M GoalStates State :=
  do tell (Access GoalCollection false);
  let* l := gets states_ in
  match l with
  | [] => throw NoGoalsToSample
  | _ :: _ =>
      let* p := gets samplePosition_ in
      let p' := (p mod Z.of_nat (length l))%Z in
      match l !! Z.to_nat p' with
      | Some s => do modify (set_samplePosition (uint (p' + 1))); ret s
      | None => undefined
      end
  end.

(** The space information is the same and the goals stored are still
    stored, at the same indices. *)
Definition store_kept (g g' : GoalStates) : Prop :=
  si_ g' = si_ g ∧ states_ g `prefix_of` states_ g'.

(** Every goal of the list is farther than [d] from every goal stored
    before it. *)
Fixpoint apart (si : SpaceInformation) (d : Q) (l : list State) : Prop :=
  match l with
  | [] => True
  | s :: l => apart si d l ∧ Forall (λ t, (d < distance si t s)%Q) l
  end.

End GoalStates.

Section BinaryHeap.
Context {State : Type}.

(** ** WeightedGoal and ompl::BinaryHeap<WeightedGoal*, WeightedGoalCompare>

    An [Element] of the heap is an object at an [address] holding its
    [data].  The heap is the vector of its elements, in heap order for the
    comparison [lt_]: the [WeightedGoalCompare] of the header, which is not
    among the sources and is a parameter here.  The position of an element
    is its index in the vector. *)

Definition Handle := nat.

(** Modelled from the spec: the struct WeightedGoal of
    weighted_goal_region_samples.h, which is not among the sources; it
    "pairs a GoalState with a floating weight ... and a handle into a priority
    queue".  The members are the three the two files use. *)
Record WeightedGoal := {
  state_ : State;
  weight_ : float;
  heap_element_ : option Handle      (* None: the null pointer *)
}.

Record Element := {
  address : Handle;
  data : WeightedGoal
}.

Record BinaryHeap := {
  vector_ : list Element;
  lt_ : WeightedGoal → WeightedGoal → bool
}.

Definition set_weight (w : float) (g : WeightedGoal) : WeightedGoal :=
  {| state_ := state_ g; weight_ := w; heap_element_ := heap_element_ g |}.

Definition set_data_weight (w : float) (e : Element) : Element :=
  {| address := address e; data := set_weight w (data e) |}.

Definition set_vector (v : list Element) (q : BinaryHeap) : BinaryHeap :=
  {| vector_ := v; lt_ := lt_ q |}.

Definition BinaryHeap_new (cmp : WeightedGoal → WeightedGoal → bool) : BinaryHeap :=
  {| vector_ := []; lt_ := cmp |}.

(** The element at address [h] and its position: what dereferencing the
    handle gives.  [None] for a handle that points to no element of the
    heap (freed by [clear], or never allocated). *)
Fixpoint find_element (h : Handle) (v : list Element) : option (nat * Element) :=
  match v with
  | [] => None
  | e :: v =>
      if Nat.eqb (address e) h then Some (O, e)
      else match find_element h v with
           | Some (i, x) => Some (S i, x)
           | None => None
           end
  end.

Definition deref (q : BinaryHeap) (p : option Handle) : option (nat * Element) :=
  match p with
  | Some h => find_element h (vector_ q)
  | None => None
  end.

Definition swap (v : list Element) (i j : nat) : list Element :=
  match v !! i, v !! j with
  | Some a, Some b => <[i := b]> (<[j := a]> v)
  | _, _ => v
  end.

(** percolateUp(pos): the element climbs while it is below its parent in
    the order.  The library moves the parents down and writes the element
    once at the end; exchanging at every level gives the same vector. *)
Fixpoint percolateUp (fuel : nat) (cmp : WeightedGoal → WeightedGoal → bool)
    (v : list Element) (child : nat) : list Element :=
  match fuel, child with
  | S fuel, S c =>
      let parent := Nat.div2 c in
      match v !! child, v !! parent with
      | Some tmp, Some p =>
          if cmp (data tmp) (data p)
          then percolateUp fuel cmp (swap v child parent) parent
          else v
      | _, _ => v
      end
  | _, _ => v
  end.

(** percolateDown(pos): the element sinks below the smaller of its
    children while that child is below it in the order. *)
Fixpoint percolateDown (fuel : nat) (cmp : WeightedGoal → WeightedGoal → bool)
    (v : list Element) (parent : nat) : list Element :=
  match fuel with
  | O => v
  | S fuel =>
      let n := length v in
      let child := 2 * (parent + 1) in
      if Nat.ltb child n then
        match v !! (child - 1), v !! child, v !! parent with
        | Some l, Some r, Some tmp =>
            let c := if cmp (data l) (data r) then child - 1 else child in
            let x := if cmp (data l) (data r) then l else r in
            if cmp (data x) (data tmp)
            then percolateDown fuel cmp (swap v parent c) c
            else v
        | _, _, _ => v
        end
      else if Nat.eqb child n then
        match v !! (child - 1), v !! parent with
        | Some l, Some tmp =>
            if cmp (data l) (data tmp) then swap v parent (child - 1) else v
        | _, _ => v
        end
      else v
  end.

(** update(element): percolateUp(pos); percolateDown(pos) for the position
    of the element. *)
Definition BinaryHeap_update (h : Handle) (q : BinaryHeap) : option BinaryHeap :=
  match find_element h (vector_ q) with
  | Some (pos, _) =>
      let n := length (vector_ q) in
      Some (set_vector
              (percolateDown n (lt_ q) (percolateUp n (lt_ q) (vector_ q) pos) pos) q)
  | None => None
  end.

(** top(): the first element, the null pointer for an empty heap. *)
Definition BinaryHeap_top (q : BinaryHeap) : option Element := head (vector_ q).

(** getContent(content) *)
Definition BinaryHeap_getContent (q : BinaryHeap) : list WeightedGoal :=
  data <$> vector_ q.

(** clear(): every element is deleted. *)
Definition BinaryHeap_clear (q : BinaryHeap) : BinaryHeap := set_vector [] q.

(** [handle->data->weight_ = w] *)
Definition assign_weight (h : Handle) (w : float) (q : BinaryHeap) : option BinaryHeap :=
  match find_element h (vector_ q) with
  | Some (pos, _) => Some (set_vector (alter (set_data_weight w) pos (vector_ q)) q)
  | None => None
  end.

(** insert(data): a new element, at an address no element of the heap has,
    is appended and percolated up.  Here the goal stored is given the new
    element as its [heap_element_]. *)
Definition fresh_address (v : list Element) : Handle :=
  S (max_list (address <$> v)).

Definition BinaryHeap_insert (s : State) (w : float) (q : BinaryHeap) : BinaryHeap :=
  let h := fresh_address (vector_ q) in
  let e := {| address := h;
              data := {| state_ := s; weight_ := w; heap_element_ := Some h |} |} in
  let v := vector_ q ++ [e] in
  set_vector (percolateUp (length v) (lt_ q) v (length (vector_ q))) q.

(** The heap as the class keeps it: distinct elements have distinct
    addresses, and every stored goal points back to its own element. *)
Definition wf_heap (q : BinaryHeap) : Prop :=
  NoDup (address <$> vector_ q) ∧
  Forall (λ e, heap_element_ (data e) = Some (address e)) (vector_ q).

(** [handle->data->weight_ = w], on the vector as a whole. *)
Definition reweigh (h : Handle) (w : float) (e : Element) : Element :=
  if Nat.eqb (address e) h then set_data_weight w e else e.

(** The weight read through a handle. *)
Definition weight_at (q : BinaryHeap) (h : Handle) : option float :=
  match find_element h (vector_ q) with
  | Some (_, e) => Some (weight_ (data e))
  | None => None
  end.

(** A weight in (0,1]. *)
Definition in_range (w : float) : Prop :=
  (0 <? w)%float = true ∧ (w <=? 1)%float = true.

(** Every weight of the queue is in (0,1]. *)
Definition weights_in_range (q : BinaryHeap) : Prop :=
  Forall (λ e, in_range (weight_ (data e))) (vector_ q).

End BinaryHeap.
End Ompl.

(** ** Control points of goalSamplingThread

    The lines are those of weighted_goal_region_samples.cpp; the function of
    weighted_goal_region_sampler.cpp has the same control points. *)
Inductive pc {State : Type} :=
| PcStart                                    (* 102-106: wait for startSampling *)
| PcCheckSetup                               (* 108: if (!si_->isSetup()) *)
| PcWaitSetup                                (* 112-113: the polling loop *)
| PcBegin                                    (* 115-116: if (isSampling() && samplerFunc_) *)
| PcLoopHead                                 (* 119: while (isSampling()) *)
| PcSample                                   (* 121-124: the call of samplerFunc_ *)
| PcFor (rest : list State) (increase : bool)  (* 129-146: the candidates left *)
| PcCheckTarget (increase : bool)            (* 147: if (num >= max) *)
| PcSetFlag (increase : bool)                (* 149: sample_goals_ = false *)
| PcCount (increase : bool)                  (* 152-153: ++samplingAttempts_ *)
| PcExit                                     (* 161-164: terminateSamplingThread_ = true *)
| PcDone.                                    (* the thread function has returned *)
Arguments pc : clear implicits.

(** The injected sampling function.  Its argument is the time of the call:
    the function may answer differently at every call. *)
Definition GoalRegionSamplingFn (State : Type) : Type := nat → list State.

(** ** weighted_goal_region_samples.cpp *)

Module Samples.
Import Ompl.
Section Samples.
Context {State Callback : Type}.
#[local] Abbreviation M := (@M State Callback).
#[local] Abbreviation WeightedGoal := (@WeightedGoal State).
#[local] Abbreviation BinaryHeap := (@BinaryHeap State).

Record WeightedGoalRegionSamples := {
  base : @GoalStates State;                       (* the GoalStates sub-object *)
  samplerFunc_ : option (GoalRegionSamplingFn State);
  terminateSamplingThread_ : bool;
  samplingThread_ : option (pc State);            (* nullptr: None *)
  samplingAttempts_ : Z;
  minDist_ : Q;
  max_sampled_goals_ : Z;
  sample_goals_ : bool;
  num_sampled_goals_ : Z;
  goals_priority_queue_ : BinaryHeap;
  callback_ : option Callback
}.
#[local] Abbreviation Obj := WeightedGoalRegionSamples.

Definition set_base (x : GoalStates) (o : Obj) : Obj :=
  {| base := x; samplerFunc_ := samplerFunc_ o;
     terminateSamplingThread_ := terminateSamplingThread_ o;
     samplingThread_ := samplingThread_ o; samplingAttempts_ := samplingAttempts_ o;
     minDist_ := minDist_ o; max_sampled_goals_ := max_sampled_goals_ o;
     sample_goals_ := sample_goals_ o; num_sampled_goals_ := num_sampled_goals_ o;
     goals_priority_queue_ := goals_priority_queue_ o; callback_ := callback_ o |}.

Definition set_terminateSamplingThread (x : bool) (o : Obj) : Obj :=
  {| base := base o; samplerFunc_ := samplerFunc_ o;
     terminateSamplingThread_ := x;
     samplingThread_ := samplingThread_ o; samplingAttempts_ := samplingAttempts_ o;
     minDist_ := minDist_ o; max_sampled_goals_ := max_sampled_goals_ o;
     sample_goals_ := sample_goals_ o; num_sampled_goals_ := num_sampled_goals_ o;
     goals_priority_queue_ := goals_priority_queue_ o; callback_ := callback_ o |}.

Definition set_samplingThread (x : option (pc State)) (o : Obj) : Obj :=
  {| base := base o; samplerFunc_ := samplerFunc_ o;
     terminateSamplingThread_ := terminateSamplingThread_ o;
     samplingThread_ := x; samplingAttempts_ := samplingAttempts_ o;
     minDist_ := minDist_ o; max_sampled_goals_ := max_sampled_goals_ o;
     sample_goals_ := sample_goals_ o; num_sampled_goals_ := num_sampled_goals_ o;
     goals_priority_queue_ := goals_priority_queue_ o; callback_ := callback_ o |}.

Definition set_samplingAttempts (x : Z) (o : Obj) : Obj :=
  {| base := base o; samplerFunc_ := samplerFunc_ o;
     terminateSamplingThread_ := terminateSamplingThread_ o;
     samplingThread_ := samplingThread_ o; samplingAttempts_ := x;
     minDist_ := minDist_ o; max_sampled_goals_ := max_sampled_goals_ o;
     sample_goals_ := sample_goals_ o; num_sampled_goals_ := num_sampled_goals_ o;
     goals_priority_queue_ := goals_priority_queue_ o; callback_ := callback_ o |}.

Definition set_max_sampled_goals (x : Z) (o : Obj) : Obj :=
  {| base := base o; samplerFunc_ := samplerFunc_ o;
     terminateSamplingThread_ := terminateSamplingThread_ o;
     samplingThread_ := samplingThread_ o; samplingAttempts_ := samplingAttempts_ o;
     minDist_ := minDist_ o; max_sampled_goals_ := x;
     sample_goals_ := sample_goals_ o; num_sampled_goals_ := num_sampled_goals_ o;
     goals_priority_queue_ := goals_priority_queue_ o; callback_ := callback_ o |}.

Definition set_sample_goals (x : bool) (o : Obj) : Obj :=
  {| base := base o; samplerFunc_ := samplerFunc_ o;
     terminateSamplingThread_ := terminateSamplingThread_ o;
     samplingThread_ := samplingThread_ o; samplingAttempts_ := samplingAttempts_ o;
     minDist_ := minDist_ o; max_sampled_goals_ := max_sampled_goals_ o;
     sample_goals_ := x; num_sampled_goals_ := num_sampled_goals_ o;
     goals_priority_queue_ := goals_priority_queue_ o; callback_ := callback_ o |}.

Definition set_num_sampled_goals (x : Z) (o : Obj) : Obj :=
  {| base := base o; samplerFunc_ := samplerFunc_ o;
     terminateSamplingThread_ := terminateSamplingThread_ o;
     samplingThread_ := samplingThread_ o; samplingAttempts_ := samplingAttempts_ o;
     minDist_ := minDist_ o; max_sampled_goals_ := max_sampled_goals_ o;
     sample_goals_ := sample_goals_ o; num_sampled_goals_ := x;
     goals_priority_queue_ := goals_priority_queue_ o; callback_ := callback_ o |}.

Definition set_goals_priority_queue (x : BinaryHeap) (o : Obj) : Obj :=
  {| base := base o; samplerFunc_ := samplerFunc_ o;
     terminateSamplingThread_ := terminateSamplingThread_ o;
     samplingThread_ := samplingThread_ o; samplingAttempts_ := samplingAttempts_ o;
     minDist_ := minDist_ o; max_sampled_goals_ := max_sampled_goals_ o;
     sample_goals_ := sample_goals_ o; num_sampled_goals_ := num_sampled_goals_ o;
     goals_priority_queue_ := x; callback_ := callback_ o |}.

Definition set_callback (x : option Callback) (o : Obj) : Obj :=
  {| base := base o; samplerFunc_ := samplerFunc_ o;
     terminateSamplingThread_ := terminateSamplingThread_ o;
     samplingThread_ := samplingThread_ o; samplingAttempts_ := samplingAttempts_ o;
     minDist_ := minDist_ o; max_sampled_goals_ := max_sampled_goals_ o;
     sample_goals_ := sample_goals_ o; num_sampled_goals_ := num_sampled_goals_ o;
     goals_priority_queue_ := goals_priority_queue_ o; callback_ := x |}.

(** A member function of the base class, called on this object. *)
Definition GoalStates_ {A} (m : M GoalStates A) : M Obj A := zoom base set_base m.

(** Accesses to goals_priority_queue_. *)
Definition queue_read {A} (f : BinaryHeap → A) : M Obj A :=
  do tell (Access WeightQueue false);
  gets (λ o, f (goals_priority_queue_ o)).

Definition queue_write (f : BinaryHeap → option BinaryHeap) : M Obj unit :=
  do tell (Access WeightQueue true);
  let* q := gets goals_priority_queue_ in
  match f q with
  | Some q' => modify (set_goals_priority_queue q')
  | None => undefined
  end.

Definition goto (p : pc State) : M Obj unit :=
  modify (set_samplingThread (Some p)).

(** *** startSampling, isSampling *)

Definition startSampling : M Obj unit :=
  lock_guard (
    let* th := gets samplingThread_ in
    match th with
    | None =>
        do modify (set_terminateSamplingThread false);
        modify (set_samplingThread (Some PcStart))
    | Some _ => ret tt
    end).

Definition isSampling : M Obj bool :=
  lock_guard (
    gets (λ o, negb (terminateSamplingThread_ o)
               && match samplingThread_ o with Some _ => true | None => false end)).

(** *** The constructor

    [cmp] is the comparison of the class declaration, with which the
    priority queue is built. *)
Definition new (cmp : WeightedGoal → WeightedGoal → bool)
    (si : SpaceInformation) (samplerFunc : option (GoalRegionSamplingFn State))
    (max_sampled_goals : Z) (autoStart : bool) (minDist : Q) : Obj :=
  let o := {| base := set_type GOAL_LAZY_SAMPLES (GoalStates_new si);
              samplerFunc_ := samplerFunc;
              terminateSamplingThread_ := false;
              samplingThread_ := None;
              samplingAttempts_ := 0;
              minDist_ := minDist;
              max_sampled_goals_ := uint max_sampled_goals;
              sample_goals_ := true;
              num_sampled_goals_ := 0;
              goals_priority_queue_ := BinaryHeap_new cmp;
              callback_ := None |} in
  if autoStart then final (startSampling o) else o.

(** *** goalSamplingThread, one control point at a time *)

Definition goalSamplingThread_step (now : nat) : M Obj unit :=
  let* th := gets samplingThread_ in
  match th with
  | None => ret tt
  | Some PcStart =>
      do lock_guard (ret tt);
      goto PcCheckSetup
  | Some PcCheckSetup =>
      let* ready := gets (λ o, isSetup (si_ (base o))) in
      if negb ready then goto PcWaitSetup else goto PcBegin
  | Some PcWaitSetup =>
      let* stop := gets terminateSamplingThread_ in
      let* ready := gets (λ o, isSetup (si_ (base o))) in
      if negb stop && negb ready then goto PcWaitSetup else goto PcBegin
  | Some PcBegin =>
      let* sampling := isSampling in
      let* f := gets samplerFunc_ in
      if sampling && match f with Some _ => true | None => false end
      then goto PcLoopHead
      else do tell Warning; goto PcExit
  | Some PcLoopHead =>
      let* sampling := isSampling in
      if sampling then goto PcSample else goto PcExit
  | Some PcSample =>
      let* num := gets num_sampled_goals_ in
      let* max := gets max_sampled_goals_ in
      if (num <? max)%Z then
        let* f := gets samplerFunc_ in
        match f with
        | Some f => goto (PcFor (f now) false)
        | None => undefined
        end
      else goto PcLoopHead
  | Some (PcFor [] increase) => goto (PcCheckTarget increase)
  | Some (PcFor (sampled_state :: rest) increase) =>
      let* si := gets (λ o, si_ (base o)) in
      if satisfiesBounds si sampled_state && isValid si sampled_state then
        do modify (λ o, set_num_sampled_goals (uint (num_sampled_goals_ o + 1)) o);
        do lock_guard (GoalStates_ (GoalStates_addState sampled_state));
        goto (PcFor rest true)
      else goto (PcFor rest increase)
  | Some (PcCheckTarget increase) =>
      let* num := gets num_sampled_goals_ in
      let* max := gets max_sampled_goals_ in
      if (max <=? num)%Z then goto (PcSetFlag increase) else goto (PcCount increase)
  | Some (PcSetFlag increase) =>
      do modify (set_sample_goals false);
      goto (PcCount increase)
  | Some (PcCount increase) =>
      do (if increase
          then modify (λ o, set_samplingAttempts (uint (samplingAttempts_ o + 1)) o)
          else ret tt);
      goto PcLoopHead
  | Some PcExit =>
      do lock_guard (modify (set_terminateSamplingThread true));
      goto PcDone
  | Some PcDone => ret tt
  end.

(** [n] steps of the thread, from time [now] on. *)
Fixpoint goalSamplingThread_run (n : nat) (now : nat) : M Obj unit :=
  match n with
  | O => ret tt
  | S n => do goalSamplingThread_step now; goalSamplingThread_run n (S now)
  end.

(** The number of steps after which a thread that has been told to stop has
    returned: what [join] waits for. *)
Definition remaining (now : nat) (o : Obj) : nat :=
  match samplingThread_ o with
  | None => 0
  | Some PcStart => 5
  | Some PcCheckSetup => 4
  | Some PcWaitSetup => 3
  | Some PcBegin => 2
  | Some PcLoopHead => 2
  | Some PcSample =>
      match samplerFunc_ o with
      | Some f => length (f now) + 7
      | None => 0
      end
  | Some (PcFor rest _) => length rest + 6
  | Some (PcCheckTarget _) => 5
  | Some (PcSetFlag _) => 4
  | Some (PcCount _) => 3
  | Some PcExit => 1
  | Some PcDone => 0
  end.

(** samplingThread_->join() *)
Definition join (now : nat) : M Obj unit :=
  λ o, goalSamplingThread_run (remaining now o) now o.

(** *** stopSampling *)

Definition stopSampling (now : nat) : M Obj unit :=
  do lock_guard (
       let* stop := gets terminateSamplingThread_ in
       if negb stop then modify (set_terminateSamplingThread true) else ret tt);
  let* th := gets samplingThread_ in
  match th with
  | Some _ =>
      do join now;
      modify (set_samplingThread None)
  | None => ret tt
  end.

(** The destructor. *)
Definition delete (now : nat) : M Obj unit := stopSampling now.

(** *** The goal store *)

Definition couldSample : M Obj bool :=
  (* canSample() is maxSampleCount() > 0 *)
  let* n := lock_guard (GoalStates_ GoalStates_maxSampleCount) in
  if (0 <? n)%Z then ret true else isSampling.

Definition clear : M Obj unit :=
  lock_guard (
    do GoalStates_ GoalStates_clear;
    queue_write (λ q, Some (BinaryHeap_clear q))).

Definition distanceGoal (st : State) : M Obj (option Q) :=
  lock_guard (GoalStates_ (GoalStates_distanceGoal st)).

Definition sampleGoal : M Obj State :=
  lock_guard (GoalStates_ GoalStates_sampleGoal).

Definition setNewStateCallback (callback : option Callback) : M Obj unit :=
  modify (set_callback callback).

Definition addState (st : State) : M Obj unit :=
  lock_guard (GoalStates_ (GoalStates_addState st)).

Definition getState (index : Z) : M Obj State :=
  lock_guard (GoalStates_ (GoalStates_getState index)).

Definition hasStates : M Obj bool :=
  lock_guard (GoalStates_ GoalStates_hasStates).

Definition getStateCount : M Obj Z :=
  lock_guard (GoalStates_ GoalStates_getStateCount).

Definition maxSampleCount : M Obj Z :=
  lock_guard (GoalStates_ GoalStates_maxSampleCount).

(** [d > minDistance], the infinite distance above every bound. *)
Definition farther (d : option Q) (minDistance : Q) : bool :=
  match d with
  | Some d => Qltb minDistance d
  | None => true
  end.

Definition addStateIfDifferent (st : State) (minDistance : Q) : M Obj bool :=
  let* r :=
    lock_guard (
      let* d := GoalStates_ (GoalStates_distanceGoal st) in
      if farther d minDistance then
        do GoalStates_ (GoalStates_addState st);
        let* cb := gets callback_ in
        match cb with
        | Some _ =>
            do tell (Access GoalCollection false);
            let* l := gets (λ o, states_ (base o)) in
            ret (last l, true)                      (* newState = states_.back() *)
        | None => ret (None, true)
        end
      else ret (None, false)) in
  (* the lock is released at this; if needed, issue a call to the callback *)
  match r with
  | (Some newState, added) =>
      let* cb := gets callback_ in
      match cb with
      | Some f => do tell (NewState f newState); ret added
      | None => undefined
      end
  | (None, added) => ret added
  end.

(** *** Weighted goal selection *)

(** The body of the loop over the queue content in penalizeWeightedGoal. *)
Fixpoint reset_weights (existing_weighted_goals : list WeightedGoal) : M Obj unit :=
  match existing_weighted_goals with
  | [] => ret tt
  | weighted_goal :: rest =>
      match heap_element_ weighted_goal with
      | Some h =>
          do queue_write (assign_weight h 0.5%float);
          do queue_write (BinaryHeap_update h);
          reset_weights rest
      | None => undefined
      end
  end.

Definition penalizeWeightedGoal (weighted_goal : WeightedGoal) : M Obj unit :=
  let* e := queue_read (λ q, deref q (heap_element_ weighted_goal)) in
  match heap_element_ weighted_goal, e with
  | Some h, Some (_, e) =>
      let w := weight_ (data e) in
      do queue_write (assign_weight h (w / (w + 1))%float);
      do queue_write (BinaryHeap_update h);
      let* sample_goals := gets sample_goals_ in
      if (w <? 0.2)%float && negb sample_goals then
        let* existing_weighted_goals := queue_read BinaryHeap_getContent in
        do reset_weights existing_weighted_goals;
        do modify (set_sample_goals true);
        modify (λ o, set_max_sampled_goals (uint (max_sampled_goals_ o + 10)) o)
      else ret tt
  | _, _ => undefined
  end.

Definition rewardWeightedGoal (weighted_goal : WeightedGoal) : M Obj unit :=
  let* e := queue_read (λ q, deref q (heap_element_ weighted_goal)) in
  match heap_element_ weighted_goal, e with
  | Some h, Some (_, e) =>
      let w := weight_ (data e) in
      if (w <? 1)%float then
        let new_w := (w / (1 - w))%float in
        let new_w := if (1 <? new_w)%float then 1%float else new_w in
        do queue_write (assign_weight h new_w);
        queue_write (BinaryHeap_update h)
      else ret tt
  | _, _ => undefined
  end.

(** The value returned is the argument after the call. *)
Definition sampleWeightedGoal (weighted_goal : WeightedGoal) : M Obj WeightedGoal :=
  do tell (Access GoalCollection false);
  let* l := gets (λ o, states_ (base o)) in
  match l with
  | [] => throw NoGoalsToSample
  | _ :: _ =>
      let* heap_element := queue_read BinaryHeap_top in
      match heap_element with
      | Some heap_element =>
          ret {| state_ := state_ (data heap_element);
                 weight_ := weight_ (data heap_element);
                 heap_element_ := heap_element_ (data heap_element) |}
      | None => undefined
      end
  end.

Definition sampleConsecutiveGoal (weighted_goal : WeightedGoal) : M Obj WeightedGoal :=
  do tell (Access GoalCollection false);
  let* l := gets (λ o, states_ (base o)) in
  match l with
  | [] => throw NoGoalsToSample
  | _ :: _ =>
      let* st := GoalStates_ GoalStates_sampleGoal in
      ret {| state_ := st;
             weight_ := weight_ weighted_goal;
             heap_element_ := heap_element_ weighted_goal |}
  end.

(** Modelled from the spec: the entry of an accepted goal into the priority
    queue, which no function of this file performs; the queue is "populated
    as goals arrive", each entry with "a back-pointer from a heap entry to
    itself".  The goal is stored with its weight and the handle of the
    element the heap allocates for it. *)
Definition enqueueGoal (s : State) (w : float) : M Obj unit :=
  queue_write (λ q, Some (BinaryHeap_insert s w q)).

(** ** The sampler and its clients, step by step

    What can happen to the object: a step of the sampling thread, a call of
    the planning thread, the planner setting the space information up. *)
Inductive action :=
| ThreadStep (now : nat)
| SpaceSetup
| Enqueue (s : State) (w : float)
| StartSampling
| StopSampling (now : nat)
| Clear
| SetNewStateCallback (callback : option Callback)
| AddState (st : State)
| AddStateIfDifferent (st : State) (minDistance : Q)
| SampleGoal
| Penalize (weighted_goal : WeightedGoal)
| Reward (weighted_goal : WeightedGoal)
| SampleWeighted (weighted_goal : WeightedGoal)
| SampleConsecutive (weighted_goal : WeightedGoal).

Definition setup (o : Obj) : Obj :=
  set_base (set_si {| isSetup := true;
                      satisfiesBounds := satisfiesBounds (si_ (base o));
                      isValid := isValid (si_ (base o));
                      distance := distance (si_ (base o)) |} (base o)) o.

Definition perform (a : action) (o : Obj) : Obj :=
  match a with
  | ThreadStep now => final (goalSamplingThread_step now o)
  | SpaceSetup => setup o
  | Enqueue s w => final (enqueueGoal s w o)
  | StartSampling => final (startSampling o)
  | StopSampling now => final (stopSampling now o)
  | Clear => final (clear o)
  | SetNewStateCallback f => final (setNewStateCallback f o)
  | AddState st => final (addState st o)
  | AddStateIfDifferent st d => final (addStateIfDifferent st d o)
  | SampleGoal => final (sampleGoal o)
  | Penalize g => final (penalizeWeightedGoal g o)
  | Reward g => final (rewardWeightedGoal g o)
  | SampleWeighted g => final (sampleWeightedGoal g o)
  | SampleConsecutive g => final (sampleConsecutiveGoal g o)
  end.

Inductive reachable (init : Obj) : Obj → Prop :=
| reachable_init : reachable init init
| reachable_step o a : reachable init o → reachable init (perform a o).

(** ** Notions used in the properties of this class *)

(** The object after [states_.push_back(st)]. *)
Definition push_back (st : State) (o : Obj) : Obj :=
  set_base (set_states (states_ (base o) ++ [st]) (base o)) o.

(** What the relation between the flag and the counters depends on. *)
Definition control (o : Obj) : option (pc State) * bool * Z * Z :=
  (samplingThread_ o, sample_goals_ o, num_sampled_goals_ o, max_sampled_goals_ o).

Definition same_control (o o' : Obj) : Prop := control o' = control o.

(** The region reset, seen on the flag and the counters. *)
Definition penalized (o o' : Obj) : Prop :=
  control o' = control o ∨
  (sample_goals_ o = false ∧
   control o'
   = (samplingThread_ o, true, num_sampled_goals_ o, uint (max_sampled_goals_ o + 10))).

(** While the thread is between the test [num < max] and the assignment of
    the flag, the flag is still true; just before the assignment the target
    has been reached. *)
Definition target_invariant (o : Obj) : Prop :=
  (sample_goals_ o = false → (max_sampled_goals_ o <= num_sampled_goals_ o)%Z) ∧
  match samplingThread_ o with
  | Some (PcFor _ _) | Some (PcCheckTarget _) => sample_goals_ o = true
  | Some (PcSetFlag _) =>
      sample_goals_ o = true ∧ (max_sampled_goals_ o <= num_sampled_goals_ o)%Z
  | _ => True
  end.

(** The thread may call the sampling function: it is set whenever the
    thread is about to call it. *)
Definition may_sample (o : Obj) : Prop :=
  samplingThread_ o = Some PcSample → is_Some (samplerFunc_ o).

(** A thread inside the loop has found a sampling function at line 116. *)
Definition sampler_known (o : Obj) : Prop :=
  match samplingThread_ o with
  | Some (PcLoopHead | PcSample | PcFor _ _ | PcCheckTarget _ | PcSetFlag _ | PcCount _) =>
      is_Some (samplerFunc_ o)
  | _ => True
  end.

(** Two objects that look the same through [view]. *)
Definition same {V : Type} (view : Obj → V) (o o' : Obj) : Prop := view o' = view o.

(** A well-formed queue stays well-formed. *)
Definition wf_kept (o o' : Obj) : Prop :=
  wf_heap (goals_priority_queue_ o) → wf_heap (goals_priority_queue_ o').

(** The candidates of a batch that pass the test of line 133, in order. *)
Definition accepted (si : @SpaceInformation State) (l : list State) : list State :=
  List.filter (λ s, satisfiesBounds si s && isValid si s) l.

(** The object after the loop over a batch (lines 130-146): the accepted
    candidates are at the end of the store and have been counted. *)
Definition after_batch (l : list State) (o : Obj) : Obj :=
  let ok := accepted (si_ (base o)) l in
  set_num_sampled_goals (uint (num_sampled_goals_ o + Z.of_nat (length ok)))
    (set_base (set_states (states_ (base o) ++ ok) (base o)) o).

(** The object after a whole round of the loop on the batch [l]
    (lines 121-154), and the steps the round takes. *)
Definition after_round (l : list State) (o : Obj) : Obj :=
  let o1 := after_batch l o in
  let o2 := if (max_sampled_goals_ o1 <=? num_sampled_goals_ o1)%Z
            then set_sample_goals false o1 else o1 in
  if existsb (λ s, satisfiesBounds (si_ (base o)) s && isValid (si_ (base o)) s) l
  then set_samplingAttempts (uint (samplingAttempts_ o + 1)) o2
  else o2.

Definition round_steps (l : list State) (o : Obj) : nat :=
  let o1 := after_batch l o in
  length l + (if (max_sampled_goals_ o1 <=? num_sampled_goals_ o1)%Z then 6 else 5).

(** The goal store of the object is kept. *)
Definition base_kept (o o' : Obj) : Prop := store_kept (base o) (base o').

(** Where the sampling thread is, whether it was told to stop, and what
    it has counted. *)
Definition thread_state (o : Obj) : option (pc State) * bool * Z :=
  (samplingThread_ o, terminateSamplingThread_ o, num_sampled_goals_ o).

(** A thread past the wait of lines 108-114 has seen the space set up, or
    has been told to stop; a thread in the loop has seen it set up. *)
Definition setup_seen (o : Obj) : Prop :=
  match samplingThread_ o with
  | Some PcBegin => terminateSamplingThread_ o = true ∨ isSetup (si_ (base o)) = true
  | Some (PcLoopHead | PcSample | PcFor _ _ | PcCheckTarget _ | PcSetFlag _ | PcCount _) =>
      isSetup (si_ (base o)) = true
  | _ => True
  end.

(** The thread runs and is not told to stop, sample_goals_ is true, and yet
    the target is reached: the thread does not sample, and
    penalizeWeightedGoal, which resets only when sample_goals_ is false,
    does not raise the target. *)
Definition stalled (o : Obj) : Prop :=
  sample_goals_ o = true ∧
  terminateSamplingThread_ o = false ∧
  (max_sampled_goals_ o <= num_sampled_goals_ o)%Z ∧
  (samplingThread_ o = Some PcLoopHead ∨ samplingThread_ o = Some PcSample).

(** The step that is not a function of this file: a goal put into the
    queue from outside. *)
Definition is_enqueue (a : action) : bool :=
  match a with Enqueue _ _ => true | _ => false end.

(** The steps of a list, one after the other. *)
Definition perform_all (acts : list action) (o : Obj) : Obj :=
  foldl (λ o a, perform a o) o acts.

(** An empty queue stays empty. *)
Definition empty_kept (o o' : Obj) : Prop :=
  vector_ (goals_priority_queue_ o) = [] → vector_ (goals_priority_queue_ o') = [].

(** A call of sampleConsecutiveGoal whose result is dropped. *)
Definition drawConsecutiveGoal (weighted_goal : WeightedGoal) : M Obj unit :=
  do sampleConsecutiveGoal weighted_goal; ret tt.

End Samples.
End Samples.

(** Control points of roadmapGrowingThread
    (weighted_goal_region_sampler.cpp, 205-219). *)
Inductive roadmap_pc :=
| RmLoopHead       (* 207: while (isGrowingRoadmap()) *)
| RmGrow           (* 208: growRoadmap(0.1) *)
| RmExit           (* 210-216: terminateGrowingRoadmapThread_ = true, the counts *)
| RmDone.

(** ** weighted_goal_region_sampler.cpp *)

Module Sampler.
Import Ompl.
Section Sampler.
Context {State Callback Planner : Type}.
#[local] Abbreviation M := (@M State Callback).
#[local] Abbreviation WeightedGoal := (@WeightedGoal State).
#[local] Abbreviation BinaryHeap := (@BinaryHeap State).

Record WeightedGoalRegionSampler := {
  base : @GoalStates State;                       (* the GoalStates sub-object *)
  samplerFunc_ : option (GoalRegionSamplingFn State);
  terminateSamplingThread_ : bool;
  terminateGrowingRoadmapThread_ : bool;
  samplingThread_ : option (pc State);            (* nullptr: None *)
  growingRoadmapThread_ : option roadmap_pc;
  prm_planner_ : option Planner;                  (* nullptr: None *)
  samplingAttempts_ : Z;
  minDist_ : Q;
  max_sampled_goals_ : Z;
  sample_goals_ : bool;
  num_sampled_goals_ : Z;
  goals_priority_queue_ : BinaryHeap;
  callback_ : option Callback
}.
#[local] Abbreviation Obj := WeightedGoalRegionSampler.

Definition set_base (x : GoalStates) (o : Obj) : Obj :=
  {| base := x; samplerFunc_ := samplerFunc_ o;
     terminateSamplingThread_ := terminateSamplingThread_ o;
     terminateGrowingRoadmapThread_ := terminateGrowingRoadmapThread_ o;
     growingRoadmapThread_ := growingRoadmapThread_ o;
     prm_planner_ := prm_planner_ o;
     samplingThread_ := samplingThread_ o; samplingAttempts_ := samplingAttempts_ o;
     minDist_ := minDist_ o; max_sampled_goals_ := max_sampled_goals_ o;
     sample_goals_ := sample_goals_ o; num_sampled_goals_ := num_sampled_goals_ o;
     goals_priority_queue_ := goals_priority_queue_ o; callback_ := callback_ o |}.

Definition set_terminateSamplingThread (x : bool) (o : Obj) : Obj :=
  {| base := base o; samplerFunc_ := samplerFunc_ o;
     terminateSamplingThread_ := x;
     terminateGrowingRoadmapThread_ := terminateGrowingRoadmapThread_ o;
     growingRoadmapThread_ := growingRoadmapThread_ o;
     prm_planner_ := prm_planner_ o;
     samplingThread_ := samplingThread_ o; samplingAttempts_ := samplingAttempts_ o;
     minDist_ := minDist_ o; max_sampled_goals_ := max_sampled_goals_ o;
     sample_goals_ := sample_goals_ o; num_sampled_goals_ := num_sampled_goals_ o;
     goals_priority_queue_ := goals_priority_queue_ o; callback_ := callback_ o |}.

Definition set_samplingThread (x : option (pc State)) (o : Obj) : Obj :=
  {| base := base o; samplerFunc_ := samplerFunc_ o;
     terminateSamplingThread_ := terminateSamplingThread_ o;
     terminateGrowingRoadmapThread_ := terminateGrowingRoadmapThread_ o;
     growingRoadmapThread_ := growingRoadmapThread_ o;
     prm_planner_ := prm_planner_ o;
     samplingThread_ := x; samplingAttempts_ := samplingAttempts_ o;
     minDist_ := minDist_ o; max_sampled_goals_ := max_sampled_goals_ o;
     sample_goals_ := sample_goals_ o; num_sampled_goals_ := num_sampled_goals_ o;
     goals_priority_queue_ := goals_priority_queue_ o; callback_ := callback_ o |}.

Definition set_samplingAttempts (x : Z) (o : Obj) : Obj :=
  {| base := base o; samplerFunc_ := samplerFunc_ o;
     terminateSamplingThread_ := terminateSamplingThread_ o;
     terminateGrowingRoadmapThread_ := terminateGrowingRoadmapThread_ o;
     growingRoadmapThread_ := growingRoadmapThread_ o;
     prm_planner_ := prm_planner_ o;
     samplingThread_ := samplingThread_ o; samplingAttempts_ := x;
     minDist_ := minDist_ o; max_sampled_goals_ := max_sampled_goals_ o;
     sample_goals_ := sample_goals_ o; num_sampled_goals_ := num_sampled_goals_ o;
     goals_priority_queue_ := goals_priority_queue_ o; callback_ := callback_ o |}.

Definition set_max_sampled_goals (x : Z) (o : Obj) : Obj :=
  {| base := base o; samplerFunc_ := samplerFunc_ o;
     terminateSamplingThread_ := terminateSamplingThread_ o;
     terminateGrowingRoadmapThread_ := terminateGrowingRoadmapThread_ o;
     growingRoadmapThread_ := growingRoadmapThread_ o;
     prm_planner_ := prm_planner_ o;
     samplingThread_ := samplingThread_ o; samplingAttempts_ := samplingAttempts_ o;
     minDist_ := minDist_ o; max_sampled_goals_ := x;
     sample_goals_ := sample_goals_ o; num_sampled_goals_ := num_sampled_goals_ o;
     goals_priority_queue_ := goals_priority_queue_ o; callback_ := callback_ o |}.

Definition set_sample_goals (x : bool) (o : Obj) : Obj :=
  {| base := base o; samplerFunc_ := samplerFunc_ o;
     terminateSamplingThread_ := terminateSamplingThread_ o;
     terminateGrowingRoadmapThread_ := terminateGrowingRoadmapThread_ o;
     growingRoadmapThread_ := growingRoadmapThread_ o;
     prm_planner_ := prm_planner_ o;
     samplingThread_ := samplingThread_ o; samplingAttempts_ := samplingAttempts_ o;
     minDist_ := minDist_ o; max_sampled_goals_ := max_sampled_goals_ o;
     sample_goals_ := x; num_sampled_goals_ := num_sampled_goals_ o;
     goals_priority_queue_ := goals_priority_queue_ o; callback_ := callback_ o |}.

Definition set_num_sampled_goals (x : Z) (o : Obj) : Obj :=
  {| base := base o; samplerFunc_ := samplerFunc_ o;
     terminateSamplingThread_ := terminateSamplingThread_ o;
     terminateGrowingRoadmapThread_ := terminateGrowingRoadmapThread_ o;
     growingRoadmapThread_ := growingRoadmapThread_ o;
     prm_planner_ := prm_planner_ o;
     samplingThread_ := samplingThread_ o; samplingAttempts_ := samplingAttempts_ o;
     minDist_ := minDist_ o; max_sampled_goals_ := max_sampled_goals_ o;
     sample_goals_ := sample_goals_ o; num_sampled_goals_ := x;
     goals_priority_queue_ := goals_priority_queue_ o; callback_ := callback_ o |}.

Definition set_goals_priority_queue (x : BinaryHeap) (o : Obj) : Obj :=
  {| base := base o; samplerFunc_ := samplerFunc_ o;
     terminateSamplingThread_ := terminateSamplingThread_ o;
     terminateGrowingRoadmapThread_ := terminateGrowingRoadmapThread_ o;
     growingRoadmapThread_ := growingRoadmapThread_ o;
     prm_planner_ := prm_planner_ o;
     samplingThread_ := samplingThread_ o; samplingAttempts_ := samplingAttempts_ o;
     minDist_ := minDist_ o; max_sampled_goals_ := max_sampled_goals_ o;
     sample_goals_ := sample_goals_ o; num_sampled_goals_ := num_sampled_goals_ o;
     goals_priority_queue_ := x; callback_ := callback_ o |}.

Definition set_callback (x : option Callback) (o : Obj) : Obj :=
  {| base := base o; samplerFunc_ := samplerFunc_ o;
     terminateSamplingThread_ := terminateSamplingThread_ o;
     terminateGrowingRoadmapThread_ := terminateGrowingRoadmapThread_ o;
     growingRoadmapThread_ := growingRoadmapThread_ o;
     prm_planner_ := prm_planner_ o;
     samplingThread_ := samplingThread_ o; samplingAttempts_ := samplingAttempts_ o;
     minDist_ := minDist_ o; max_sampled_goals_ := max_sampled_goals_ o;
     sample_goals_ := sample_goals_ o; num_sampled_goals_ := num_sampled_goals_ o;
     goals_priority_queue_ := goals_priority_queue_ o; callback_ := x |}.

Definition set_terminateGrowingRoadmapThread (x : bool) (o : Obj) : Obj :=
  {| base := base o; samplerFunc_ := samplerFunc_ o;
     terminateSamplingThread_ := terminateSamplingThread_ o;
     terminateGrowingRoadmapThread_ := x;
     growingRoadmapThread_ := growingRoadmapThread_ o;
     prm_planner_ := prm_planner_ o;
     samplingThread_ := samplingThread_ o; samplingAttempts_ := samplingAttempts_ o;
     minDist_ := minDist_ o; max_sampled_goals_ := max_sampled_goals_ o;
     sample_goals_ := sample_goals_ o; num_sampled_goals_ := num_sampled_goals_ o;
     goals_priority_queue_ := goals_priority_queue_ o; callback_ := callback_ o |}.

Definition set_growingRoadmapThread (x : option roadmap_pc) (o : Obj) : Obj :=
  {| base := base o; samplerFunc_ := samplerFunc_ o;
     terminateSamplingThread_ := terminateSamplingThread_ o;
     terminateGrowingRoadmapThread_ := terminateGrowingRoadmapThread_ o;
     growingRoadmapThread_ := x;
     prm_planner_ := prm_planner_ o;
     samplingThread_ := samplingThread_ o; samplingAttempts_ := samplingAttempts_ o;
     minDist_ := minDist_ o; max_sampled_goals_ := max_sampled_goals_ o;
     sample_goals_ := sample_goals_ o; num_sampled_goals_ := num_sampled_goals_ o;
     goals_priority_queue_ := goals_priority_queue_ o; callback_ := callback_ o |}.

(** The owner of the sampler assigns [prm_planner_]; no function of the
    file does. *)
Definition set_prm_planner (x : option Planner) (o : Obj) : Obj :=
  {| base := base o; samplerFunc_ := samplerFunc_ o;
     terminateSamplingThread_ := terminateSamplingThread_ o;
     terminateGrowingRoadmapThread_ := terminateGrowingRoadmapThread_ o;
     growingRoadmapThread_ := growingRoadmapThread_ o;
     prm_planner_ := x;
     samplingThread_ := samplingThread_ o; samplingAttempts_ := samplingAttempts_ o;
     minDist_ := minDist_ o; max_sampled_goals_ := max_sampled_goals_ o;
     sample_goals_ := sample_goals_ o; num_sampled_goals_ := num_sampled_goals_ o;
     goals_priority_queue_ := goals_priority_queue_ o; callback_ := callback_ o |}.

(** A member function of the base class, called on this object. *)
Definition GoalStates_ {A} (m : M GoalStates A) : M Obj A := zoom base set_base m.

(** Accesses to goals_priority_queue_. *)
Definition queue_read {A} (f : BinaryHeap → A) : M Obj A :=
  do tell (Access WeightQueue false);
  gets (λ o, f (goals_priority_queue_ o)).

Definition queue_write (f : BinaryHeap → option BinaryHeap) : M Obj unit :=
  do tell (Access WeightQueue true);
  let* q := gets goals_priority_queue_ in
  match f q with
  | Some q' => modify (set_goals_priority_queue q')
  | None => undefined
  end.

Definition goto (p : pc State) : M Obj unit :=
  modify (set_samplingThread (Some p)).

(** *** startSampling, isSampling *)

Definition startSampling : M Obj unit :=
  lock_guard (
    let* th := gets samplingThread_ in
    match th with
    | None =>
        do modify (set_terminateSamplingThread false);
        modify (set_samplingThread (Some PcStart))
    | Some _ => ret tt
    end).

Definition isSampling : M Obj bool :=
  lock_guard (
    gets (λ o, negb (terminateSamplingThread_ o)
               && match samplingThread_ o with Some _ => true | None => false end)).

(** *** The constructor

    [cmp] is the comparison of the class declaration, with which the
    priority queue is built.  The member [prm_planner_] is declared in the
    header, which is not among the sources; the constructor does not
    initialise it and it is the null pointer until the owner assigns it. *)
Definition new (cmp : WeightedGoal → WeightedGoal → bool)
    (si : SpaceInformation) (samplerFunc : option (GoalRegionSamplingFn State))
    (max_sampled_goals : Z) (autoStart : bool) (minDist : Q) : Obj :=
  let o := {| base := set_type GOAL_LAZY_SAMPLES (GoalStates_new si);
              samplerFunc_ := samplerFunc;
              terminateSamplingThread_ := false;
              terminateGrowingRoadmapThread_ := false;
              samplingThread_ := None;
              growingRoadmapThread_ := None;
              prm_planner_ := None;
              samplingAttempts_ := 0;
              minDist_ := minDist;
              max_sampled_goals_ := uint max_sampled_goals;
              sample_goals_ := true;
              num_sampled_goals_ := 0;
              goals_priority_queue_ := BinaryHeap_new cmp;
              callback_ := None |} in
  if autoStart then final (startSampling o) else o.

(** *** startGrowingRoadmap, stopGrowingRoadmap, roadmapGrowingThread *)

Definition startGrowingRoadmap : M Obj unit :=
  lock_guard (
    let* th := gets growingRoadmapThread_ in
    match th with
    | None =>
        do modify (set_terminateGrowingRoadmapThread false);
        modify (set_growingRoadmapThread (Some RmLoopHead))
    | Some _ => ret tt
    end).

Definition isGrowingRoadmap : M Obj bool :=
  lock_guard (
    gets (λ o, negb (terminateGrowingRoadmapThread_ o)
               && match growingRoadmapThread_ o with Some _ => true | None => false end)).

Definition roadmapGrowingThread_step : M Obj unit :=
  let* th := gets growingRoadmapThread_ in
  match th with
  | None => ret tt
  | Some RmLoopHead =>
      let* growing := isGrowingRoadmap in
      if growing then modify (set_growingRoadmapThread (Some RmGrow))
      else modify (set_growingRoadmapThread (Some RmExit))
  | Some RmGrow =>
      (* prm_planner_->as<PRMMod>()->growRoadmap(0.1) *)
      let* planner := gets prm_planner_ in
      match planner with
      | Some _ =>
          do tell (GrowRoadmap 0.1%float);
          modify (set_growingRoadmapThread (Some RmLoopHead))
      | None => undefined
      end
  | Some RmExit =>
      do lock_guard (modify (set_terminateGrowingRoadmapThread true));
      (* the arguments of OMPL_DEBUG: prm_planner_->...->milestoneCount(),
         prm_planner_->...->edgeCount() *)
      let* planner := gets prm_planner_ in
      match planner with
      | Some _ =>
          do tell RoadmapCounts;
          modify (set_growingRoadmapThread (Some RmDone))
      | None => undefined
      end
  | Some RmDone => ret tt
  end.

Fixpoint roadmapGrowingThread_run (n : nat) : M Obj unit :=
  match n with
  | O => ret tt
  | S n => do roadmapGrowingThread_step; roadmapGrowingThread_run n
  end.

(** growingRoadmapThread_->join(): a thread told to stop returns within
    three steps. *)
Definition join_roadmap : M Obj unit := roadmapGrowingThread_run 3.

Definition stopGrowingRoadmap : M Obj unit :=
  do lock_guard (
       let* stop := gets terminateGrowingRoadmapThread_ in
       if negb stop then modify (set_terminateGrowingRoadmapThread true) else ret tt);
  let* th := gets growingRoadmapThread_ in
  match th with
  | Some _ =>
      do join_roadmap;
      modify (set_growingRoadmapThread None)
  | None => ret tt
  end.

(** *** goalSamplingThread, one control point at a time *)

Definition goalSamplingThread_step (now : nat) : M Obj unit :=
  let* th := gets samplingThread_ in
  match th with
  | None => ret tt
  | Some PcStart =>
      do lock_guard (ret tt);
      goto PcCheckSetup
  | Some PcCheckSetup =>
      let* ready := gets (λ o, isSetup (si_ (base o))) in
      if negb ready then goto PcWaitSetup else goto PcBegin
  | Some PcWaitSetup =>
      let* stop := gets terminateSamplingThread_ in
      let* ready := gets (λ o, isSetup (si_ (base o))) in
      if negb stop && negb ready then goto PcWaitSetup else goto PcBegin
  | Some PcBegin =>
      let* sampling := isSampling in
      let* f := gets samplerFunc_ in
      if sampling && match f with Some _ => true | None => false end
      then goto PcLoopHead
      else do tell Warning; goto PcExit
  | Some PcLoopHead =>
      let* sampling := isSampling in
      if sampling then goto PcSample else goto PcExit
  | Some PcSample =>
      let* num := gets num_sampled_goals_ in
      let* max := gets max_sampled_goals_ in
      if (num <? max)%Z then
        let* f := gets samplerFunc_ in
        match f with
        | Some f => goto (PcFor (f now) false)
        | None => undefined
        end
      else goto PcLoopHead
  | Some (PcFor [] increase) => goto (PcCheckTarget increase)
  | Some (PcFor (sampled_state :: rest) increase) =>
      let* si := gets (λ o, si_ (base o)) in
      if satisfiesBounds si sampled_state && isValid si sampled_state then
        do modify (λ o, set_num_sampled_goals (uint (num_sampled_goals_ o + 1)) o);
        do lock_guard (GoalStates_ (GoalStates_addState sampled_state));
        goto (PcFor rest true)
      else goto (PcFor rest increase)
  | Some (PcCheckTarget increase) =>
      let* num := gets num_sampled_goals_ in
      let* max := gets max_sampled_goals_ in
      if (max <=? num)%Z then goto (PcSetFlag increase) else goto (PcCount increase)
  | Some (PcSetFlag increase) =>
      do modify (set_sample_goals false);
      goto (PcCount increase)
  | Some (PcCount increase) =>
      do (if increase
          then modify (λ o, set_samplingAttempts (uint (samplingAttempts_ o + 1)) o)
          else ret tt);
      goto PcLoopHead
  | Some PcExit =>
      do lock_guard (modify (set_terminateSamplingThread true));
      goto PcDone
  | Some PcDone => ret tt
  end.

(** [n] steps of the thread, from time [now] on. *)
Fixpoint goalSamplingThread_run (n : nat) (now : nat) : M Obj unit :=
  match n with
  | O => ret tt
  | S n => do goalSamplingThread_step now; goalSamplingThread_run n (S now)
  end.

(** The number of steps after which a thread that has been told to stop has
    returned: what [join] waits for. *)
Definition remaining (now : nat) (o : Obj) : nat :=
  match samplingThread_ o with
  | None => 0
  | Some PcStart => 5
  | Some PcCheckSetup => 4
  | Some PcWaitSetup => 3
  | Some PcBegin => 2
  | Some PcLoopHead => 2
  | Some PcSample =>
      match samplerFunc_ o with
      | Some f => length (f now) + 7
      | None => 0
      end
  | Some (PcFor rest _) => length rest + 6
  | Some (PcCheckTarget _) => 5
  | Some (PcSetFlag _) => 4
  | Some (PcCount _) => 3
  | Some PcExit => 1
  | Some PcDone => 0
  end.

(** samplingThread_->join() *)
Definition join (now : nat) : M Obj unit :=
  λ o, goalSamplingThread_run (remaining now o) now o.

(** *** stopSampling *)

Definition stopSampling (now : nat) : M Obj unit :=
  do lock_guard (
       let* stop := gets terminateSamplingThread_ in
       if negb stop then modify (set_terminateSamplingThread true) else ret tt);
  let* th := gets samplingThread_ in
  match th with
  | Some _ =>
      do join now;
      modify (set_samplingThread None)
  | None => ret tt
  end.

(** The destructor. *)
Definition delete (now : nat) : M Obj unit :=
  do stopSampling now;
  stopGrowingRoadmap.

(** *** The goal store *)

Definition couldSample : M Obj bool :=
  (* canSample() is maxSampleCount() > 0 *)
  let* n := lock_guard (GoalStates_ GoalStates_maxSampleCount) in
  if (0 <? n)%Z then ret true else isSampling.

Definition clear : M Obj unit :=
  lock_guard (
    do GoalStates_ GoalStates_clear;
    queue_write (λ q, Some (BinaryHeap_clear q))).

Definition distanceGoal (st : State) : M Obj (option Q) :=
  lock_guard (GoalStates_ (GoalStates_distanceGoal st)).

Definition sampleGoal : M Obj State :=
  lock_guard (GoalStates_ GoalStates_sampleGoal).

Definition setNewStateCallback (callback : option Callback) : M Obj unit :=
  modify (set_callback callback).

Definition addState (st : State) : M Obj unit :=
  lock_guard (GoalStates_ (GoalStates_addState st)).

Definition getState (index : Z) : M Obj State :=
  lock_guard (GoalStates_ (GoalStates_getState index)).

Definition hasStates : M Obj bool :=
  lock_guard (GoalStates_ GoalStates_hasStates).

Definition getStateCount : M Obj Z :=
  lock_guard (GoalStates_ GoalStates_getStateCount).

Definition maxSampleCount : M Obj Z :=
  lock_guard (GoalStates_ GoalStates_maxSampleCount).

(** [d > minDistance], the infinite distance above every bound. *)
Definition farther (d : option Q) (minDistance : Q) : bool :=
  match d with
  | Some d => Qltb minDistance d
  | None => true
  end.

Definition addStateIfDifferent (st : State) (minDistance : Q) : M Obj bool :=
  let* r :=
    lock_guard (
      let* d := GoalStates_ (GoalStates_distanceGoal st) in
      if farther d minDistance then
        do GoalStates_ (GoalStates_addState st);
        let* cb := gets callback_ in
        match cb with
        | Some _ =>
            do tell (Access GoalCollection false);
            let* l := gets (λ o, states_ (base o)) in
            ret (last l, true)                      (* newState = states_.back() *)
        | None => ret (None, true)
        end
      else ret (None, false)) in
  (* the lock is released at this; if needed, issue a call to the callback *)
  match r with
  | (Some newState, added) =>
      let* cb := gets callback_ in
      match cb with
      | Some f => do tell (NewState f newState); ret added
      | None => undefined
      end
  | (None, added) => ret added
  end.

(** *** Weighted goal selection *)

(** The body of the loop over the queue content in penalizeWeightedGoal. *)
Fixpoint reset_weights (existing_weighted_goals : list WeightedGoal) : M Obj unit :=
  match existing_weighted_goals with
  | [] => ret tt
  | weighted_goal :: rest =>
      match heap_element_ weighted_goal with
      | Some h =>
          do queue_write (assign_weight h 0.5%float);
          do queue_write (BinaryHeap_update h);
          reset_weights rest
      | None => undefined
      end
  end.

Definition penalizeWeightedGoal (weighted_goal : WeightedGoal) : M Obj unit :=
  let* e := queue_read (λ q, deref q (heap_element_ weighted_goal)) in
  match heap_element_ weighted_goal, e with
  | Some h, Some (_, e) =>
      let w := weight_ (data e) in
      do queue_write (assign_weight h (w / (w + 1))%float);
      do queue_write (BinaryHeap_update h);
      let* sample_goals := gets sample_goals_ in
      if (w <? 0.2)%float && negb sample_goals then
        let* existing_weighted_goals := queue_read BinaryHeap_getContent in
        do reset_weights existing_weighted_goals;
        do modify (set_sample_goals true);
        modify (λ o, set_max_sampled_goals (uint (max_sampled_goals_ o + 10)) o)
      else ret tt
  | _, _ => undefined
  end.

Definition rewardWeightedGoal (weighted_goal : WeightedGoal) : M Obj unit :=
  let* e := queue_read (λ q, deref q (heap_element_ weighted_goal)) in
  match heap_element_ weighted_goal, e with
  | Some h, Some (_, e) =>
      let w := weight_ (data e) in
      if (w <? 1)%float then
        let new_w := (w / (1 - w))%float in
        let new_w := if (1 <? new_w)%float then 1%float else new_w in
        do queue_write (assign_weight h new_w);
        queue_write (BinaryHeap_update h)
      else ret tt
  | _, _ => undefined
  end.

(** The value returned is the argument after the call. *)
Definition sampleWeightedGoal (weighted_goal : WeightedGoal) : M Obj WeightedGoal :=
  do tell (Access GoalCollection false);
  let* l := gets (λ o, states_ (base o)) in
  match l with
  | [] => throw NoGoalsToSample
  | _ :: _ =>
      let* heap_element := queue_read BinaryHeap_top in
      match heap_element with
      | Some heap_element =>
          ret {| state_ := state_ (data heap_element);
                 weight_ := weight_ (data heap_element);
                 heap_element_ := heap_element_ (data heap_element) |}
      | None => undefined
      end
  end.

Definition sampleConsecutiveGoal (weighted_goal : WeightedGoal) : M Obj WeightedGoal :=
  do tell (Access GoalCollection false);
  let* l := gets (λ o, states_ (base o)) in
  match l with
  | [] => throw NoGoalsToSample
  | _ :: _ =>
      let* st := GoalStates_ GoalStates_sampleGoal in
      ret {| state_ := st;
             weight_ := weight_ weighted_goal;
             heap_element_ := heap_element_ weighted_goal |}
  end.

(** Modelled from the spec: the entry of an accepted goal into the priority
    queue, which no function of this file performs either; the queue is "populated
    as goals arrive", each entry with "a back-pointer from a heap entry to
    itself".  The goal is stored with its weight and the handle of the
    element the heap allocates for it. *)
Definition enqueueGoal (s : State) (w : float) : M Obj unit :=
  queue_write (λ q, Some (BinaryHeap_insert s w q)).

End Sampler.
End Sampler.

(** ** From the sampler with a roadmap to the sampler without

    [forget_roadmap] drops the three members that
    weighted_goal_region_sampler.cpp adds and [roadmap_members] keeps
    them; [through] applies the first to the object a computation ends
    with. *)

Definition forget_roadmap {State Callback Planner : Type}
    (o : @Sampler.WeightedGoalRegionSampler State Callback Planner)
  : @Samples.WeightedGoalRegionSamples State Callback :=
  {| Samples.base := Sampler.base o;
     Samples.samplerFunc_ := Sampler.samplerFunc_ o;
     Samples.terminateSamplingThread_ := Sampler.terminateSamplingThread_ o;
     Samples.samplingThread_ := Sampler.samplingThread_ o;
     Samples.samplingAttempts_ := Sampler.samplingAttempts_ o;
     Samples.minDist_ := Sampler.minDist_ o;
     Samples.max_sampled_goals_ := Sampler.max_sampled_goals_ o;
     Samples.sample_goals_ := Sampler.sample_goals_ o;
     Samples.num_sampled_goals_ := Sampler.num_sampled_goals_ o;
     Samples.goals_priority_queue_ := Sampler.goals_priority_queue_ o;
     Samples.callback_ := Sampler.callback_ o |}.

Definition roadmap_members {State Callback Planner : Type}
    (o : @Sampler.WeightedGoalRegionSampler State Callback Planner)
  : bool * option roadmap_pc * option Planner :=
  (Sampler.terminateGrowingRoadmapThread_ o, Sampler.growingRoadmapThread_ o,
   Sampler.prm_planner_ o).

Definition through {State Callback Planner A : Type}
    (x : Ompl.result A * @Sampler.WeightedGoalRegionSampler State Callback Planner
         * list (@Ompl.event State Callback))
  : Ompl.result A * @Samples.WeightedGoalRegionSamples State Callback
    * list (@Ompl.event State Callback) :=
  (Ompl.outcome x, forget_roadmap (Ompl.final x), Ompl.trace x).

(** The computation [m'] of the first class does what [m] of the second
    does, and [m] leaves the roadmap members as they are. *)
Definition agree {State Callback Planner A : Type}
    (m : @Ompl.M State Callback
           (@Sampler.WeightedGoalRegionSampler State Callback Planner) A)
    (m' : @Ompl.M State Callback (@Samples.WeightedGoalRegionSamples State Callback) A)
  : Prop :=
  ∀ o, m' (forget_roadmap o) = through (m o) ∧
       roadmap_members (Ompl.final (m o)) = roadmap_members o.

(** ** Sample objects

    A space in which every state is valid, a sampling function with three
    candidates per call, and the sampler built on them with a target of
    five goals. *)

Module Examples.
Import Ompl.

Definition si_ready : @SpaceInformation nat :=
  {| isSetup := true; satisfiesBounds := λ _, true; isValid := λ _, true;
     distance := λ a b, Qmake (Z.abs (Z.of_nat a - Z.of_nat b)) 2 |}.

(** The heavier goal first. *)
Definition by_weight (a b : @WeightedGoal nat) : bool :=
  (weight_ b <? weight_ a)%float.

Definition three_per_call : GoalRegionSamplingFn nat :=
  λ now, [3 * now; 3 * now + 1; 3 * now + 2].

Definition handle (h : Handle) : @WeightedGoal nat :=
  {| state_ := 0; weight_ := 0; heap_element_ := Some h |}.

Definition fresh : @Samples.WeightedGoalRegionSamples nat nat :=
  Samples.new by_weight si_ready (Some three_per_call) 5 true 0.

(** After twenty steps of the thread the target is reached. *)
Definition paused : @Samples.WeightedGoalRegionSamples nat nat :=
  final (Samples.goalSamplingThread_run 20 0 fresh).

(** Three goals enter the queue, at the addresses 1, 2 and 3. *)
Definition paused_with_goals : @Samples.WeightedGoalRegionSamples nat nat :=
  final (Samples.enqueueGoal 14 1
    (final (Samples.enqueueGoal 13 0.1
      (final (Samples.enqueueGoal 12 0.22 paused))))).

(** A callback is registered on the paused sampler. *)
Definition paused_with_callback : @Samples.WeightedGoalRegionSamples nat nat :=
  final (Samples.setNewStateCallback (Some 1) paused).

(** The thread of the paused sampler is about to insert the candidate 7. *)
Definition inserting : @Samples.WeightedGoalRegionSamples nat nat :=
  Samples.set_sample_goals true
    (Samples.set_samplingThread (Some (PcFor [7] false)) paused_with_callback).

(** The same queue while the thread still samples. *)
Definition sampling_with_goals : @Samples.WeightedGoalRegionSamples nat nat :=
  Samples.set_sample_goals true paused_with_goals.

(** A goal of weight 2^-60 in the queue of the sampler whose thread still
    samples, at the address 1. *)
Definition sampling_with_small_goal : @Samples.WeightedGoalRegionSamples nat nat :=
  final (Samples.enqueueGoal 7 0x1p-60 fresh).

(** The elements of the goals 13 and 14 in that queue. *)
Definition goal_13 : @Element nat :=
  {| address := 2;
     data := {| state_ := 13; weight_ := 0.1; heap_element_ := Some 2 |} |}.

Definition goal_14 : @Element nat :=
  {| address := 3;
     data := {| state_ := 14; weight_ := 1; heap_element_ := Some 3 |} |}.

(** A space in which the valid states are the even numbers below 40. *)
Definition si_even : @SpaceInformation nat :=
  {| isSetup := true; satisfiesBounds := λ s, s <? 40; isValid := Nat.even;
     distance := λ a b, Qmake (Z.abs (Z.of_nat a - Z.of_nat b)) 2 |}.

(** The sampler on that space, its thread at the head of the loop. *)
Definition screening : @Samples.WeightedGoalRegionSamples nat nat :=
  final (Samples.goalSamplingThread_run 3 0
           (Samples.new by_weight si_even (Some three_per_call) 5 true 0)).

(** The thread of the fresh sampler is about to call the sampling
    function. *)
Definition sampling : @Samples.WeightedGoalRegionSamples nat nat :=
  final (Samples.goalSamplingThread_run 4 0 fresh).

(** A sampling function with fifteen candidates per call, and the sampler
    built on it with a target of five: after one round fifteen goals are
    stored.  A goal of weight 0.1 enters the queue. *)
Definition fifteen_per_call : GoalRegionSamplingFn nat :=
  λ now, seq (20 * now) 15.

Definition overshot : @Samples.WeightedGoalRegionSamples nat nat :=
  final (Samples.enqueueGoal 7 0.1
    (final (Samples.goalSamplingThread_run 24 0
              (Samples.new by_weight si_ready (Some fifteen_per_call) 5 true 0)))).

(** A space that is not set up, and the sampler started on it. *)
Definition si_unready : @SpaceInformation nat :=
  {| isSetup := false; satisfiesBounds := λ _, true; isValid := λ _, true;
     distance := λ a b, Qmake (Z.abs (Z.of_nat a - Z.of_nat b)) 2 |}.

Definition waiting : @Samples.WeightedGoalRegionSamples nat nat :=
  Samples.new by_weight si_unready (Some three_per_call) 5 true 0.

(** A sampler of the second class with both threads started, the owner
    having assigned the planner 1. *)
Definition growing : @Sampler.WeightedGoalRegionSampler nat nat nat :=
  final (Sampler.startGrowingRoadmap
           (Sampler.set_prm_planner (Some 1)
              (Sampler.new by_weight si_ready (Some three_per_call) 5 true 0))).

(** The same sampler as its constructor leaves it, with no planner. *)
Definition growing_without_planner : @Sampler.WeightedGoalRegionSampler nat nat nat :=
  final (Sampler.startGrowingRoadmap
           (Sampler.new by_weight si_ready (Some three_per_call) 5 true 0)).

(** The sampler of the second class on the space and the sampling
    function of [fresh]; after twenty steps of its sampling thread; with
    the three goals in its queue; and with the goal of weight 2^-60. *)
Definition fresh_sampler : @Sampler.WeightedGoalRegionSampler nat nat nat :=
  Sampler.new by_weight si_ready (Some three_per_call) 5 true 0.

Definition paused_sampler : @Sampler.WeightedGoalRegionSampler nat nat nat :=
  final (Sampler.goalSamplingThread_run 20 0 fresh_sampler).

Definition paused_sampler_with_goals : @Sampler.WeightedGoalRegionSampler nat nat nat :=
  final (Sampler.enqueueGoal 14 1
    (final (Sampler.enqueueGoal 13 0.1
      (final (Sampler.enqueueGoal 12 0.22 paused_sampler))))).

(** Steps of the sampler and of its clients, none of them an entry into
    the queue. *)
Definition member_calls : list (@Samples.action nat nat) :=
  [Samples.ThreadStep 0; Samples.ThreadStep 1; Samples.ThreadStep 2;
   Samples.AddState 7; Samples.Penalize (handle 1); Samples.SampleGoal;
   Samples.AddStateIfDifferent 9 (1 # 2)].

End Examples.

(** * Properties *)

(** ** Binary64 arithmetic on weights

    What the kernel's addition, subtraction and division do to doubles in
    [0,1], proved from the library's specification of the operations. *)

(** *** Powers of two and values *)

Section Pow2.
#[local] Open Scope Q_scope.

Lemma two_nonzero : ¬ (2 == 0)%Q.
Proof. discriminate. Qed.

Lemma pow2_pos e : 0 < pow2 e.
Proof. apply Qpower_0_lt. reflexivity. Qed.

Lemma pow2_add a b : pow2 (a + b) == pow2 a * pow2 b.
Proof. apply Qpower_plus, two_nonzero. Qed.

Lemma pow2_0 : pow2 0 == 1.
Proof. reflexivity. Qed.

Lemma pow2_1 : pow2 1 == 2.
Proof. reflexivity. Qed.

Lemma pow2_succ e : pow2 (e + 1) == 2 * pow2 e.
Proof. rewrite pow2_add, pow2_1. ring. Qed.

Lemma pow2_pred e : pow2 (e - 1) == pow2 e * (1 # 2).
Proof.
  assert (H := pow2_succ (e - 1)). replace (e - 1 + 1)%Z with e in H by lia.
  rewrite H. field.
Qed.

Lemma pow2_le a b : (a <= b)%Z → pow2 a <= pow2 b.
Proof. intros H. apply Qpower_le_compat_l; [done | discriminate]. Qed.

Lemma pow2_lt a b : (a < b)%Z → pow2 a < pow2 b.
Proof. intros H. apply Qpower_lt_compat_l; [done | reflexivity]. Qed.

Lemma pow2_Z n : (0 <= n)%Z → pow2 n == inject_Z (2 ^ n).
Proof. intros H. unfold pow2. by rewrite Zpower_Qpower. Qed.

Lemma val_shift m e k : (0 <= k)%Z → val (m * 2 ^ k) e == val m (e + k).
Proof.
  intros H. unfold val. rewrite inject_Z_mult, pow2_add, (pow2_Z k H). ring.
Qed.

Lemma val_pow k e : (0 <= k)%Z → val (2 ^ k) e == pow2 (e + k).
Proof.
  intros H. unfold val. rewrite pow2_add, (pow2_Z k H). ring.
Qed.

Lemma val_le m1 m2 e : (m1 <= m2)%Z → val m1 e <= val m2 e.
Proof.
  intros H. unfold val. apply Qmult_le_compat_r; [by rewrite <- Zle_Qle|].
  apply Qlt_le_weak, pow2_pos.
Qed.

Lemma val_lt m1 m2 e : (m1 < m2)%Z → val m1 e < val m2 e.
Proof.
  intros H. unfold val. apply Qmult_lt_compat_r; [apply pow2_pos|by rewrite <- Zlt_Qlt].
Qed.

Lemma val_lt_inv m1 m2 e : val m1 e < val m2 e → (m1 < m2)%Z.
Proof.
  intros H. destruct (Z_lt_le_dec m1 m2) as [|Hle]; [done|].
  apply (val_le _ _ e) in Hle. lra.
Qed.

Lemma val_le_inv m1 m2 e : val m1 e <= val m2 e → (m1 <= m2)%Z.
Proof.
  intros H. destruct (Z_lt_le_dec m2 m1) as [Hlt|]; [|done].
  apply (val_lt _ _ e) in Hlt. lra.
Qed.

Lemma val_succ m e : val (m + 1) e == val m e + pow2 e.
Proof. unfold val. rewrite inject_Z_plus. ring. Qed.

Lemma digits2_pos_spec p :
  (2 ^ (Zpos (digits2_pos p) - 1) <= Zpos p < 2 ^ Zpos (digits2_pos p))%Z.
Proof.
  induction p as [p IH|p IH|]; simpl digits2_pos; [| |simpl; lia].
  - rewrite Pos2Z.inj_succ. replace (Z.succ (Zpos (digits2_pos p)) - 1)%Z
      with (Z.succ (Zpos (digits2_pos p) - 1)) by lia.
    rewrite !Z.pow_succ_r by lia. lia.
  - rewrite Pos2Z.inj_succ. replace (Z.succ (Zpos (digits2_pos p)) - 1)%Z
      with (Z.succ (Zpos (digits2_pos p) - 1)) by lia.
    rewrite !Z.pow_succ_r by lia. lia.
Qed.

(** The binade of a positive mantissa. *)
Lemma val_mag (m : positive) e :
  let d := Zpos (digits2_pos m) in
  pow2 (d + e - 1) <= val (Zpos m) e ∧ val (Zpos m + 1) e <= pow2 (d + e).
Proof.
  intros d. destruct (digits2_pos_spec m) as [H1 H2]. fold d in H1, H2.
  assert (Hd : (0 <= d - 1)%Z) by (unfold d; lia).
  split.
  - replace (d + e - 1)%Z with (e + (d - 1))%Z by lia.
    rewrite <- (val_pow (d - 1) e Hd). apply val_le. lia.
  - replace (d + e)%Z with (e + d)%Z by lia.
    rewrite <- (val_pow d e) by lia. apply val_le. lia.
Qed.

End Pow2.

(** *** Doubles in canonical form *)

Section Canonical.
#[local] Open Scope Q_scope.

Lemma bounded_spec m e :
  bounded prec emax m e = true
  ↔ (Z.max (Zpos (digits2_pos m) + e - 53) (-1074) = e ∧ e <= 971)%Z.
Proof.
  unfold bounded, canonical_mantissa. rewrite andb_true_iff, Z.eqb_eq, Z.leb_le.
  reflexivity.
Qed.

Lemma bounded_range m e :
  bounded prec emax m e = true →
  (-1074 <= e <= 971)%Z ∧ (Zpos m < 2 ^ 53)%Z ∧ (-1074 < e → 2 ^ 52 <= Zpos m)%Z.
Proof.
  intros [Hc He]%bounded_spec.
  destruct (digits2_pos_spec m) as [H1 H2].
  set (d := Zpos (digits2_pos m)) in *.
  assert (Hd : (0 < d)%Z) by (unfold d; lia).
  split; [lia|]. split.
  - assert (d <= 53)%Z by lia.
    assert (2 ^ d <= 2 ^ 53)%Z by (apply Z.pow_le_mono_r; lia). lia.
  - intros Hn. assert (d = 53)%Z by lia.
    replace (d - 1)%Z with 52%Z in H1 by lia. exact H1.
Qed.

Lemma val_below m e : (m < 2 ^ 53)%Z → val m e < pow2 (e + 53).
Proof.
  intros H. rewrite <- (val_pow 53 e) by lia. by apply val_lt.
Qed.

Lemma val_above m e : (2 ^ 52 <= m)%Z → pow2 (e + 52) <= val m e.
Proof.
  intros H. rewrite <- (val_pow 52 e) by lia. by apply val_le.
Qed.

(** No float lies strictly between two neighbours of the grid of a
    binade. *)
Lemma no_float_between (mf : positive) ef K e1 :
  bounded prec emax mf ef = true →
  (-1074 <= e1)%Z → (-1074 < e1 → 2 ^ 52 <= K)%Z →
  val K e1 < val (Zpos mf) ef → val (K + 1) e1 <= val (Zpos mf) ef.
Proof.
  intros (He & Hm & Hn)%bounded_range He1 HK Hlt.
  destruct (Z_le_gt_dec e1 ef) as [Hle|Hgt].
  - assert (Hs : val (Zpos mf) ef == val (Zpos mf * 2 ^ (ef - e1)) e1).
    { rewrite val_shift by lia. by replace (e1 + (ef - e1))%Z with ef by lia. }
    rewrite Hs in Hlt |- *. apply val_lt_inv in Hlt. apply val_le. lia.
  - exfalso.
    assert (H1 : val (Zpos mf) ef < pow2 (ef + 53)) by by apply val_below.
    assert (H2 : pow2 (e1 + 52) <= val K e1) by (apply val_above, HK; lia).
    assert (H3 : pow2 (ef + 53) <= pow2 (e1 + 52)) by (apply pow2_le; lia).
    lra.
Qed.

Lemma exponent_order m1 e1 m2 e2 :
  bounded prec emax m1 e1 = true → bounded prec emax m2 e2 = true →
  (e1 < e2)%Z → val (Zpos m1) e1 < val (Zpos m2) e2.
Proof.
  intros (He1 & Hm1 & _)%bounded_range (He2 & _ & Hn2)%bounded_range Hlt.
  assert (H1 : val (Zpos m1) e1 < pow2 (e1 + 53)) by by apply val_below.
  assert (H2 : pow2 (e2 + 52) <= val (Zpos m2) e2) by (apply val_above, Hn2; lia).
  assert (H3 : pow2 (e1 + 53) <= pow2 (e2 + 52)) by (apply pow2_le; lia).
  lra.
Qed.

Lemma SFleb_val m1 e1 m2 e2 :
  bounded prec emax m1 e1 = true → bounded prec emax m2 e2 = true →
  SFleb (S754_finite false m1 e1) (S754_finite false m2 e2) = true
  ↔ val (Zpos m1) e1 <= val (Zpos m2) e2.
Proof.
  intros Hb1 Hb2. unfold SFleb, SFcompare.
  destruct (Z.compare_spec e1 e2) as [->|Hlt|Hgt].
  - change (Pos.compare_cont Eq m1 m2) with (m1 ?= m2)%positive.
    destruct (Pos.compare_spec m1 m2) as [->|H|H].
    + split; [intros _; apply Qle_refl | done].
    + split; [intros _; apply val_le; lia | done].
    + split; [done|]. intros Hv%val_le_inv. lia.
  - pose proof (exponent_order _ _ _ _ Hb1 Hb2 Hlt). split; [intros _; lra | done].
  - pose proof (exponent_order _ _ _ _ Hb2 Hb1 ltac:(lia)). split; [done | intros; lra].
Qed.

Lemma SFltb_val m1 e1 m2 e2 :
  bounded prec emax m1 e1 = true → bounded prec emax m2 e2 = true →
  SFltb (S754_finite false m1 e1) (S754_finite false m2 e2) = true
  ↔ val (Zpos m1) e1 < val (Zpos m2) e2.
Proof.
  intros Hb1 Hb2. unfold SFltb, SFcompare.
  destruct (Z.compare_spec e1 e2) as [->|Hlt|Hgt].
  - change (Pos.compare_cont Eq m1 m2) with (m1 ?= m2)%positive.
    destruct (Pos.compare_spec m1 m2) as [->|H|H].
    + split; [done|]. intros Hv. lra.
    + split; [intros _; apply val_lt; lia | done].
    + split; [done|]. intros Hv%val_lt_inv. lia.
  - pose proof (exponent_order _ _ _ _ Hb1 Hb2 Hlt). split; [intros _; lra | done].
  - pose proof (exponent_order _ _ _ _ Hb2 Hb1 ltac:(lia)). split; [done | intros; lra].
Qed.

End Canonical.

(** *** Shifting a mantissa to the right *)

Section Shift.
#[local] Open Scope Q_scope.

Lemma fexp_unfold t : SpecFloat.fexp prec emax t = Z.max (t - 53) (-1074).
Proof. reflexivity. Qed.

Lemma loc_ok_ext y y' m l : y == y' → loc_ok y m l → loc_ok y' m l.
Proof. intros Hy. destruct l as [|[]]; unfold loc_ok; by rewrite Hy. Qed.

Lemma loc_ok_floor y m l : loc_ok y m l → inject_Z m <= y ∧ y < inject_Z m + 1.
Proof. destruct l as [|[]]; unfold loc_ok; intros H; split; lra. Qed.

Lemma loc_of_loc m l :
  shr_m (shr_record_of_loc m l) = m ∧
  loc_of_shr_record (shr_record_of_loc m l) = l.
Proof. by destruct l as [|[]]. Qed.

Lemma inject_xO p : inject_Z (Zpos p~0) == 2 * inject_Z (Zpos p).
Proof. rewrite Pos2Z.inj_xO, inject_Z_mult. reflexivity. Qed.

Lemma inject_xI p : inject_Z (Zpos p~1) == 2 * inject_Z (Zpos p) + 1.
Proof. rewrite Pos2Z.inj_xI, inject_Z_plus, inject_Z_mult. reflexivity. Qed.

Lemma shr_1_ok y rc :
  (0 <= shr_m rc)%Z → loc_ok y (shr_m rc) (loc_of_shr_record rc) →
  (0 <= shr_m (shr_1 rc))%Z ∧
  loc_ok (y * (1 # 2)) (shr_m (shr_1 rc)) (loc_of_shr_record (shr_1 rc)).
Proof.
  destruct rc as [m r s]. cbn [shr_m]. intros Hm Hy.
  destruct m as [|[p|p|]|p]; [| | | |lia];
    destruct r, s; cbn [shr_1 loc_of_shr_record shr_m orb loc_ok] in *;
    (split; [lia|]);
    rewrite ?inject_xO, ?inject_xI in Hy;
    change (inject_Z 0) with 0 in *; change (inject_Z 1) with 1 in *; lra.
Qed.

Lemma pow2_xO p : pow2 (Zpos p~0) == pow2 (Zpos p) * pow2 (Zpos p).
Proof. rewrite Pos2Z.inj_xO, <- pow2_add. by replace (2 * Zpos p)%Z with (Zpos p + Zpos p)%Z by lia. Qed.

Lemma pow2_xI p : pow2 (Zpos p~1) == 2 * pow2 (Zpos p) * pow2 (Zpos p).
Proof.
  rewrite Pos2Z.inj_xI. replace (2 * Zpos p + 1)%Z with (Zpos p + Zpos p + 1)%Z by lia.
  rewrite pow2_succ, pow2_add. ring.
Qed.

Lemma iter_shr_ok p : ∀ y rc,
  (0 <= shr_m rc)%Z → loc_ok y (shr_m rc) (loc_of_shr_record rc) →
  (0 <= shr_m (SpecFloat.iter_pos shr_1 p rc))%Z ∧
  loc_ok (y / pow2 (Zpos p)) (shr_m (SpecFloat.iter_pos shr_1 p rc))
    (loc_of_shr_record (SpecFloat.iter_pos shr_1 p rc)).
Proof.
  induction p as [p IH|p IH|]; intros y rc Hm Hy; cbn [SpecFloat.iter_pos].
  - destruct (shr_1_ok y rc Hm Hy) as [Hm1 Hy1].
    destruct (IH _ _ Hm1 Hy1) as [Hm2 Hy2].
    destruct (IH _ _ Hm2 Hy2) as [Hm3 Hy3].
    split; [done|]. eapply loc_ok_ext; [|exact Hy3].
    pose proof (pow2_pos (Zpos p)). rewrite pow2_xI. field. lra.
  - destruct (IH _ _ Hm Hy) as [Hm2 Hy2].
    destruct (IH _ _ Hm2 Hy2) as [Hm3 Hy3].
    split; [done|]. eapply loc_ok_ext; [|exact Hy3].
    pose proof (pow2_pos (Zpos p)). rewrite pow2_xO. field. lra.
  - destruct (shr_1_ok y rc Hm Hy) as [Hm1 Hy1].
    split; [done|]. eapply loc_ok_ext; [|exact Hy1].
    change (pow2 1) with 2. field.
Qed.

Lemma shr_ok y rc e n :
  (0 <= shr_m rc)%Z → loc_ok y (shr_m rc) (loc_of_shr_record rc) → (0 <= n)%Z →
  snd (shr rc e n) = (e + n)%Z ∧
  (0 <= shr_m (fst (shr rc e n)))%Z ∧
  loc_ok (y / pow2 n) (shr_m (fst (shr rc e n))) (loc_of_shr_record (fst (shr rc e n))).
Proof.
  intros Hm Hy Hn. destruct n as [|p|p]; [| |lia]; cbn [shr fst snd].
  - split; [lia|]. split; [done|]. eapply loc_ok_ext; [|exact Hy].
    change (pow2 0) with 1. field.
  - split; [done|]. by apply iter_shr_ok.
Qed.

Lemma round_nearest_even_cases y m l :
  loc_ok y m l →
  (round_nearest_even m l = m ∧ y <= inject_Z m + (1 # 2)) ∨
  (round_nearest_even m l = (m + 1)%Z ∧ inject_Z m < y).
Proof.
  destruct l as [|[]]; unfold loc_ok, round_nearest_even; intros H.
  - left. split; [done | lra].
  - destruct (Z.even m); [left|right]; split; try done; lra.
  - left. split; [done | lra].
  - right. split; [done | lra].
Qed.

Lemma pow2_lt_inv a b : pow2 a < pow2 b → (a < b)%Z.
Proof. intros H. apply (Qpower_lt_compat_l_inv 2); [done | reflexivity]. Qed.

Lemma undo_div x e : x == (x / pow2 e) * pow2 e.
Proof. pose proof (pow2_pos e). field. lra. Qed.

Lemma val_le_div m e x : inject_Z m <= x / pow2 e ↔ val m e <= x.
Proof.
  unfold val. rewrite (undo_div x e) at 2. symmetry. apply Qmult_le_r, pow2_pos.
Qed.

Lemma div_lt_val m e x : x / pow2 e < inject_Z m ↔ x < val m e.
Proof.
  unfold val. rewrite (undo_div x e) at 2. symmetry. apply Qmult_lt_r, pow2_pos.
Qed.

Lemma val_lt_div m e x : inject_Z m < x / pow2 e ↔ val m e < x.
Proof.
  unfold val. rewrite (undo_div x e) at 2. symmetry. apply Qmult_lt_r, pow2_pos.
Qed.

Lemma div_le_val m e x : x / pow2 e <= inject_Z m ↔ x <= val m e.
Proof.
  unfold val. rewrite (undo_div x e) at 2. symmetry. apply Qmult_le_r, pow2_pos.
Qed.

End Shift.

(** *** Renormalising a rounded mantissa *)

Section Rounding.
#[local] Open Scope Q_scope.

Lemma val_1 e : val 1 e == pow2 e.
Proof. unfold val. change (inject_Z 1) with 1. ring. Qed.

Lemma val_mono_e m e e' : (0 <= m)%Z → (e <= e')%Z → val m e <= val m e'.
Proof.
  intros Hm He. unfold val. pose proof (pow2_le e e' He).
  assert (0 <= inject_Z m) by (change 0 with (inject_Z 0); by rewrite <- Zle_Qle).
  nra.
Qed.

Lemma floats_below mf ef :
  bounded prec emax mf ef = true → val (Zpos mf) ef <= val (2 ^ 53 - 1) 971.
Proof.
  intros (He & Hm & _)%bounded_range.
  apply (Qle_trans _ (val (Zpos mf) 971)); [apply val_mono_e; lia | apply val_le; lia].
Qed.

(** The second half of binary_round_aux: the rounded mantissa [m2] on the
    grid of the exponent [e1] is renormalised and checked for overflow. *)
Lemma renormalise_rounds x m1 m2 e1 :
  (0 <= m1 < 2 ^ 53)%Z → (-1074 <= e1)%Z → (-1074 < e1 → 2 ^ 52 <= m1)%Z →
  val m1 e1 <= x → x < val (m1 + 1) e1 →
  (m2 = m1 ∧ (0 < m1)%Z) ∨ (m2 = (m1 + 1)%Z ∧ val m1 e1 < x) →
  rounds x
    (let '(mrs, e2) := shr_fexp prec emax m2 e1 loc_Exact in
     match shr_m mrs with
     | Z0 => S754_zero false
     | Zpos m => if Z.leb e2 (emax - prec) then S754_finite false m e2
                 else S754_infinity false
     | Zneg _ => S754_nan
     end).
Proof.
  intros Hm1 He1 Hnorm Hlo Hhi Hm2.
  assert (Hfaith : faithful x m2 e1).
  { intros mf ef Hb. destruct Hm2 as [[-> Hpos]|[-> Hstrict]]; split; intros H.
    - destruct (Qlt_le_dec (val m1 e1) (val (Zpos mf) ef)) as [Hlt|]; [|done].
      pose proof (no_float_between mf ef m1 e1 Hb He1 Hnorm Hlt). lra.
    - lra.
    - lra.
    - apply (no_float_between mf ef m1 e1 Hb He1 Hnorm). lra. }
  assert (Hpos2 : (0 < m2 <= 2 ^ 53)%Z) by (destruct Hm2 as [[-> ?]|[-> ?]]; lia).
  assert (Hnorm2 : (-1074 < e1 → 2 ^ 52 <= m2)%Z)
    by (intros H; specialize (Hnorm H); destruct Hm2 as [[-> ?]|[-> ?]]; lia).
  change (emax - prec)%Z with 971%Z.
  destruct (Z_lt_le_dec m2 (2 ^ 53)) as [Hsmall|Hbig].
  - (* the mantissa fits *)
    destruct m2 as [|p|p]; [lia| |lia].
    destruct (digits2_pos_spec p) as [Hd1 Hd2].
    assert (Hd : (Zpos (digits2_pos p) <= 53)%Z).
    { assert (Zpos (digits2_pos p) - 1 < 53)%Z by (apply (Z.pow_lt_mono_r_iff 2); lia).
      lia. }
    assert (Hd' : (-1074 < e1 → Zpos (digits2_pos p) = 53)%Z).
    { intros H. specialize (Hnorm2 H).
      assert (52 < Zpos (digits2_pos p))%Z by (apply (Z.pow_lt_mono_r_iff 2); lia). lia. }
    assert (Hexp : Z.max (Zpos (digits2_pos p) + e1 - 53) (-1074) = e1) by lia.
    unfold shr_fexp. rewrite fexp_unfold. cbn [Zdigits2]. rewrite Hexp, Z.sub_diag.
    cbn [shr shr_record_of_loc shr_m].
    destruct (Z.leb_spec e1 971) as [Hfin|Hinf].
    + apply rounds_finite; [by apply bounded_spec | exact Hfaith].
    + apply rounds_inf. intros mf ef Hb. pose proof (floats_below mf ef Hb) as Hmax.
      assert (H1 : val (2 ^ 53 - 1) 971 < pow2 (971 + 53)) by (apply val_below; lia).
      assert (H2 : pow2 (e1 + 52) <= val m1 e1) by (apply val_above, Hnorm; lia).
      assert (H3 : pow2 (971 + 53) <= pow2 (e1 + 52)) by (apply pow2_le; lia).
      lra.
  - (* the mantissa has reached 2^53 *)
    assert (m2 = 2 ^ 53)%Z as -> by lia.
    destruct Hm2 as [[? ?]|[Hm Hstrict]]; [lia|].
    assert (m1 = 2 ^ 53 - 1)%Z as -> by lia.
    assert (Hshift : shr_fexp prec emax (2 ^ 53) e1 loc_Exact
                     = ({| shr_m := 2 ^ 52; shr_r := false; shr_s := false |}, (e1 + 1)%Z)).
    { unfold shr_fexp. rewrite fexp_unfold.
      change (Zdigits2 (2 ^ 53)) with 54%Z.
      replace (Z.max (54 + e1 - 53) (-1074) - e1)%Z with 1%Z by lia. reflexivity. }
    rewrite Hshift. cbn [shr_m]. change (2 ^ 52)%Z with (Zpos 4503599627370496).
    assert (Hval : val (2 ^ 53) e1 == val (Zpos 4503599627370496) (e1 + 1)).
    { rewrite <- val_shift by lia. reflexivity. }
    destruct (Z.leb_spec (e1 + 1) 971) as [Hfin|Hinf].
    + apply rounds_finite.
      * apply bounded_spec. change (Zpos (digits2_pos 4503599627370496)) with 53%Z. lia.
      * intros mf ef Hb. rewrite <- Hval. by apply Hfaith.
    + apply rounds_inf. intros mf ef Hb. pose proof (floats_below mf ef Hb) as Hmax.
      assert (H1 : val (2 ^ 53 - 1) 971 <= val (2 ^ 53 - 1) e1) by (apply val_mono_e; lia).
      lra.
Qed.

End Rounding.

(** *** binary_round_aux *)

Section RoundAux.
#[local] Open Scope Q_scope.

(** binary_round_aux on a mantissa, an exponent and a location that
    describe the positive number [x] of the binade [t], the exponent not
    above the one of the floats of that binade. *)
Lemma binary_round_aux_rounds x t mx ex lx :
  (0 <= mx)%Z → loc_ok (x / pow2 ex) mx lx →
  pow2 (t - 1) <= x → x < pow2 t → (ex <= Z.max (t - 53) (-1074))%Z →
  rounds x (binary_round_aux prec emax false mx ex lx).
Proof.
  intros Hmx Hloc Hlo Hhi Hex.
  set (e1 := Z.max (t - 53) (-1074)) in *.
  destruct (loc_ok_floor _ _ _ Hloc) as [Hfl1 Hfl2].
  assert (Hn1 : SpecFloat.fexp prec emax (Zdigits2 mx + ex) = e1).
  { rewrite fexp_unfold. destruct mx as [|m|m]; [| |lia].
    - cbn [Zdigits2]. change (inject_Z 0 + 1) with (inject_Z 1) in Hfl2.
      apply div_lt_val in Hfl2. rewrite val_1 in Hfl2.
      assert (t - 1 < ex)%Z by (apply pow2_lt_inv; lra). lia.
    - cbn [Zdigits2]. destruct (val_mag m ex) as [Hm1 Hm2].
      apply val_le_div in Hfl1.
      assert (Hfl3 : x < val (Zpos m + 1) ex).
      { apply div_lt_val. rewrite inject_Z_plus. exact Hfl2. }
      assert (t - 1 < Zpos (digits2_pos m) + ex)%Z by (apply pow2_lt_inv; lra).
      assert (Zpos (digits2_pos m) + ex - 1 < t)%Z by (apply pow2_lt_inv; lra).
      replace (Zpos (digits2_pos m) + ex)%Z with t by lia. done. }
  unfold binary_round_aux, shr_fexp at 1. rewrite Hn1.
  destruct (loc_of_loc mx lx) as [Hrm Hrl].
  destruct (shr_ok (x / pow2 ex) (shr_record_of_loc mx lx) ex (e1 - ex))
    as (He & Hm1 & Hl1); [by rewrite Hrm | by rewrite Hrm, Hrl | lia |].
  destruct (shr (shr_record_of_loc mx lx) ex (e1 - ex)) as [rc1 e1'].
  cbn [fst snd] in He, Hm1, Hl1. replace e1' with e1 by lia. clear He e1'.
  set (m1 := shr_m rc1) in *. set (l1 := loc_of_shr_record rc1) in *.
  assert (Hl1' : loc_ok (x / pow2 e1) m1 l1).
  { eapply loc_ok_ext; [|exact Hl1].
    assert (Hp : pow2 e1 == pow2 ex * pow2 (e1 - ex)).
    { rewrite <- pow2_add. by replace (ex + (e1 - ex))%Z with e1 by lia. }
    pose proof (pow2_pos ex). pose proof (pow2_pos (e1 - ex)).
    rewrite Hp. field. lra. }
  clear Hl1 Hloc Hfl1 Hfl2 Hn1 Hrm Hrl.
  destruct (loc_ok_floor _ _ _ Hl1') as [Hf1 Hf2].
  apply val_le_div in Hf1.
  assert (Hf3 : x < val (m1 + 1) e1).
  { apply div_lt_val. rewrite inject_Z_plus. exact Hf2. }
  assert (Hm1hi : (m1 < 2 ^ 53)%Z).
  { apply (val_lt_inv _ _ e1). rewrite (val_pow 53 e1) by lia.
    assert (pow2 t <= pow2 (e1 + 53)) by (apply pow2_le; lia). lra. }
  assert (Hm1lo : (-1074 < e1 → 2 ^ 52 <= m1)%Z).
  { intros Hn. assert (2 ^ 52 < m1 + 1)%Z; [|lia].
    apply (val_lt_inv _ _ e1). rewrite (val_pow 52 e1) by lia.
    assert (pow2 (e1 + 52) <= pow2 (t - 1)) by (apply pow2_le; lia). lra. }
  destruct (round_nearest_even_cases _ _ _ Hl1') as [[Hr Hhalf]|[Hr Hstrict]];
    rewrite Hr.
  - destruct (Z.eq_dec m1 0%Z) as [Hz|Hnz].
    + (* everything is shifted out and the rest is at most one half *)
      rewrite Hz in *. assert (He1 : e1 = (-1074)%Z) by lia.
      unfold shr_fexp. rewrite fexp_unfold. cbn [Zdigits2].
      replace (Z.max (0 + e1 - 53) (-1074) - e1)%Z with 0%Z by lia.
      cbn [shr shr_record_of_loc shr_m].
      apply rounds_zero. change (emin - 1)%Z with (-1074 - 1)%Z. rewrite <- He1.
      rewrite pow2_pred. change (inject_Z 0 + (1 # 2)) with (1 # 2) in Hhalf.
      pose proof (pow2_pos e1) as Hp. pose proof (undo_div x e1) as Hx.
      set (y := x / pow2 e1) in *. nra.
    + apply (renormalise_rounds x m1 m1 e1); try done; try lia.
  - apply (renormalise_rounds x m1 (m1 + 1) e1); try done; try lia.
    right. split; [done|]. by apply val_lt_div.
Qed.

End RoundAux.

(** *** Addition and subtraction *)

Section Operations.
#[local] Open Scope Q_scope.

Lemma pow2_nonzero e : ¬ pow2 e == 0.
Proof. intros H. pose proof (pow2_pos e). lra. Qed.

Lemma faithful_ext x x' m e : x == x' → faithful x m e → faithful x' m e.
Proof. intros Hx H mf ef Hb. rewrite <- Hx. by apply H. Qed.

Lemma rounds_ext x x' r : x == x' → rounds x r → rounds x' r.
Proof.
  intros Hx [H|m e Hb H|H].
  - apply rounds_zero. by rewrite <- Hx.
  - apply rounds_finite; [done|]. by apply (faithful_ext x).
  - apply rounds_inf. intros mf ef Hb. rewrite <- Hx. by apply H.
Qed.

Lemma iter_xO (m d : positive) : Zpos (Pos.iter xO m d) = (Zpos m * 2 ^ Zpos d)%Z.
Proof.
  induction d as [|d IH] using Pos.peano_ind.
  - simpl. lia.
  - rewrite Pos.iter_succ, Pos2Z.inj_xO, IH, Pos2Z.inj_succ, Z.pow_succ_r by lia. lia.
Qed.

(** shl_align brings the exponent down to [e'], when it is above. *)
Lemma shl_align_spec mx ex e' :
  (Zpos (fst (shl_align mx ex e')) = Zpos mx * 2 ^ (ex - Z.min ex e'))%Z ∧
  snd (shl_align mx ex e') = Z.min ex e'.
Proof.
  unfold shl_align. destruct (e' - ex)%Z as [|d|d] eqn:Hd; cbn [fst snd].
  - replace (Z.min ex e') with ex by lia. rewrite Z.sub_diag. lia.
  - replace (Z.min ex e') with ex by lia. rewrite Z.sub_diag. lia.
  - replace (Z.min ex e') with e' by lia. rewrite iter_xO.
    replace (ex - e')%Z with (Zpos d) by lia. done.
Qed.

Lemma shl_align_val mx ex e' :
  val (Zpos (fst (shl_align mx ex e'))) (snd (shl_align mx ex e')) == val (Zpos mx) ex.
Proof.
  destruct (shl_align_spec mx ex e') as [-> ->].
  rewrite val_shift by lia. by replace (Z.min ex e' + (ex - Z.min ex e'))%Z with ex by lia.
Qed.

(** binary_round rounds the number it is given. *)
Lemma binary_round_rounds (m : positive) e :
  rounds (val (Zpos m) e) (binary_round prec emax false m e).
Proof.
  unfold binary_round. rewrite fexp_unfold.
  set (t := (Zpos (digits2_pos m) + e)%Z).
  pose proof (shl_align_val m e (Z.max (t - 53) (-1074))) as Hval.
  destruct (shl_align_spec m e (Z.max (t - 53) (-1074))) as [_ Hexp].
  destruct (shl_align m e (Z.max (t - 53) (-1074))) as [mz ez].
  cbn [fst snd] in Hval, Hexp.
  destruct (val_mag m e) as [Hlo Hhi]. fold t in Hlo, Hhi.
  apply (rounds_ext (val (Zpos mz) ez)); [done|].
  apply (binary_round_aux_rounds _ t).
  - lia.
  - unfold loc_ok, val. field. apply pow2_nonzero.
  - by rewrite Hval.
  - rewrite Hval. pose proof (val_lt (Zpos m) (Zpos m + 1) e ltac:(lia)). lra.
  - lia.
Qed.

Lemma SFadd_rounds mx ex my ey :
  rounds (val (Zpos mx) ex + val (Zpos my) ey)
    (SFadd prec emax (S754_finite false mx ex) (S754_finite false my ey)).
Proof.
  unfold SFadd, cond_Zopp.
  pose proof (shl_align_val mx ex (Z.min ex ey)) as Hx.
  pose proof (shl_align_val my ey (Z.min ex ey)) as Hy.
  destruct (shl_align_spec mx ex (Z.min ex ey)) as [_ Hex].
  destruct (shl_align_spec my ey (Z.min ex ey)) as [_ Hey].
  rewrite Hex in Hx. rewrite Hey in Hy.
  replace (Z.min ex (Z.min ex ey)) with (Z.min ex ey) in Hx by lia.
  replace (Z.min ey (Z.min ex ey)) with (Z.min ex ey) in Hy by lia.
  set (ax := fst (shl_align mx ex (Z.min ex ey))) in *.
  set (ay := fst (shl_align my ey (Z.min ex ey))) in *.
  change (Zpos ax + Zpos ay)%Z with (Zpos (ax + ay)). cbn [binary_normalize].
  eapply rounds_ext; [|apply binary_round_rounds].
  rewrite <- Hx, <- Hy. unfold val. rewrite Pos2Z.inj_add, inject_Z_plus. ring.
Qed.

Lemma SFsub_rounds mx ex my ey :
  val (Zpos my) ey < val (Zpos mx) ex →
  rounds (val (Zpos mx) ex - val (Zpos my) ey)
    (SFsub prec emax (S754_finite false mx ex) (S754_finite false my ey)).
Proof.
  intros Hlt. unfold SFsub, cond_Zopp.
  pose proof (shl_align_val mx ex (Z.min ex ey)) as Hx.
  pose proof (shl_align_val my ey (Z.min ex ey)) as Hy.
  destruct (shl_align_spec mx ex (Z.min ex ey)) as [_ Hex].
  destruct (shl_align_spec my ey (Z.min ex ey)) as [_ Hey].
  rewrite Hex in Hx. rewrite Hey in Hy.
  replace (Z.min ex (Z.min ex ey)) with (Z.min ex ey) in Hx by lia.
  replace (Z.min ey (Z.min ex ey)) with (Z.min ex ey) in Hy by lia.
  set (ax := fst (shl_align mx ex (Z.min ex ey))) in *.
  set (ay := fst (shl_align my ey (Z.min ex ey))) in *.
  assert (Hpos : (Zpos ay < Zpos ax)%Z).
  { apply (val_lt_inv _ _ (Z.min ex ey)). by rewrite Hx, Hy. }
  destruct (Zpos ax - Zpos ay)%Z as [|d|d] eqn:Hd; [lia| |lia].
  cbn [binary_normalize].
  eapply rounds_ext; [|apply binary_round_rounds].
  rewrite <- Hx, <- Hy, <- Hd. unfold val. rewrite <- Z.add_opp_r, inject_Z_plus, inject_Z_opp.
  ring.
Qed.

End Operations.

(** *** Division *)

Section Division.
#[local] Open Scope Q_scope.

Lemma inject_Z_pos (p : positive) : 0 < inject_Z (Zpos p).
Proof. change 0 with (inject_Z 0). by rewrite <- Zlt_Qlt. Qed.

Lemma val_pos (m : positive) e : 0 < val (Zpos m) e.
Proof. unfold val. pose proof (inject_Z_pos m). pose proof (pow2_pos e). nra. Qed.

(** The location the division gives the remainder [r] of a division by
    [d]. *)
Lemma new_location_ok d r y q :
  (0 < d)%Z → (0 <= r < d)%Z →
  (y - inject_Z q) * inject_Z d == inject_Z r →
  loc_ok y q (new_location d r).
Proof.
  intros Hd [Hr0 Hrd] Hy.
  assert (HD : 0 < inject_Z d) by (change 0 with (inject_Z 0); by rewrite <- Zlt_Qlt).
  assert (HR0 : 0 <= inject_Z r) by (change 0 with (inject_Z 0); by rewrite <- Zle_Qle).
  assert (HRD : inject_Z r < inject_Z d) by by rewrite <- Zlt_Qlt.
  assert (Hzero : r = 0%Z → y == inject_Z q).
  { intros ->. change (inject_Z 0) with 0 in Hy. apply Qle_antisym; nra. }
  assert (Hpos : r ≠ 0%Z → inject_Z q < y).
  { intros Hne. assert (0 < inject_Z r)
      by (change 0 with (inject_Z 0); rewrite <- Zlt_Qlt; lia). nra. }
  assert (Hlt : (2 * r < d)%Z → y < inject_Z q + (1 # 2)).
  { intros H. rewrite Zlt_Qlt, inject_Z_mult in H.
    change (inject_Z 2) with 2 in H. nra. }
  assert (Hgt : (d < 2 * r)%Z → inject_Z q + (1 # 2) < y ∧ y < inject_Z q + 1).
  { intros H. rewrite Zlt_Qlt, inject_Z_mult in H.
    change (inject_Z 2) with 2 in H. split; nra. }
  assert (Heq : (2 * r = d)%Z → y == inject_Z q + (1 # 2)).
  { intros H. assert (H' : 2 * inject_Z r == inject_Z d).
    { rewrite <- H, inject_Z_mult. reflexivity. }
    apply Qle_antisym; nra. }
  unfold new_location. destruct (Z.even d) eqn:Hev.
  - unfold new_location_even. destruct (Z.eqb_spec r 0) as [Hz|Hnz]; [by apply Hzero|].
    destruct (Z.compare_spec (2 * r) d) as [H|H|H]; unfold loc_ok; auto.
  - unfold new_location_odd. destruct (Z.eqb_spec r 0) as [Hz|Hnz]; [by apply Hzero|].
    assert (Hodd : Z.odd d = true) by (rewrite <- Z.negb_even, Hev; done).
    apply Z.odd_spec in Hodd as [k Hk].
    destruct (Z.compare_spec (2 * r + 1) d) as [H|H|H]; unfold loc_ok.
    + split; [auto | apply Hlt; lia].
    + split; [auto | apply Hlt; lia].
    + apply Hgt. lia.
Qed.

Lemma SFdiv_rounds mx ex my ey :
  rounds (val (Zpos mx) ex / val (Zpos my) ey)
    (SFdiv prec emax (S754_finite false mx ex) (S754_finite false my ey)).
Proof.
  unfold SFdiv, SFdiv_core_binary. cbn [xorb Zdigits2]. rewrite fexp_unfold.
  set (d1 := Zpos (digits2_pos mx)). set (d2 := Zpos (digits2_pos my)).
  set (td := (d1 + ex - (d2 + ey))%Z).
  set (e' := Z.min (Z.max (td - 53) (-1074)) (ex - ey)).
  set (s := (ex - ey - e')%Z).
  assert (Hs : (0 <= s)%Z) by lia.
  set (m' := match s with Zpos _ => Z.shiftl (Zpos mx) s | Z0 => Zpos mx | Zneg _ => Z0 end).
  assert (Hm' : m' = (Zpos mx * 2 ^ s)%Z).
  { unfold m'. destruct s as [|p|p] eqn:Hp; [lia | | lia].
    by rewrite Z.shiftl_mul_pow2. }
  pose proof (Z_div_mod m' (Zpos my) ltac:(lia)) as Hdiv.
  destruct (Z.div_eucl m' (Zpos my)) as [q r]. destruct Hdiv as [Hdiv Hr].
  set (x := val (Zpos mx) ex / val (Zpos my) ey).
  pose proof (val_pos mx ex) as Hvx. pose proof (val_pos my ey) as Hvy.
  destruct (val_mag mx ex) as [Hx1 Hx2]. destruct (val_mag my ey) as [Hy1 Hy2].
  fold d1 in Hx1, Hx2. fold d2 in Hy1, Hy2.
  pose proof (val_lt (Zpos mx) (Zpos mx + 1) ex ltac:(lia)) as Hx3.
  pose proof (val_lt (Zpos my) (Zpos my + 1) ey ltac:(lia)) as Hy3.
  assert (Hxy : x * val (Zpos my) ey == val (Zpos mx) ex) by (unfold x; field; lra).
  assert (Hlo : pow2 (td - 1) < x).
  { assert (Hp : pow2 (d1 + ex - 1) == pow2 (td - 1) * pow2 (d2 + ey)).
    { rewrite <- pow2_add. by replace (td - 1 + (d2 + ey))%Z with (d1 + ex - 1)%Z by lia. }
    pose proof (pow2_pos (td - 1)). nra. }
  assert (Hhi : x < pow2 (td + 1)).
  { assert (Hp : pow2 (d1 + ex) == pow2 (td + 1) * pow2 (d2 + ey - 1)).
    { rewrite <- pow2_add. by replace (td + 1 + (d2 + ey - 1))%Z with (d1 + ex)%Z by lia. }
    pose proof (pow2_pos (td + 1)). pose proof (pow2_pos (d2 + ey - 1)). nra. }
  assert (Hq : (0 <= q)%Z) by nia.
  assert (Hloc : loc_ok (x / pow2 e') q (new_location (Zpos my) r)).
  { apply new_location_ok; [lia | done |].
    assert (Hp : pow2 ex == pow2 ey * pow2 e' * pow2 s).
    { rewrite <- !pow2_add. by replace (ey + e' + s)%Z with ex by lia. }
    assert (Hm : inject_Z (Zpos mx) * pow2 s == inject_Z (Zpos my) * inject_Z q + inject_Z r).
    { rewrite (pow2_Z s Hs), <- !inject_Z_mult, <- inject_Z_plus, <- Hdiv, Hm'. reflexivity. }
    pose proof (pow2_pos e'). pose proof (pow2_pos ey). pose proof (pow2_pos s).
    pose proof (inject_Z_pos my).
    unfold x, val. rewrite Hp.
    transitivity ((inject_Z (Zpos mx) * pow2 s) - inject_Z (Zpos my) * inject_Z q).
    - field. split; [|split]; lra.
    - rewrite Hm. ring. }
  destruct (Qlt_le_dec x (pow2 td)) as [Hc|Hc].
  - apply (binary_round_aux_rounds x td); try done; [lra | lia].
  - apply (binary_round_aux_rounds x (td + 1)); try done; [|lia].
    by replace (td + 1 - 1)%Z with td by lia.
Qed.

End Division.

(** *** The penalty in binary64 *)

Section Double.
#[local] Open Scope Q_scope.

Lemma Prim2SF_zero : Prim2SF 0 = S754_zero false.
Proof. reflexivity. Qed.

Lemma Prim2SF_one : Prim2SF 1 = S754_finite false 4503599627370496 (-52).
Proof. reflexivity. Qed.

Lemma val_one : val (Zpos 4503599627370496) (-52) == 1.
Proof. reflexivity. Qed.

Lemma val_two : val (Zpos 4503599627370496) (-51) == 2.
Proof. reflexivity. Qed.

Lemma val_three_halves : val (Zpos 6755399441055744) (-52) == 3 # 2.
Proof. reflexivity. Qed.

Lemma pow2_emin : pow2 (-1074) == 2 * pow2 (emin - 1).
Proof. change (emin - 1)%Z with (-1074 - 1)%Z. rewrite pow2_pred. ring. Qed.

Lemma pow2_emin_small : pow2 (-1074) < 1 # 8.
Proof. change (1 # 8) with (pow2 (-3)). by apply pow2_lt. Qed.

Lemma val_least m e : bounded prec emax m e = true → pow2 (-1074) <= val (Zpos m) e.
Proof.
  intros (He & _ & _)%bounded_range.
  apply (Qle_trans _ (val 1 e)); [rewrite val_1; apply pow2_le; lia | apply val_le; lia].
Qed.

(** A double that is greater than 0 and at most 1. *)
Lemma positive_double (w : float) :
  (0 <? w)%float = true → (w <=? 1)%float = true →
  ∃ m e, Prim2SF w = S754_finite false m e ∧ bounded prec emax m e = true ∧
         val (Zpos m) e <= 1.
Proof.
  rewrite ltb_spec, leb_spec, Prim2SF_zero, Prim2SF_one.
  pose proof (Prim2SF_valid w) as Hv.
  destruct (Prim2SF w) as [s|s| |s m e]; try done.
  - by destruct s.
  - destruct s; [done|]. intros _ Hle. exists m, e. split; [done|]. split; [done|].
    rewrite <- val_one. by apply SFleb_val.
Qed.

(** The penalty on a weight in (0,1], in binary64: the new weight is
    greater than 0 and not greater than the old one. *)
Lemma penalized_double (w : float) :
  (0 <? w)%float = true → (w <=? 1)%float = true →
  (0 <? w / (w + 1))%float = true ∧
  (w / (w + 1) <=? w)%float = true ∧
  (w / (w + 1) <=? 1)%float = true.
Proof.
  intros H0 H1. destruct (positive_double w H0 H1) as (m & e & Hw & Hb & Hle).
  rewrite ltb_spec, !leb_spec, div_spec, add_spec, Prim2SF_zero, Prim2SF_one, Hw.
  pose proof (val_pos m e) as Hpos. pose proof (val_least m e Hb) as Hleast.
  pose proof pow2_emin as Hmin. pose proof pow2_emin_small as Hsmall.
  pose proof (pow2_pos (emin - 1)) as Hminpos.
  assert (Hone : bounded prec emax 4503599627370496 (-52) = true) by reflexivity.
  assert (Htwo : bounded prec emax 4503599627370496 (-51) = true) by reflexivity.
  assert (Hhalf : bounded prec emax 6755399441055744 (-52) = true) by reflexivity.
  pose proof (SFadd_rounds m e 4503599627370496 (-52)) as Hs.
  apply (rounds_ext _ (val (Zpos m) e + 1)) in Hs; [|by rewrite val_one].
  unfold SF64div, SF64add.
  destruct Hs as [Hs|ms es Hbs Hs|Hs].
  - exfalso. lra.
  - destruct (Hs _ _ Hone) as [Hs1 _]. destruct (Hs _ _ Htwo) as [_ Hs2].
    destruct (Hs _ _ Hhalf) as [_ Hs3].
    rewrite val_one in Hs1. rewrite val_two in Hs2. rewrite val_three_halves in Hs3.
    assert (Hge : 1 <= val (Zpos ms) es) by (apply Hs1; lra).
    assert (Hle2 : val (Zpos ms) es <= 2) by (apply Hs2; lra).
    set (x := val (Zpos m) e / val (Zpos ms) es).
    assert (Hx : x * val (Zpos ms) es == val (Zpos m) e) by (unfold x; field; lra).
    assert (Hxle : x <= val (Zpos m) e) by nra.
    assert (Hxpos : pow2 (emin - 1) < x).
    { destruct (Qlt_le_dec (1 # 2) (val (Zpos m) e)) as [Hbig|Hsm].
      - nra.
      - assert (val (Zpos ms) es <= 3 # 2) by (apply Hs3; lra). nra. }
    pose proof (SFdiv_rounds m e ms es) as Hq. fold x in Hq.
    destruct Hq as [Hq|mq eq Hbq Hq|Hq].
    + exfalso. lra.
    + destruct (Hq _ _ Hb) as [_ Hq1]. specialize (Hq1 Hxle).
      split; [done|]. split; [by apply SFleb_val|].
      apply SFleb_val; [done..|]. rewrite val_one. lra.
    + exfalso. specialize (Hq _ _ Hb). lra.
  - exfalso. specialize (Hs _ _ Htwo). rewrite val_two in Hs. lra.
Qed.

End Double.

(** *** The reward in binary64 *)

Section Reward.
#[local] Open Scope Q_scope.

Lemma ltb_leb (a b : float) : (a <? b)%float = true → (a <=? b)%float = true.
Proof.
  rewrite ltb_spec, leb_spec. unfold SFltb, SFleb.
  by destruct (SFcompare (Prim2SF a) (Prim2SF b)) as [[]|].
Qed.

(** The quotient w / (1 - w) on a weight in [0,1), in binary64. *)
Lemma rewarded_quotient (w : float) :
  (0 <=? w)%float = true → (w <? 1)%float = true →
  let n := (w / (1 - w))%float in
  (w <=? n)%float = true ∧ (0 <=? n)%float = true ∧
  ((1 <? n)%float = false → (n <=? 1)%float = true) ∧
  ((0 <? w)%float = true → (0 <? n)%float = true).
Proof.
  intros H0 H1 n. subst n. revert H0 H1.
  rewrite !ltb_spec, !leb_spec, div_spec, sub_spec, Prim2SF_zero, Prim2SF_one.
  pose proof (Prim2SF_valid w) as Hb.
  assert (Hone : bounded prec emax 4503599627370496 (-52) = true) by reflexivity.
  unfold SF64div, SF64sub.
  destruct (Prim2SF w) as [s|s| |s m e] eqn:Hw; try done.
  - by destruct s.
  - destruct s; [done|]. intros _ Hlt. simpl in Hb.
    apply SFltb_val in Hlt; [|done..]. rewrite val_one in Hlt.
    pose proof (val_pos m e) as Hpos. pose proof (val_least m e Hb) as Hleast.
    pose proof pow2_emin as Hmin. pose proof (pow2_pos (emin - 1)) as Hminpos.
    pose proof (SFsub_rounds 4503599627370496 (-52) m e) as Hd.
    specialize (Hd ltac:(rewrite val_one; exact Hlt)).
    apply (rounds_ext _ (1 - val (Zpos m) e)) in Hd; [|by rewrite val_one].
    destruct Hd as [Hd|md ed Hbd Hd|Hd].
    + (* the difference is rounded to zero: the quotient is infinite *)
      cbn [SFdiv xorb]. done.
    + destruct (Hd _ _ Hone) as [_ Hd1]. rewrite val_one in Hd1.
      assert (Hdle : val (Zpos md) ed <= 1) by (apply Hd1; lra).
      pose proof (val_pos md ed) as Hdpos.
      set (x := val (Zpos m) e / val (Zpos md) ed).
      assert (Hx : x * val (Zpos md) ed == val (Zpos m) e) by (unfold x; field; lra).
      assert (Hxge : val (Zpos m) e <= x) by nra.
      pose proof (SFdiv_rounds m e md ed) as Hq. fold x in Hq.
      destruct Hq as [Hq|mq eq Hbq Hq|Hq].
      * exfalso. lra.
      * destruct (Hq _ _ Hb) as [Hq1 _]. specialize (Hq1 Hxge).
        split; [by apply SFleb_val|]. split; [done|]. split; [|done].
        intros Hclamp. apply SFleb_val; [done..|].
        destruct (Qlt_le_dec (val (Zpos 4503599627370496) (-52)) (val (Zpos mq) eq))
          as [Hgt|]; [|done].
        apply SFltb_val in Hgt; [|done..]. congruence.
      * done.
    + exfalso. specialize (Hd _ _ Hone). rewrite val_one in Hd. lra.
Qed.

(** The reward on a weight in [0,1) in binary64: the quotient w / (1 - w),
    clamped at 1, is not less than the weight and at most 1. *)
Lemma rewarded_double (w : float) :
  (0 <=? w)%float = true → (w <? 1)%float = true →
  let n := (w / (1 - w))%float in
  let w' := if (1 <? n)%float then 1%float else n in
  (w <=? w')%float = true ∧ (w' <=? 1)%float = true ∧ (0 <=? w')%float = true ∧
  ((0 <? w)%float = true → (0 <? w')%float = true).
Proof.
  intros H0 H1 n w'. destruct (rewarded_quotient w H0 H1) as (Hge & Hpos & Hle & Hlt).
  fold n in Hge, Hpos, Hle, Hlt. subst w'.
  destruct (1 <? n)%float eqn:Hc.
  - split; [by apply ltb_leb|]. done.
  - split; [done|]. split; [by apply Hle|]. done.
Qed.

End Reward.

(** ** Distances *)

Lemma Qltb_lt (x y : Q) : Qltb x y = true ↔ (x < y)%Q.
Proof.
  unfold Qltb. rewrite negb_true_iff, <- not_true_iff_false, Qle_bool_iff.
  split; [apply Qnot_le_lt | apply Qlt_not_le].
Qed.

Lemma Qltb_ge (x y : Q) : Qltb x y = false ↔ (y <= x)%Q.
Proof.
  unfold Qltb. rewrite negb_false_iff. apply Qle_bool_iff.
Qed.

(** ** The monad *)

Section MonadFacts.
Import Ompl.
Context {State Callback : Type}.
#[local] Abbreviation M := (@Ompl.M State Callback).
#[local] Abbreviation frames := (Ompl.frames (State := State) (Callback := Callback)).

Lemma bind_assoc {O A B C} (m : M O A) (k : A → M O B) (k' : B → M O C) (o : O) :
  bind (bind m k) k' o = bind m (λ a, bind (k a) k') o.
Proof.
  unfold bind. destruct (m o) as [[[a| |] o1] t1]; try done.
  destruct (k a o1) as [[[b| |] o2] t2]; try done.
  destruct (k' b o2) as [[r o3] t3]. by rewrite app_assoc.
Qed.

Lemma bind_Return {O A B} (m : M O A) (k : A → M O B) (o o1 : O) (a : A) t1 :
  m o = (Return a, o1, t1) →
  bind m k o = (outcome (k a o1), final (k a o1), t1 ++ trace (k a o1)).
Proof.
  intros H. unfold bind. rewrite H. by destruct (k a o1) as [[r o2] t2].
Qed.

Lemma outcome_triple {O A} (r : result A) (o : O) (t : list (@event State Callback)) :
  outcome (r, o, t) = r.
Proof. reflexivity. Qed.

Lemma final_triple {O A} (r : result A) (o : O) (t : list (@event State Callback)) :
  final (r, o, t) = o.
Proof. reflexivity. Qed.

Lemma bind_ext {O A B} (m : M O A) (k k' : A → M O B) (o : O) :
  (∀ a o1, k a o1 = k' a o1) → bind m k o = bind m k' o.
Proof.
  intros H. unfold bind. destruct (m o) as [[[a| |] o1] t1]; try done. by rewrite H.
Qed.

Lemma calls_S {O} (n : nat) (m : M O unit) (o : O) :
  calls (S n) m o = bind (calls n m) (λ _, m) o.
Proof. reflexivity. Qed.

Lemma final_bind {O A B} (m : M O A) (k : A → M O B) (o : O) :
  final (bind m k o)
  = match outcome (m o) with
    | Return a => final (k a (final (m o)))
    | _ => final (m o)
    end.
Proof.
  unfold bind, final, outcome. destruct (m o) as [[[a| |] o1] t1]; try done.
  simpl. by destruct (k a o1) as [[r o2] t2].
Qed.

Lemma outcome_bind {O A B} (m : M O A) (k : A → M O B) (o : O) :
  outcome (bind m k o)
  = match outcome (m o) with
    | Return a => outcome (k a (final (m o)))
    | Throw e => Throw e
    | Undefined => Undefined
    end.
Proof.
  unfold bind, final, outcome. destruct (m o) as [[[a| |] o1] t1]; try done.
  simpl. by destruct (k a o1) as [[r o2] t2].
Qed.

Lemma trace_bind {O A B} (m : M O A) (k : A → M O B) (o : O) :
  trace (bind m k o)
  = match outcome (m o) with
    | Return a => trace (m o) ++ trace (k a (final (m o)))
    | _ => trace (m o)
    end.
Proof.
  unfold bind, final, outcome, trace. destruct (m o) as [[[a| |] o1] t1]; try done.
  simpl. by destruct (k a o1) as [[r o2] t2].
Qed.

Lemma frames_bind {O A B} (R : O → O → Prop) (m : M O A) (k : A → M O B) :
  Transitive R → frames R m → (∀ a, frames R (k a)) → frames R (bind m k).
Proof.
  intros Ht Hm Hk o. rewrite final_bind. specialize (Hm o).
  destruct (outcome (m o)); [|done..]. etrans; [exact Hm | apply Hk].
Qed.

Lemma frames_gets {O A B} (R : O → O → Prop) (f : O → A) (k : A → M O B) :
  (∀ o, R o (final (k (f o) o))) → frames R (bind (gets f) k).
Proof. intros Hk o. rewrite final_bind. apply Hk. Qed.

Lemma frames_ret {O A} (R : O → O → Prop) (a : A) : Reflexive R → frames R (ret a).
Proof. intros Hr o. apply Hr. Qed.

Lemma frames_just_gets {O A} (R : O → O → Prop) (f : O → A) :
  Reflexive R → frames R (gets f).
Proof. intros Hr o. apply Hr. Qed.

Lemma frames_tell {O} (R : O → O → Prop) (e : event) :
  Reflexive R → frames R (tell e : M O unit).
Proof. intros Hr o. apply Hr. Qed.

Lemma frames_throw {O A} (R : O → O → Prop) (e : exception) :
  Reflexive R → frames R (throw e : M O A).
Proof. intros Hr o. apply Hr. Qed.

Lemma frames_undefined {O A} (R : O → O → Prop) :
  Reflexive R → frames R (undefined : M O A).
Proof. intros Hr o. apply Hr. Qed.

Lemma frames_modify {O} (R : O → O → Prop) (f : O → O) :
  (∀ o, R o (f o)) → frames R (modify f).
Proof. intros Hf o. apply Hf. Qed.

Lemma frames_lock_guard {O A} (R : O → O → Prop) (m : M O A) :
  frames R m → frames R (lock_guard m).
Proof.
  intros Hm o. specialize (Hm o). unfold lock_guard, final in *.
  by destruct (m o) as [[r o1] t1].
Qed.

Lemma frames_zoom {O P A} (R : O → O → Prop) (get : O → P) (set : P → O → O)
    (m : M P A) :
  (∀ p o, R o (set p o)) → frames R (zoom get set m).
Proof.
  intros Hs o. unfold zoom, final. destruct (m (get o)) as [[r p] t]. apply Hs.
Qed.

End MonadFacts.

(** ** The binary heap *)

Section HeapFacts.
Import Ompl.
Context {State : Type}.
#[local] Abbreviation Element := (@Element State).
#[local] Abbreviation BinaryHeap := (@BinaryHeap State).
#[local] Abbreviation WeightedGoal := (@WeightedGoal State).
Implicit Types (v : list Element) (q : BinaryHeap) (e : Element) (h : Handle).

Lemma insert_head_perm v (j : nat) (a b : Element) :
  v !! j = Some b → b :: <[j := a]> v ≡ₚ a :: v.
Proof.
  revert j. induction v as [|x v IH]; intros [|j] Hj; simplify_eq/=.
  - apply perm_swap.
  - rewrite (perm_swap x b), (IH j Hj). apply perm_swap.
Qed.

Lemma swap_perm v (i j : nat) : swap v i j ≡ₚ v.
Proof.
  unfold swap.
  destruct (v !! i) as [a|] eqn:Hi; [|done].
  destruct (v !! j) as [b|] eqn:Hj; [|done].
  revert i j Hi Hj. induction v as [|x v IH]; intros [|i] [|j] Hi Hj; simplify_eq/=.
  - done.
  - by apply insert_head_perm.
  - symmetry. rewrite <- (insert_head_perm v i b a Hi). done.
  - by rewrite IH.
Qed.

Lemma percolateUp_perm fuel cmp v (pos : nat) : percolateUp fuel cmp v pos ≡ₚ v.
Proof.
  revert v pos. induction fuel as [|fuel IH]; intros v [|c]; simpl; try done.
  repeat case_match; try done.
  rewrite IH. apply swap_perm.
Qed.

Lemma percolateDown_perm fuel cmp v (pos : nat) : percolateDown fuel cmp v pos ≡ₚ v.
Proof.
  revert v pos. induction fuel as [|fuel IH]; intros v pos; [done|].
  cbn [percolateDown].
  repeat case_match; try done; try apply swap_perm;
    rewrite IH; apply swap_perm.
Qed.

Lemma find_element_Some h v (i : nat) e :
  find_element h v = Some (i, e) → v !! i = Some e ∧ address e = h.
Proof.
  revert i. induction v as [|x v IH]; intros i H; simpl in H; [done|].
  destruct (Nat.eqb_spec (address x) h).
  - by simplify_eq.
  - destruct (find_element h v) as [[j y]|]; simplify_eq/=. by apply IH.
Qed.

Lemma find_element_None h v :
  find_element h v = None ↔ h ∉ address <$> v.
Proof.
  induction v as [|x v IH]; simpl.
  - split; [intros _; apply not_elem_of_nil | done].
  - rewrite not_elem_of_cons. destruct (Nat.eqb_spec (address x) h).
    + split; [done | intros [? _]; congruence].
    + destruct (find_element h v) as [[j y]|].
      * split; [done | intros [_ H]; by apply IH in H].
      * split; [intros _; split; [congruence | by apply IH] | done].
  Qed.

Lemma find_element_elem h v e :
  NoDup (address <$> v) → e ∈ v → address e = h →
  ∃ i, find_element h v = Some (i, e).
Proof.
  induction v as [|x v IH]; intros Hnd He Ha; [by apply elem_of_nil in He|].
  simpl in *. apply NoDup_cons in Hnd as [Hx Hnd].
  apply elem_of_cons in He as [->|He].
  - rewrite <- Ha, Nat.eqb_refl. eauto.
  - destruct (Nat.eqb_spec (address x) h) as [Heq|_].
    + exfalso. apply Hx. rewrite Heq, <- Ha. by apply list_elem_of_fmap_2.
    + destruct (IH Hnd He Ha) as [i ->]. eauto.
Qed.

(** Under distinct addresses, what a handle points to does not depend on
    the order of the vector. *)
Lemma find_element_perm h v v' (i : nat) e :
  NoDup (address <$> v) → v ≡ₚ v' → find_element h v = Some (i, e) →
  ∃ j, find_element h v' = Some (j, e).
Proof.
  intros Hnd Hp H. apply find_element_Some in H as [Hi Ha].
  apply find_element_elem; [by rewrite <- Hp | | done].
  rewrite <- Hp. by eapply list_elem_of_lookup_2.
Qed.

Lemma weight_at_perm q q' h :
  NoDup (address <$> vector_ q) → vector_ q ≡ₚ vector_ q' →
  weight_at q' h = weight_at q h.
Proof.
  intros Hnd Hp. unfold weight_at.
  destruct (find_element h (vector_ q)) as [[i e]|] eqn:H.
  - destruct (find_element_perm _ _ _ _ _ Hnd Hp H) as [j ->]. done.
  - apply find_element_None in H. rewrite Hp in H.
    apply find_element_None in H. by rewrite H.
Qed.

Lemma address_reweigh h w e : address (reweigh h w e) = address e.
Proof. unfold reweigh. by case_match. Qed.

Lemma back_pointer_reweigh h w e :
  heap_element_ (data (reweigh h w e)) = heap_element_ (data e).
Proof. unfold reweigh. by case_match. Qed.

Lemma addresses_reweigh h w v : address <$> (reweigh h w <$> v) = address <$> v.
Proof.
  rewrite <- list_fmap_compose. apply list_fmap_ext. intros ? e _. apply address_reweigh.
Qed.

Lemma alter_reweigh h w v (pos : nat) e :
  NoDup (address <$> v) → find_element h v = Some (pos, e) →
  alter (set_data_weight w) pos v = reweigh h w <$> v.
Proof.
  revert pos. induction v as [|x v IH]; intros pos Hnd H; [done|].
  simpl in *. apply NoDup_cons in Hnd as [Hx Hnd]. unfold reweigh at 1.
  destruct (Nat.eqb_spec (address x) h) as [Heq|Hne].
  - simplify_eq/=. f_equal. symmetry.
    rewrite <- (list_fmap_id v) at 2. apply list_fmap_ext. intros i y Hy.
    unfold reweigh. destruct (Nat.eqb_spec (address y) (address e)) as [Heq|]; [|done].
    exfalso. apply Hx. rewrite <- Heq. apply list_elem_of_fmap_2.
    by eapply list_elem_of_lookup_2.
  - destruct (find_element h v) as [[j y]|] eqn:Hf; simplify_eq/=.
    f_equal. by eapply IH.
Qed.

Lemma wf_heap_perm q q' :
  vector_ q' ≡ₚ vector_ q → wf_heap q → wf_heap q'.
Proof.
  intros Hp [Hnd Hself]. split; by rewrite Hp.
Qed.

Lemma wf_heap_reweigh h w q v' :
  v' ≡ₚ reweigh h w <$> vector_ q → wf_heap q → wf_heap (set_vector v' q).
Proof.
  intros Hp [Hnd Hself]. split; simpl; rewrite Hp.
  - by rewrite addresses_reweigh.
  - apply Forall_fmap. eapply Forall_impl; [exact Hself|].
    intros e He. simpl. by rewrite back_pointer_reweigh, address_reweigh.
Qed.

(** The assignment of a weight through a handle followed by update(): the
    vector is rearranged, the element pointed to has the new weight, every
    other element is as before. *)
Lemma assign_update h w q (pos : nat) e :
  wf_heap q → find_element h (vector_ q) = Some (pos, e) →
  ∃ q1 q2,
    assign_weight h w q = Some q1 ∧ BinaryHeap_update h q1 = Some q2 ∧
    lt_ q2 = lt_ q ∧ wf_heap q2 ∧
    vector_ q2 ≡ₚ reweigh h w <$> vector_ q.
Proof.
  intros Hwf Hf. pose proof Hwf as [Hnd _].
  assert (He : reweigh h w e ∈ reweigh h w <$> vector_ q).
  { apply list_elem_of_fmap_2. apply find_element_Some in Hf as [Hf _].
    by eapply list_elem_of_lookup_2. }
  destruct (find_element_elem h _ _ (eq_ind_r (λ l, NoDup l) Hnd (addresses_reweigh h w _)) He)
    as [i Hi].
  { rewrite address_reweigh. by apply find_element_Some in Hf as [_ ?]. }
  unfold assign_weight. rewrite Hf. eexists _, _. split; [reflexivity|].
  rewrite (alter_reweigh h w _ pos e Hnd Hf).
  unfold BinaryHeap_update. simpl. rewrite Hi. split; [reflexivity|]. simpl.
  assert (Hp : percolateDown (length (reweigh h w <$> vector_ q)) (lt_ q)
                 (percolateUp (length (reweigh h w <$> vector_ q)) (lt_ q)
                    (reweigh h w <$> vector_ q) i) i
               ≡ₚ reweigh h w <$> vector_ q).
  { by rewrite percolateDown_perm, percolateUp_perm. }
  split; [done|]. split; [|exact Hp].
  eapply (wf_heap_reweigh h w q); [exact Hp | exact Hwf].
Qed.

Lemma weight_at_reweigh h w q q2 (pos : nat) e :
  wf_heap q → find_element h (vector_ q) = Some (pos, e) →
  vector_ q2 ≡ₚ reweigh h w <$> vector_ q →
  weight_at q2 h = Some w.
Proof.
  intros [Hnd _] Hf Hp.
  assert (Hnd' : NoDup (address <$> (reweigh h w <$> vector_ q)))
    by by rewrite addresses_reweigh.
  rewrite (weight_at_perm (set_vector (reweigh h w <$> vector_ q) q) q2 h Hnd');
    [|by symmetry].
  unfold weight_at. simpl.
  destruct (find_element_elem h (reweigh h w <$> vector_ q) (reweigh h w e) Hnd')
    as [i ->].
  - apply list_elem_of_fmap_2. apply find_element_Some in Hf as [Hf _].
    by eapply list_elem_of_lookup_2.
  - rewrite address_reweigh. by apply find_element_Some in Hf as [_ ?].
  - apply find_element_Some in Hf as [_ Ha]. unfold reweigh.
    rewrite <- Ha, Nat.eqb_refl. done.
Qed.

End HeapFacts.

(** ** Weighted goal selection in weighted_goal_region_samples.cpp *)

Section SelectionFacts.
Import Ompl Samples.
Context {State Callback : Type}.
#[local] Abbreviation Obj := (@WeightedGoalRegionSamples State Callback).
#[local] Abbreviation WeightedGoal := (@Ompl.WeightedGoal State).
#[local] Abbreviation BinaryHeap := (@Ompl.BinaryHeap State).
#[local] Abbreviation event := (@Ompl.event State Callback).
Implicit Types (o : Obj) (q : BinaryHeap) (h : Handle) (t : list event).

Ltac monad :=
  unfold penalizeWeightedGoal, rewardWeightedGoal, sampleWeightedGoal,
    sampleConsecutiveGoal, queue_read, queue_write, GoalStates_, zoom,
    lock_guard, bind, ret, gets, modify, tell, throw, undefined; simpl.

Lemma set_queue_same o : set_goals_priority_queue (goals_priority_queue_ o) o = o.
Proof. by destruct o. Qed.

(** One turn of the loop of the region reset. *)
Lemma reset_one h o (pos : nat) e :
  wf_heap (goals_priority_queue_ o) →
  find_element h (vector_ (goals_priority_queue_ o)) = Some (pos, e) →
  ∃ q',
    (do queue_write (assign_weight h 0.5%float); queue_write (BinaryHeap_update h)) o
    = (Return tt, set_goals_priority_queue q' o,
       [Access WeightQueue true; Access WeightQueue true]) ∧
    wf_heap q' ∧ lt_ q' = lt_ (goals_priority_queue_ o) ∧
    vector_ q' ≡ₚ reweigh h 0.5%float <$> vector_ (goals_priority_queue_ o).
Proof.
  intros Hwf Hf.
  destruct (assign_update h 0.5%float _ pos e Hwf Hf) as (q1 & q2 & H1 & H2 & Hlt & Hwf2 & Hp).
  exists q2. monad. rewrite H1. simpl. rewrite H2. done.
Qed.

Lemma reset_weights_spec (existing : list WeightedGoal) o :
  wf_heap (goals_priority_queue_ o) →
  Forall (λ g, ∃ h, heap_element_ g = Some h
                    ∧ h ∈ address <$> vector_ (goals_priority_queue_ o)) existing →
  ∃ q' t,
    reset_weights existing o = (Return tt, set_goals_priority_queue q' o, t) ∧
    wf_heap q' ∧ lt_ q' = lt_ (goals_priority_queue_ o) ∧
    address <$> vector_ q' ≡ₚ address <$> vector_ (goals_priority_queue_ o) ∧
    Forall (λ ev, ev = Access WeightQueue true) t ∧
    Forall (λ e', weight_ (data e') = 0.5%float
                  ∨ ((heap_element_ (data e') ∉ heap_element_ <$> existing)
                     ∧ e' ∈ vector_ (goals_priority_queue_ o))) (vector_ q').
Proof.
  revert o. induction existing as [|g rest IH]; intros o Hwf Hex.
  - exists (goals_priority_queue_ o), []. rewrite set_queue_same.
    do 5 (split; [done|]).
    apply Forall_forall. intros e' He'. right. split; [apply not_elem_of_nil | done].
  - apply Forall_cons in Hex as [(h & Hh & Hin) Hex].
    destruct (find_element h (vector_ (goals_priority_queue_ o))) as [[pos e]|] eqn:Hf;
      [|by apply find_element_None in Hf].
    destruct (reset_one h o pos e Hwf Hf) as (q1 & Hrun & Hwf1 & Hlt1 & Hp1).
    destruct (IH (set_goals_priority_queue q1 o)) as (q' & t & Hrest & Hwf' & Hlt' & Hp' & Ht & Hall).
    { done. }
    { simpl. eapply Forall_impl; [exact Hex|]. intros g' (h' & ? & ?).
      exists h'. split; [done|]. by rewrite Hp1, addresses_reweigh. }
    exists q', ([Access WeightQueue true; Access WeightQueue true] ++ t).
    split.
    { simpl. rewrite Hh.
      rewrite <- (bind_assoc _ (λ _, queue_write (BinaryHeap_update h))
                    (λ _, reset_weights rest)).
      by rewrite (bind_Return _ _ _ _ _ _ Hrun), Hrest. }
    split; [done|]. split; [by rewrite Hlt'|].
    split; [by rewrite Hp', Hp1, addresses_reweigh|].
    split; [by repeat constructor|].
    eapply Forall_impl; [exact Hall|]. simpl. intros e' [Hw|[Hnot Hin']]; [by left|].
    rewrite Hp1 in Hin'. apply list_elem_of_fmap in Hin' as (e0 & -> & He0).
    unfold reweigh in *. destruct (Nat.eqb_spec (address e0) h) as [Ha|Ha].
    + by left.
    + right. split; [|done]. rewrite not_elem_of_cons. split; [|done].
      destruct Hwf as [_ Hself]. rewrite Forall_forall in Hself.
      rewrite (Hself e0 He0), Hh. congruence.
Qed.

Lemma content_handles q :
  wf_heap q →
  Forall (λ g : WeightedGoal, ∃ h, heap_element_ g = Some h ∧ h ∈ address <$> vector_ q)
    (BinaryHeap_getContent q).
Proof.
  intros [_ Hself]. unfold BinaryHeap_getContent. apply Forall_fmap.
  rewrite Forall_forall in *. intros e He. exists (address e).
  split; [by apply Hself | by apply list_elem_of_fmap_2].
Qed.

(** penalizeWeightedGoal on a handle into a well-formed queue: the call
    returns; either the region is reset, or the goal alone is reweighed. *)
Lemma penalize_spec (wg : WeightedGoal) o h (pos : nat) e :
  wf_heap (goals_priority_queue_ o) →
  heap_element_ wg = Some h →
  find_element h (vector_ (goals_priority_queue_ o)) = Some (pos, e) →
  ∃ q' t,
    wf_heap q' ∧ lt_ q' = lt_ (goals_priority_queue_ o) ∧
    address <$> vector_ q' ≡ₚ address <$> vector_ (goals_priority_queue_ o) ∧
    Forall (λ ev, is_acquire ev = false) t ∧
    if (weight_ (data e) <? 0.2)%float && negb (sample_goals_ o) then
      penalizeWeightedGoal wg o
      = (Return tt,
         set_max_sampled_goals (uint (max_sampled_goals_ o + 10))
           (set_sample_goals true (set_goals_priority_queue q' o)), t) ∧
      Forall (λ e', weight_ (data e') = 0.5%float) (vector_ q')
    else
      penalizeWeightedGoal wg o = (Return tt, set_goals_priority_queue q' o, t) ∧
      vector_ q' ≡ₚ
        reweigh h (weight_ (data e) / (weight_ (data e) + 1))%float <$>
          vector_ (goals_priority_queue_ o).
Proof.
  intros Hwf Hh Hf.
  destruct (assign_update h (weight_ (data e) / (weight_ (data e) + 1))%float _ pos e Hwf Hf)
    as (q1 & q2 & H1 & H2 & Hlt & Hwf2 & Hp).
  destruct ((weight_ (data e) <? 0.2)%float && negb (sample_goals_ o)) eqn:Hc.
  - destruct (reset_weights_spec (BinaryHeap_getContent q2) (set_goals_priority_queue q2 o))
      as (q' & t & Hrun & Hwf' & Hlt' & Hp' & Ht & Hall); [done | by apply content_handles |].
    simpl in *. exists q', ([Access WeightQueue false; Access WeightQueue true;
                  Access WeightQueue true; Access WeightQueue false] ++ t).
    split; [done|]. split; [congruence|].
    split; [by rewrite Hp', Hp, addresses_reweigh|].
    split.
    { repeat (apply Forall_cons; split; [done|]).
      eapply Forall_impl; [exact Ht|]. by intros ? ->. }
    split.
    + monad. rewrite Hh. simpl. rewrite Hf. simpl. rewrite H1. simpl. rewrite H2. simpl.
      rewrite Hc.
      change (set_goals_priority_queue q2 (set_goals_priority_queue q1 o))
        with (set_goals_priority_queue q2 o).
      change (goals_priority_queue_ (set_goals_priority_queue q2 o)) with q2.
      rewrite Hrun. simpl. by rewrite app_nil_r.
    + rewrite Forall_forall in *. intros e' He'.
      destruct (Hall e' He') as [Hw|[Hnot Hin]]; [done|].
      exfalso. apply Hnot. apply list_elem_of_fmap_2.
      unfold BinaryHeap_getContent. by apply list_elem_of_fmap_2.
  - exists q2, [Access WeightQueue false; Access WeightQueue true; Access WeightQueue true].
    split; [done|]. split; [done|]. split; [by rewrite Hp, addresses_reweigh|].
    split; [by repeat constructor|].
    split; [|done].
    monad. rewrite Hh. simpl. rewrite Hf. simpl. rewrite H1. simpl. rewrite H2. simpl.
    by rewrite Hc.
Qed.

(** rewardWeightedGoal on a handle into a well-formed queue. *)
Lemma reward_spec (wg : WeightedGoal) o h (pos : nat) e :
  wf_heap (goals_priority_queue_ o) →
  heap_element_ wg = Some h →
  find_element h (vector_ (goals_priority_queue_ o)) = Some (pos, e) →
  let w := weight_ (data e) in
  if (w <? 1)%float then
    ∃ q',
      wf_heap q' ∧ lt_ q' = lt_ (goals_priority_queue_ o) ∧
      rewardWeightedGoal wg o
      = (Return tt, set_goals_priority_queue q' o,
         [Access WeightQueue false; Access WeightQueue true; Access WeightQueue true]) ∧
      vector_ q' ≡ₚ
        reweigh h (if (1 <? w / (1 - w))%float then 1%float else (w / (1 - w))%float) <$>
          vector_ (goals_priority_queue_ o)
  else rewardWeightedGoal wg o = (Return tt, o, [Access WeightQueue false]).
Proof.
  intros Hwf Hh Hf w.
  destruct (w <? 1)%float eqn:Hc.
  - destruct (assign_update h (if (1 <? w / (1 - w))%float then 1%float else (w / (1 - w))%float)
                _ pos e Hwf Hf) as (q1 & q2 & H1 & H2 & Hlt & Hwf2 & Hp).
    exists q2. split; [done|]. split; [done|]. split; [|done].
    monad. rewrite Hh. simpl. rewrite Hf. simpl. fold w. rewrite Hc. simpl.
    rewrite H1. simpl. by rewrite H2.
  - monad. rewrite Hh. simpl. rewrite Hf. simpl. fold w. by rewrite Hc.
Qed.

End SelectionFacts.

(** ** The claims on weighted goal selection *)

Section Selection.
Import Ompl Samples.
Context {State Callback : Type}.
#[local] Abbreviation Obj := (@WeightedGoalRegionSamples State Callback).
#[local] Abbreviation WeightedGoal := (@Ompl.WeightedGoal State).
Implicit Types (o : Obj) (h : Handle) (wg : WeightedGoal).

(** penalizeWeightedGoal of the first class on a goal of a well-formed
    queue (the queue of every reachable state is one) returns, and resets
    the region exactly when the weight of the goal before the call is below
    0.2 and sample_goals_ is false.  After a reset every goal of the queue
    has weight 0.5, the queue holds the same elements, max_sampled_goals_
    has grown by 10 (as an unsigned int) and sample_goals_ is true.
    Without a reset the target and the flag are unchanged and the goal
    alone has the new weight w / (w + 1.). *)
Lemma reset_on_penalty wg o h (pos : nat) (e : Element) :
  wf_heap (goals_priority_queue_ o) →
  heap_element_ wg = Some h →
  find_element h (vector_ (goals_priority_queue_ o)) = Some (pos, e) →
  let w := weight_ (data e) in
  let o' := final (penalizeWeightedGoal wg o) in
  outcome (penalizeWeightedGoal wg o) = Return tt ∧
  ((w <? 0.2)%float = true ∧ sample_goals_ o = false →
     Forall (λ e', weight_ (data e') = 0.5%float) (vector_ (goals_priority_queue_ o')) ∧
     address <$> vector_ (goals_priority_queue_ o')
       ≡ₚ address <$> vector_ (goals_priority_queue_ o) ∧
     max_sampled_goals_ o' = uint (max_sampled_goals_ o + 10) ∧
     sample_goals_ o' = true) ∧
  (¬ ((w <? 0.2)%float = true ∧ sample_goals_ o = false) →
     max_sampled_goals_ o' = max_sampled_goals_ o ∧
     sample_goals_ o' = sample_goals_ o ∧
     vector_ (goals_priority_queue_ o')
       ≡ₚ reweigh h (w / (w + 1))%float <$> vector_ (goals_priority_queue_ o)).
Proof.
  intros Hwf Hh Hf w o'.
  destruct (penalize_spec wg o h pos e Hwf Hh Hf) as (q' & t & Hwf' & Hlt & Hp & Ht & Hrun).
  fold w in Hrun. subst o'.
  destruct ((w <? 0.2)%float && negb (sample_goals_ o)) eqn:Hc.
  - destruct Hrun as [-> Hall]. apply andb_true_iff in Hc as [Hw Hs].
    apply negb_true_iff in Hs. split; [done|]. split; [done|].
    intros Hn. exfalso. apply Hn. by split.
  - destruct Hrun as [-> Hperm]. split; [done|]. split; [|done].
    intros [Hw Hs]. by rewrite Hw, Hs in Hc.
Qed.

(** The weight of a goal of a well-formed queue after one
    penalizeWeightedGoal. *)
Lemma penalize_step wg o h (w : float) :
  wf_heap (goals_priority_queue_ o) →
  heap_element_ wg = Some h →
  weight_at (goals_priority_queue_ o) h = Some w →
  in_range w →
  ∃ w',
    outcome (penalizeWeightedGoal wg o) = Return tt ∧
    wf_heap (goals_priority_queue_ (final (penalizeWeightedGoal wg o))) ∧
    weight_at (goals_priority_queue_ (final (penalizeWeightedGoal wg o))) h = Some w' ∧
    in_range w' ∧
    if (w <? 0.2)%float && negb (sample_goals_ o)
    then w' = 0.5%float
    else w' = (w / (w + 1))%float ∧ (w' <=? w)%float = true.
Proof.
  intros Hwf Hh Hw [Hr0 Hr1]. unfold weight_at in Hw.
  destruct (find_element h (vector_ (goals_priority_queue_ o))) as [[pos e]|] eqn:Hf;
    [|done].
  injection Hw as Hw.
  destruct (penalize_spec wg o h pos e Hwf Hh Hf) as (q' & t & Hwf' & Hlt & Hp & Ht & Hrun).
  rewrite Hw in Hrun.
  destruct ((w <? 0.2)%float && negb (sample_goals_ o)) eqn:Hc.
  - destruct Hrun as [-> Hall]. exists 0.5%float. simpl.
    split; [done|]. split; [done|].
    split; [|split; [split; reflexivity | done]].
    destruct (find_element h (vector_ q')) as [[j e']|] eqn:Hf'.
    + unfold weight_at. rewrite Hf'. f_equal.
      rewrite Forall_forall in Hall. apply Hall.
      apply find_element_Some in Hf' as [? _]. by eapply list_elem_of_lookup_2.
    + exfalso. apply find_element_None in Hf'. apply Hf'. rewrite Hp.
      apply find_element_Some in Hf as [Hi <-].
      apply list_elem_of_fmap_2. by eapply list_elem_of_lookup_2.
  - destruct Hrun as [-> Hperm]. exists (w / (w + 1))%float. simpl.
    split; [done|]. split; [done|].
    split; [exact (weight_at_reweigh h _ _ q' pos e Hwf Hf Hperm)|].
    destruct (penalized_double w Hr0 Hr1) as (Hpos & Hle & Hle1).
    split; [by split|]. by split.
Qed.

(** C4, as amended: a goal of a well-formed queue with a weight in (0,1]
    is penalized [n] times, then once more.  Every call returns; the
    weight is in (0,1] before the last call and greater than 0 after it;
    the last call replaces the weight w by the binary64 quotient
    w / (w + 1.), which is not greater than w, unless that call resets the
    region (w < 0.2 while sample_goals_ is false), in which case the
    weight is 0.5. *)
Theorem penalize_sequence wg o h (w0 : float) :
  wf_heap (goals_priority_queue_ o) →
  heap_element_ wg = Some h →
  weight_at (goals_priority_queue_ o) h = Some w0 →
  in_range w0 →
  ∀ n : nat,
    let o_n := final (calls n (penalizeWeightedGoal wg) o) in
    let o' := final (penalizeWeightedGoal wg o_n) in
    outcome (calls n (penalizeWeightedGoal wg) o) = Return tt ∧
    outcome (penalizeWeightedGoal wg o_n) = Return tt ∧
    ∃ w w' : float,
      weight_at (goals_priority_queue_ o_n) h = Some w ∧
      weight_at (goals_priority_queue_ o') h = Some w' ∧
      in_range w ∧ (0 <? w')%float = true ∧
      if (w <? 0.2)%float && negb (sample_goals_ o_n)
      then w' = 0.5%float
      else w' = (w / (w + 1))%float ∧ (w' <=? w)%float = true.
Proof.
  intros Hwf Hh Hw0 Hrange n.
  assert (Hn : outcome (calls n (penalizeWeightedGoal wg) o) = Return tt ∧
               wf_heap (goals_priority_queue_ (final (calls n (penalizeWeightedGoal wg) o))) ∧
               ∃ w, weight_at (goals_priority_queue_
                                 (final (calls n (penalizeWeightedGoal wg) o))) h = Some w
                    ∧ in_range w).
  { induction n as [|n (Hout & Hwfn & w & Hw & Hr)]; [by eauto|].
    destruct (penalize_step wg _ h w Hwfn Hh Hw Hr) as (w' & Hout' & Hwf' & Hw' & Hr' & _).
    rewrite calls_S.
    destruct (calls n (penalizeWeightedGoal wg) o) as [[r o1] t1] eqn:Hcalls.
    change (r = Return tt) in Hout. subst r.
    rewrite (bind_Return _ _ _ _ _ _ Hcalls).
    unfold outcome, final in *. simpl in *. eauto. }
  destruct Hn as (Hout & Hwfn & w & Hw & Hr).
  destruct (penalize_step wg _ h w Hwfn Hh Hw Hr) as (w' & Hout' & Hwf' & Hw' & Hr' & Hstep).
  simpl. split; [done|]. split; [done|]. exists w, w'.
  split; [done|]. split; [done|]. split; [done|]. split; [apply Hr' | done].
Qed.

(** A weight that is not below 0 is a number: it is at most itself. *)
Lemma leb_refl_nonneg (w : float) : (0 <=? w)%float = true → (w <=? w)%float = true.
Proof.
  rewrite !leb_spec. unfold SFleb.
  destruct (Prim2SF w) as [s|s| |s m e]; simpl; try done.
  - by destruct s.
  - intros _. rewrite Z.compare_refl, Pos.compare_cont_refl. by destruct s.
Qed.

(** The weight of a goal of a well-formed queue after one
    rewardWeightedGoal. *)
Lemma reward_step wg o h (w : float) :
  wf_heap (goals_priority_queue_ o) →
  heap_element_ wg = Some h →
  weight_at (goals_priority_queue_ o) h = Some w →
  (0 <=? w)%float = true → (w <=? 1)%float = true →
  ∃ w',
    outcome (rewardWeightedGoal wg o) = Return tt ∧
    wf_heap (goals_priority_queue_ (final (rewardWeightedGoal wg o))) ∧
    weight_at (goals_priority_queue_ (final (rewardWeightedGoal wg o))) h = Some w' ∧
    (0 <=? w')%float = true ∧ (w' <=? 1)%float = true ∧ (w <=? w')%float = true ∧
    ((w <? 1)%float = true →
       w' = if (1 <? w / (1 - w))%float then 1%float else (w / (1 - w))%float) ∧
    ((w <? 1)%float = false → final (rewardWeightedGoal wg o) = o ∧ w' = w).
Proof.
  intros Hwf Hh Hw Hr0 Hr1. pose proof Hw as Hw0. unfold weight_at in Hw.
  destruct (find_element h (vector_ (goals_priority_queue_ o))) as [[pos e]|] eqn:Hf;
    [|done].
  injection Hw as Hw.
  pose proof (reward_spec wg o h pos e Hwf Hh Hf) as Hrun. simpl in Hrun.
  rewrite Hw in Hrun.
  destruct (w <? 1)%float eqn:Hc.
  - destruct Hrun as (q' & Hwf' & Hlt & -> & Hperm).
    exists (if (1 <? w / (1 - w))%float then 1%float else (w / (1 - w))%float). simpl.
    split; [done|]. split; [done|].
    split; [exact (weight_at_reweigh h _ _ q' pos e Hwf Hf Hperm)|].
    destruct (rewarded_double w Hr0 Hc) as (Hge & Hle & Hpos & _).
    split_and!; done.
  - rewrite Hrun. exists w. unfold outcome, final. simpl.
    split_and!; try done. by apply leb_refl_nonneg.
Qed.

(** The rewards of the first class: a goal of a well-formed queue with a
    weight in [0,1] is rewarded [n] times, then once more.  Every call
    returns; the weight stays in [0,1]; the last call replaces a weight
    w < 1.0 by the binary64 quotient w / (1. - w) clamped to at most 1.0,
    which is not less than w, and a call on a weight that is not below
    1.0 leaves the whole object unchanged. *)
Lemma rewards_in_a_row wg o h (w0 : float) :
  wf_heap (goals_priority_queue_ o) →
  heap_element_ wg = Some h →
  weight_at (goals_priority_queue_ o) h = Some w0 →
  (0 <=? w0)%float = true → (w0 <=? 1)%float = true →
  ∀ n : nat,
    let o_n := final (calls n (rewardWeightedGoal wg) o) in
    let o' := final (rewardWeightedGoal wg o_n) in
    outcome (calls n (rewardWeightedGoal wg) o) = Return tt ∧
    outcome (rewardWeightedGoal wg o_n) = Return tt ∧
    ∃ w w' : float,
      weight_at (goals_priority_queue_ o_n) h = Some w ∧
      weight_at (goals_priority_queue_ o') h = Some w' ∧
      (0 <=? w)%float = true ∧ (w <=? 1)%float = true ∧
      (w <=? w')%float = true ∧ (w' <=? 1)%float = true ∧
      ((w <? 1)%float = true →
         w' = if (1 <? w / (1 - w))%float then 1%float else (w / (1 - w))%float) ∧
      ((w <? 1)%float = false → o' = o_n ∧ w' = w).
Proof.
  intros Hwf Hh Hw0 Hr0 Hr1 n.
  assert (Hn : outcome (calls n (rewardWeightedGoal wg) o) = Return tt ∧
               wf_heap (goals_priority_queue_ (final (calls n (rewardWeightedGoal wg) o))) ∧
               ∃ w, weight_at (goals_priority_queue_
                                 (final (calls n (rewardWeightedGoal wg) o))) h = Some w
                    ∧ (0 <=? w)%float = true ∧ (w <=? 1)%float = true).
  { induction n as [|n (Hout & Hwfn & w & Hw & Hw0' & Hw1')]; [by eauto 10|].
    destruct (reward_step wg _ h w Hwfn Hh Hw Hw0' Hw1')
      as (w' & Hout' & Hwf' & Hw' & Hr0' & Hr1' & _).
    rewrite calls_S.
    destruct (calls n (rewardWeightedGoal wg) o) as [[r o1] t1] eqn:Hcalls.
    change (r = Return tt) in Hout. subst r.
    rewrite (bind_Return _ _ _ _ _ _ Hcalls).
    unfold outcome, final in *. simpl in *. eauto 10. }
  destruct Hn as (Hout & Hwfn & w & Hw & Hw0' & Hw1').
  destruct (reward_step wg _ h w Hwfn Hh Hw Hw0' Hw1')
    as (w' & Hout' & Hwf' & Hw' & Hr0' & Hr1' & Hmono & Hlt & Hge).
  simpl. split; [done|]. split; [done|]. exists w, w'. split_and!; done.
Qed.

End Selection.

(** ** Drawing from an empty region *)

Section EmptyRegion.
Import Ompl Samples.
Context {State Callback : Type}.
#[local] Abbreviation Obj := (@WeightedGoalRegionSamples State Callback).
#[local] Abbreviation WeightedGoal := (@Ompl.WeightedGoal State).
Implicit Types (o : Obj) (wg : WeightedGoal).

(** X20: the guard of the two sampling functions.  sampleWeightedGoal and
    sampleConsecutiveGoal throw "There are no goals to sample" exactly
    when states_ is empty at the call; with a state stored and a top
    element in the queue, sampleWeightedGoal returns the state, the weight
    and the handle of the top element, and leaves the object, the queue
    included, as it was. *)
Theorem sample_empty_region wg o :
  (outcome (sampleWeightedGoal wg o) = Throw NoGoalsToSample
     ↔ states_ (base o) = []) ∧
  (outcome (sampleConsecutiveGoal wg o) = Throw NoGoalsToSample
     ↔ states_ (base o) = []) ∧
  (∀ top : Element,
     states_ (base o) ≠ [] →
     BinaryHeap_top (goals_priority_queue_ o) = Some top →
     sampleWeightedGoal wg o
     = (Return {| state_ := state_ (data top);
                  weight_ := weight_ (data top);
                  heap_element_ := heap_element_ (data top) |},
        o, [Access GoalCollection false; Access WeightQueue false])).
Proof.
  split; [|split].
  - unfold sampleWeightedGoal, queue_read, bind, ret, gets, tell, throw, undefined,
      outcome. simpl.
    destruct (states_ (base o)) as [|s l]; [done|]. simpl.
    destruct (BinaryHeap_top (goals_priority_queue_ o)); simpl; split; done.
  - unfold sampleConsecutiveGoal, GoalStates_, GoalStates_sampleGoal, zoom, bind, ret,
      gets, modify, tell, throw, undefined, outcome. simpl.
    destruct (states_ (base o)) as [|s l] eqn:Hl; [done|]. simpl. rewrite Hl. simpl.
    destruct ((s :: l) !! _); simpl; split; done.
  - intros top Hne Htop.
    unfold sampleWeightedGoal, queue_read, bind, ret, gets, tell, throw, undefined.
    simpl. destruct (states_ (base o)) as [|s l]; [done|]. simpl. by rewrite Htop.
Qed.

End EmptyRegion.

(** ** Instances of the claims on weighted goal selection *)

Section SelectionInstances.
Import Ompl Samples Examples.

Lemma paused_with_goals_wf : wf_heap (goals_priority_queue_ paused_with_goals).
Proof.
  split; [apply (bool_decide_unpack _); vm_compute; exact I
         | vm_compute; repeat constructor].
Defined.

Lemma sampling_with_goals_wf : wf_heap (goals_priority_queue_ sampling_with_goals).
Proof. exact paused_with_goals_wf. Defined.

(** C2 as stated fails, in both classes: the goal of weight 0.22 is
    penalized to 0.22 / 1.22 < 0.2 while sample_goals_ is false, and there
    is no reset. *)
Lemma penalize_below_threshold_no_reset :
  (let o := paused_with_goals in
   let o' := final (penalizeWeightedGoal (handle 1) o) in
   sample_goals_ o = false ∧
   (∃ w', weight_at (goals_priority_queue_ o') 1 = Some w' ∧ (w' <? 0.2)%float = true) ∧
   ¬ (Forall (λ e, weight_ (data e) = 0.5%float) (vector_ (goals_priority_queue_ o')) ∧
      max_sampled_goals_ o' = uint (max_sampled_goals_ o + 10) ∧
      sample_goals_ o' = true)) ∧
  (let o := paused_sampler_with_goals in
   let o' := final (Sampler.penalizeWeightedGoal (handle 1) o) in
   Sampler.sample_goals_ o = false ∧
   (∃ w', weight_at (Sampler.goals_priority_queue_ o') 1 = Some w' ∧
          (w' <? 0.2)%float = true) ∧
   ¬ (Forall (λ e, weight_ (data e) = 0.5%float)
        (vector_ (Sampler.goals_priority_queue_ o')) ∧
      Sampler.max_sampled_goals_ o' = uint (Sampler.max_sampled_goals_ o + 10) ∧
      Sampler.sample_goals_ o' = true)).
Proof.
  split; (split; [reflexivity|]); split.
  - eexists. split; [vm_compute; reflexivity | reflexivity].
  - intros (_ & _ & H). vm_compute in H. discriminate.
  - eexists. split; [vm_compute; reflexivity | reflexivity].
  - intros (_ & _ & H). vm_compute in H. discriminate.
Qed.

Lemma penalize_sequence_witness :
  wf_heap (goals_priority_queue_ sampling_with_goals) ∧
  weight_at (goals_priority_queue_ sampling_with_goals) 3 = Some 1%float ∧
  in_range 1 ∧
  outcome (calls 4 (penalizeWeightedGoal (handle 3)) sampling_with_goals) = Return tt.
Proof.
  split; [exact sampling_with_goals_wf|]. split; [reflexivity|].
  assert (Hr : in_range 1) by (split; reflexivity).
  split; [exact Hr|].
  destruct (penalize_sequence (handle 3) sampling_with_goals 3 1%float
              sampling_with_goals_wf eq_refl eq_refl Hr 4) as (Hout & _).
  exact Hout.
Defined.

(** C4 as stated fails: the weight 2^-60 is in (0,1] and the thread still
    samples, so that no call resets the region; w + 1. rounds to 1., the
    penalty leaves the weight as it is, and after three calls it is still
    2^-60: the weight does not decrease. *)
Lemma penalty_leaves_small_weight :
  let o := sampling_with_small_goal in
  let o' := final (penalizeWeightedGoal (handle 1) o) in
  in_range 0x1p-60 ∧ sample_goals_ o = true ∧
  weight_at (goals_priority_queue_ o) 1 = Some 0x1p-60%float ∧
  weight_at (goals_priority_queue_ o') 1 = Some 0x1p-60%float ∧
  weight_at (goals_priority_queue_ (final (calls 3 (penalizeWeightedGoal (handle 1)) o))) 1
  = Some 0x1p-60%float ∧
  (0x1p-60 / (0x1p-60 + 1) <? 0x1p-60)%float = false.
Proof. vm_compute. repeat split. Qed.

Lemma sample_empty_region_witness :
  states_ (base paused_with_goals) ≠ [] ∧
  BinaryHeap_top (goals_priority_queue_ paused_with_goals) = Some goal_14 ∧
  sampleWeightedGoal (handle 0) paused_with_goals
  = (Return {| state_ := 14; weight_ := 1; heap_element_ := Some 3 |},
     paused_with_goals, [Access GoalCollection false; Access WeightQueue false]).
Proof.
  assert (Hne : states_ (base paused_with_goals) ≠ @nil nat)
    by (vm_compute; discriminate).
  split; [exact Hne|]. split; [reflexivity|].
  destruct (sample_empty_region (handle 0) paused_with_goals) as (_ & _ & Htop).
  exact (Htop goal_14 Hne eq_refl).
Defined.

(** C6, the failing call: a state is stored by addState and no goal has
    entered the queue (no function of the file inserts into it); the guard
    of sampleWeightedGoal on states_ passes, top() of the empty queue is
    the null pointer, and the function dereferences it: it neither throws
    the error nor returns a goal. *)
Theorem sample_without_queued_goal :
  let o := final (addState 7 (new by_weight si_ready (Some three_per_call) 5 false 0
                              : @WeightedGoalRegionSamples nat nat)) in
  states_ (base o) = [7] ∧
  BinaryHeap_top (goals_priority_queue_ o) = None ∧
  outcome (sampleWeightedGoal (handle 0) o) = Undefined ∧
  outcome (sampleWeightedGoal (handle 0) o) ≠ Throw NoGoalsToSample.
Proof. vm_compute. repeat split. discriminate. Qed.

End SelectionInstances.

(** ** Framing the member functions *)

Ltac frame :=
  repeat first
    [ apply frames_ret; apply _
    | apply frames_just_gets; apply _
    | apply frames_tell; apply _
    | apply frames_throw; apply _
    | apply frames_undefined; apply _
    | apply frames_lock_guard
    | apply frames_zoom; intros; first [reflexivity | exact (λ H, H)]
    | apply frames_modify; intros; first [reflexivity | exact (λ H, H)]
    | apply frames_bind; [apply _ | | intros ?]
    | case_match ].

(** ** The sampling target and the flag sample_goals_ *)

Section Target.
Import Ompl Samples.
Context {State Callback : Type}.
#[local] Abbreviation Obj := (@WeightedGoalRegionSamples State Callback).
#[local] Abbreviation WeightedGoal := (@Ompl.WeightedGoal State).
#[local] Abbreviation action := (@Samples.action State Callback).
#[local] Abbreviation M := (@Ompl.M State Callback).
#[local] Abbreviation same_control :=
  (Samples.same_control (State := State) (Callback := Callback)).
#[local] Abbreviation penalized :=
  (Samples.penalized (State := State) (Callback := Callback)).
Implicit Types (o : Obj) (wg : WeightedGoal) (a : action).

#[local] Instance same_control_refl : Reflexive same_control.
Proof. by intros o. Qed.

#[local] Instance same_control_trans : Transitive same_control.
Proof. unfold same_control. intros o1 o2 o3 H1 H2. congruence. Qed.

#[local] Instance penalized_refl : Reflexive penalized.
Proof. intros o. by left. Qed.

#[local] Instance penalized_trans : Transitive penalized.
Proof.
  unfold penalized, control. intros o1 o2 o3 [H1|[Hf1 H1]] [H2|[Hf2 H2]];
    simplify_eq; [left | right | right |]; try (split; congruence); congruence.
Qed.

Lemma queue_write_control f : frames same_control (queue_write f).
Proof. unfold queue_write. frame. Qed.

Lemma queue_read_control {A} (f : BinaryHeap → A) : frames same_control (queue_read f).
Proof. unfold queue_read. frame. Qed.

Lemma reset_weights_control (l : list WeightedGoal) : frames same_control (reset_weights l).
Proof.
  induction l as [|g l IH]; simpl; [frame|].
  destruct (heap_element_ g); [|frame].
  repeat (apply frames_bind; [apply _ | apply queue_write_control | intros _]).
  exact IH.
Qed.

Lemma same_control_penalized {A} (m : M Obj A) :
  frames same_control m → frames penalized m.
Proof. intros H o. left. apply H. Qed.

(** penalizeWeightedGoal on any object: the counters and the thread are
    untouched, unless the flag was false, and then it is true afterwards. *)
Lemma penalize_control wg : frames penalized (penalizeWeightedGoal wg).
Proof.
  unfold penalizeWeightedGoal.
  apply frames_bind; [apply _ | apply same_control_penalized, queue_read_control |].
  intros e. destruct (heap_element_ wg) as [h|]; [|frame].
  destruct e as [[pos e]|]; [|frame].
  do 2 (apply frames_bind;
        [apply _ | apply same_control_penalized, queue_write_control | intros _]).
  apply frames_gets. intros o.
  destruct ((weight_ (data e) <? 0.2)%float && negb (sample_goals_ o)) eqn:Hc;
    [|reflexivity].
  apply andb_true_iff in Hc as [_ Hflag]. apply negb_true_iff in Hflag.
  rewrite final_bind.
  pose proof (queue_read_control BinaryHeap_getContent o) as H1.
  destruct (outcome (queue_read BinaryHeap_getContent o)) as [existing| |];
    [|by left..].
  rewrite final_bind.
  pose proof (reset_weights_control existing (final (queue_read BinaryHeap_getContent o)))
    as H2.
  assert (H3 : same_control o (final (reset_weights existing
                                        (final (queue_read BinaryHeap_getContent o)))))
    by (etrans; [exact H1 | exact H2]).
  destruct (outcome (reset_weights existing _)); [|by left..].
  right. split; [done|]. unfold same_control, control in H3.
  injection H3 as Hth Hsg Hnum Hmax. unfold control. simpl. congruence.
Qed.

Lemma other_calls_control a :
  match a with
  | ThreadStep _ | StartSampling | StopSampling _ | Penalize _ => True
  | _ => ∀ o, same_control o (perform a o)
  end.
Proof.
  destruct a; try exact I; intros o; unfold perform.
  - reflexivity.
  - apply queue_write_control.
  - revert o. change (frames same_control (clear (Callback := Callback))).
    unfold clear, GoalStates_. frame.
  - reflexivity.
  - revert o. change (frames same_control (addState (Callback := Callback) st)).
    unfold addState, GoalStates_. frame.
  - revert o.
    change (frames same_control (addStateIfDifferent (Callback := Callback) st minDistance)).
    unfold addStateIfDifferent, GoalStates_. frame.
  - revert o. change (frames same_control (sampleGoal (Callback := Callback))).
    unfold sampleGoal, GoalStates_. frame.
  - revert o.
    change (frames same_control (rewardWeightedGoal (Callback := Callback) weighted_goal)).
    unfold rewardWeightedGoal. frame.
  - revert o.
    change (frames same_control (sampleWeightedGoal (Callback := Callback) weighted_goal)).
    unfold sampleWeightedGoal. frame.
  - revert o.
    change (frames same_control (sampleConsecutiveGoal (Callback := Callback) weighted_goal)).
    unfold sampleConsecutiveGoal, GoalStates_. frame.
Qed.

Ltac exec :=
  unfold goalSamplingThread_step, startSampling, isSampling, goto, GoalStates_,
    GoalStates_addState, zoom, lock_guard, bind, ret, gets, modify, tell, throw,
    undefined, final, outcome, trace;
  simpl.

Lemma thread_step_invariant (now : nat) o :
  target_invariant o → target_invariant (final (goalSamplingThread_step now o)).
Proof.
  unfold target_invariant. intros [H1 H2]. exec.
  destruct (samplingThread_ o) as [[| | | | | |[|s rest] inc|inc|inc|inc| |]|] eqn:Hpc;
    simpl; repeat case_match; simpl; simplify_eq/=;
    repeat match goal with
           | H : _ ∧ _ |- _ => destruct H
           | H : (_ <? _)%Z = true |- _ => apply Z.ltb_lt in H
           | H : (_ <=? _)%Z = true |- _ => apply Z.leb_le in H
           end;
    try done; try (split; [done|]; try done).
  all: try (destruct (sample_goals_ o); [done|]; exfalso; lia).
  all: try (split; [|done]; intros; lia).
Qed.

Lemma thread_run_invariant (n now : nat) o :
  target_invariant o → target_invariant (final (goalSamplingThread_run n now o)).
Proof.
  revert now o. induction n as [|n IH]; intros now o Hinv; [done|].
  simpl. rewrite final_bind.
  pose proof (thread_step_invariant now o Hinv) as Hstep.
  destruct (outcome (goalSamplingThread_step now o)); [|done..].
  by apply IH.
Qed.

Lemma same_control_invariant o o' :
  same_control o o' → target_invariant o → target_invariant o'.
Proof.
  unfold same_control, control, target_invariant. intros [= Hth Hsg Hnum Hmax].
  by rewrite Hth, Hsg, Hnum, Hmax.
Qed.

Lemma perform_invariant a o : target_invariant o → target_invariant (perform a o).
Proof.
  intros Hinv. pose proof (other_calls_control a) as Hother.
  destruct a; try (by eapply same_control_invariant; [apply Hother|]).
  - by apply thread_step_invariant.
  - (* startSampling *)
    destruct Hinv as [H1 H2]. unfold perform, target_invariant. exec.
    destruct (samplingThread_ o) eqn:Hth; simpl; rewrite ?Hth;
      (split; [exact H1 | first [exact H2 | exact I]]).
  - (* stopSampling *)
    unfold perform, stopSampling. rewrite final_bind.
    set (m := lock_guard _).
    assert (Hm : target_invariant (final (m o))).
    { subst m. destruct Hinv as [H1 H2]. unfold target_invariant. exec.
      destruct (terminateSamplingThread_ o); simpl; (split; [exact H1 | exact H2]). }
    destruct (outcome (m o)); [|exact Hm..].
    rewrite final_bind.
    change (outcome (gets samplingThread_ (final (m o))))
      with (Return (A := option (pc State)) (samplingThread_ (final (m o)))).
    change (final (gets samplingThread_ (final (m o)))) with (final (m o)).
    cbv iota.
    destruct (samplingThread_ (final (m o))) eqn:Hth; [|exact Hm].
    rewrite final_bind.
    pose proof (thread_run_invariant (remaining now (final (m o))) now _ Hm) as Hj.
    change (join now (final (m o)))
      with (goalSamplingThread_run (remaining now (final (m o))) now (final (m o))).
    destruct (outcome (goalSamplingThread_run (remaining now (final (m o))) now
                         (final (m o)))); [|exact Hj..].
    destruct Hj as [Hj _]. split; [exact Hj | done].
  - (* penalizeWeightedGoal *)
    destruct (penalize_control weighted_goal o) as [Hc|[Hflag Hc]].
    + by eapply same_control_invariant.
    + destruct Hinv as [H1 H2]. unfold perform, target_invariant.
      unfold control in Hc. injection Hc as Hth Hsg Hnum Hmax.
      rewrite Hth, Hsg. split; [done|].
      destruct (samplingThread_ o) as [[]|]; try done; simpl in H2;
        try destruct H2; congruence.
Qed.

(** C10: the object starts with sample_goals_ true, and in every state
    reached from the constructor by steps of the sampling thread and calls
    of the member functions, interleaved in any order, a false sample_goals_
    comes with num_sampled_goals_ >= max_sampled_goals_. *)
Theorem target_reached_when_paused cmp si samplerFunc (max_sampled_goals : Z)
    (autoStart : bool) (minDist : Q) :
  let init : Obj := new cmp si samplerFunc max_sampled_goals autoStart minDist in
  sample_goals_ init = true ∧
  ∀ o, reachable init o →
       sample_goals_ o = false →
       (max_sampled_goals_ o <= num_sampled_goals_ o)%Z.
Proof.
  intros init.
  assert (Hinit : sample_goals_ init = true ∧ target_invariant init).
  { subst init. unfold new, target_invariant. destruct autoStart; exec; done. }
  split; [apply Hinit|].
  intros o Hreach. assert (Hinv : target_invariant o).
  { induction Hreach as [|o a _ IH]; [apply Hinit | by apply perform_invariant]. }
  apply Hinv.
Qed.

(** The states a run of the thread goes through are reachable. *)
Lemma thread_run_reachable (init : Obj) (n now : nat) o :
  reachable init o → reachable init (final (goalSamplingThread_run n now o)).
Proof.
  revert now o. induction n as [|n IH]; intros now o Hr; [done|].
  simpl. rewrite final_bind.
  pose proof (reachable_step init o (ThreadStep now) Hr) as Hstep. simpl in Hstep.
  destruct (outcome (goalSamplingThread_step now o)); [|done..].
  by apply IH.
Qed.

End Target.

(** ** What holds in every reachable state *)

Section Reachable.
Import Ompl Samples.
Context {State Callback : Type}.
#[local] Abbreviation Obj := (@WeightedGoalRegionSamples State Callback).
#[local] Abbreviation WeightedGoal := (@Ompl.WeightedGoal State).
#[local] Abbreviation BinaryHeap := (@Ompl.BinaryHeap State).
#[local] Abbreviation action := (@Samples.action State Callback).
#[local] Abbreviation M := (@Ompl.M State Callback).
#[local] Abbreviation same := (Samples.same (State := State) (Callback := Callback)).
#[local] Abbreviation wf_kept := (Samples.wf_kept (State := State) (Callback := Callback)).
Implicit Types (o : Obj) (wg : WeightedGoal) (a : action) (q : BinaryHeap).

#[local] Instance same_refl {V} (view : Obj → V) : Reflexive (same view).
Proof. by intros o. Qed.

#[local] Instance same_trans {V} (view : Obj → V) : Transitive (same view).
Proof. unfold same, Samples.same. intros o1 o2 o3 H1 H2. congruence. Qed.

#[local] Instance wf_kept_refl : Reflexive wf_kept.
Proof. intros o Hwf. exact Hwf. Qed.

#[local] Instance wf_kept_trans : Transitive wf_kept.
Proof. unfold wf_kept, Samples.wf_kept. intros o1 o2 o3 H1 H2. auto. Qed.

(** The thread does not touch the queue. *)
Lemma thread_step_queue (now : nat) :
  frames (same goals_priority_queue_) (goalSamplingThread_step now).
Proof.
  unfold goalSamplingThread_step, isSampling, goto, GoalStates_. frame.
Qed.

Lemma thread_run_queue (n now : nat) :
  frames (same goals_priority_queue_) (goalSamplingThread_run n now).
Proof.
  revert now. induction n as [|n IH]; intros now; simpl; [frame|].
  apply frames_bind; [apply _ | apply thread_step_queue | intros _; apply IH].
Qed.

Lemma stopSampling_queue (now : nat) :
  frames (same goals_priority_queue_) (stopSampling now).
Proof.
  unfold stopSampling.
  apply frames_bind; [apply _ | frame |]. intros _.
  apply frames_bind; [apply _ | frame |]. intros [p|]; [|frame].
  apply frames_bind; [apply _ | | intros _; frame].
  intros o. unfold join. apply thread_run_queue.
Qed.

Lemma same_queue_wf_kept {A} (m : M Obj A) :
  frames (same goals_priority_queue_) m → frames wf_kept m.
Proof. intros H o Hwf. unfold frames, same, Samples.same in H. by rewrite H. Qed.

Lemma queue_write_wf (f : BinaryHeap → option BinaryHeap) :
  (∀ q q', f q = Some q' → wf_heap q → wf_heap q') → frames wf_kept (queue_write f).
Proof.
  intros Hf o Hwf. unfold queue_write, bind, gets, modify, tell, undefined, final. simpl.
  destruct (f (goals_priority_queue_ o)) as [q'|] eqn:Hq; simpl; eauto.
Qed.

Lemma assign_weight_wf (h : Handle) (w : float) q q' :
  assign_weight h w q = Some q' → wf_heap q → wf_heap q'.
Proof.
  unfold assign_weight. destruct (find_element h (vector_ q)) as [[pos e]|] eqn:Hf; [|done].
  intros [= <-] Hwf. pose proof Hwf as [Hnd _].
  rewrite (alter_reweigh h w _ pos e Hnd Hf). by apply (wf_heap_reweigh h w q).
Qed.

Lemma update_wf (h : Handle) q q' :
  BinaryHeap_update h q = Some q' → wf_heap q → wf_heap q'.
Proof.
  unfold BinaryHeap_update. destruct (find_element h (vector_ q)) as [[pos e]|]; [|done].
  intros [= <-]. apply wf_heap_perm. simpl.
  by rewrite percolateDown_perm, percolateUp_perm.
Qed.

Lemma insert_wf (s : State) (w : float) q : wf_heap q → wf_heap (BinaryHeap_insert s w q).
Proof.
  intros [Hnd Hself]. unfold BinaryHeap_insert.
  apply (wf_heap_perm
           {| vector_ := vector_ q ++
                [{| address := fresh_address (vector_ q);
                    data := {| state_ := s; weight_ := w;
                               heap_element_ := Some (fresh_address (vector_ q)) |} |}];
              lt_ := lt_ q |}).
  - simpl. apply percolateUp_perm.
  - split; simpl.
    + rewrite fmap_app. simpl. apply NoDup_app. split; [done|]. split; [|apply NoDup_singleton].
      intros x Hx Hx'. apply list_elem_of_singleton in Hx'. subst x.
      apply max_list_elem_of_le in Hx. unfold fresh_address in Hx. lia.
    + apply Forall_app. split; [done|]. by repeat constructor.
Qed.

Lemma reset_weights_wf (l : list WeightedGoal) : frames wf_kept (reset_weights l).
Proof.
  induction l as [|g l IH]; simpl; [frame|].
  destruct (heap_element_ g) as [h|]; [|frame].
  apply frames_bind; [apply _ | apply queue_write_wf, assign_weight_wf | intros _].
  apply frames_bind; [apply _ | apply queue_write_wf, update_wf | intros _].
  exact IH.
Qed.

Lemma perform_wf a o :
  wf_heap (goals_priority_queue_ o) → wf_heap (goals_priority_queue_ (perform a o)).
Proof.
  revert o. destruct a; unfold perform;
    try match goal with
        | |- ∀ o, _ → wf_heap (goals_priority_queue_ (final (?m o))) =>
            change (frames wf_kept m)
        end.
  - apply same_queue_wf_kept, thread_step_queue.
  - by intros o.
  - apply queue_write_wf. intros q q' [= <-]. apply insert_wf.
  - apply same_queue_wf_kept. unfold startSampling. frame.
  - apply same_queue_wf_kept, stopSampling_queue.
  - unfold clear, GoalStates_. apply frames_lock_guard.
    apply frames_bind; [apply _ | frame |]. intros _.
    apply queue_write_wf. intros q q' [= <-] _. split; simpl; constructor.
  - frame.
  - unfold addState, GoalStates_. frame.
  - unfold addStateIfDifferent, GoalStates_. frame.
  - unfold sampleGoal, GoalStates_. frame.
  - unfold penalizeWeightedGoal, queue_read.
    apply frames_bind; [apply _ | frame |]. intros e.
    destruct (heap_element_ weighted_goal) as [h|]; [|frame].
    destruct e as [[pos e]|]; [|frame].
    apply frames_bind; [apply _ | apply queue_write_wf, assign_weight_wf | intros _].
    apply frames_bind; [apply _ | apply queue_write_wf, update_wf | intros _].
    apply frames_bind; [apply _ | frame |]. intros sg. case_match; [|frame].
    apply frames_bind; [apply _ | frame |]. intros existing.
    apply frames_bind; [apply _ | apply reset_weights_wf | intros _]. frame.
  - unfold rewardWeightedGoal, queue_read.
    apply frames_bind; [apply _ | frame |]. intros e.
    destruct (heap_element_ weighted_goal) as [h|]; [|frame].
    destruct e as [[pos e]|]; [|frame]. case_match; [|frame].
    apply frames_bind; [apply _ | apply queue_write_wf, assign_weight_wf | intros _].
    apply queue_write_wf, update_wf.
  - unfold sampleWeightedGoal, queue_read. frame.
  - unfold sampleConsecutiveGoal, GoalStates_. frame.
Qed.

(** The queue of every state reached from the constructor is well-formed:
    the assumption of the properties of penalizeWeightedGoal and
    rewardWeightedGoal. *)
Lemma reachable_wf cmp si samplerFunc (max_sampled_goals : Z) (autoStart : bool)
    (minDist : Q) o :
  reachable (new cmp si samplerFunc max_sampled_goals autoStart minDist) o →
  wf_heap (goals_priority_queue_ o).
Proof.
  induction 1 as [|o a _ IH]; [|by apply perform_wf].
  unfold new. destruct autoStart; split; simpl; constructor.
Qed.

(** The calls of the planning thread, start and stop apart, leave the
    thread and the sampling function alone. *)
Lemma reset_weights_thread (l : list WeightedGoal) :
  frames (same (λ o, (samplingThread_ o, samplerFunc_ o))) (reset_weights l).
Proof.
  induction l as [|g l IH]; simpl; [frame|].
  destruct (heap_element_ g) as [h|]; [|frame].
  unfold queue_write in *. frame. exact IH.
Qed.

Lemma planner_calls_thread a :
  match a with
  | ThreadStep _ | StartSampling | StopSampling _ => True
  | _ => ∀ o, same (λ o, (samplingThread_ o, samplerFunc_ o)) o (perform a o)
  end.
Proof.
  destruct a; try exact I; unfold perform;
    try match goal with
        | |- ∀ o, same ?v o (final (?m o)) => change (frames (same v) m)
        end.
  - by intros o.
  - unfold enqueueGoal, queue_write. frame.
  - unfold clear, GoalStates_, queue_write. frame.
  - unfold setNewStateCallback. frame.
  - unfold addState, GoalStates_. frame.
  - unfold addStateIfDifferent, GoalStates_. frame.
  - unfold sampleGoal, GoalStates_. frame.
  - unfold penalizeWeightedGoal, queue_read, queue_write. frame.
    apply reset_weights_thread.
  - unfold rewardWeightedGoal, queue_read, queue_write. frame.
  - unfold sampleWeightedGoal, queue_read. frame.
  - unfold sampleConsecutiveGoal, GoalStates_. frame.
Qed.

Lemma thread_step_sampler_known (now : nat) o :
  sampler_known o → sampler_known (final (goalSamplingThread_step now o)).
Proof.
  unfold sampler_known.
  unfold goalSamplingThread_step, isSampling, goto, GoalStates_, GoalStates_addState,
    zoom, lock_guard, bind, ret, gets, modify, tell, undefined, final. simpl.
  destruct (samplingThread_ o) as [[| | | | | |[|s rest] inc|inc|inc|inc| |]|] eqn:Hpc;
    simpl; intros Hk; repeat case_match; simpl; simplify_eq/=; rewrite ?Hpc;
    try done; eauto.
  by rewrite andb_false_r in *.
Qed.

Lemma thread_run_sampler_known (n now : nat) o :
  sampler_known o → sampler_known (final (goalSamplingThread_run n now o)).
Proof.
  revert now o. induction n as [|n IH]; intros now o Hk; [done|].
  simpl. rewrite final_bind.
  pose proof (thread_step_sampler_known now o Hk) as Hstep.
  destruct (outcome (goalSamplingThread_step now o)); [|done..].
  by apply IH.
Qed.

Lemma perform_sampler_known a o : sampler_known o → sampler_known (perform a o).
Proof.
  intros Hk. pose proof (planner_calls_thread a) as Hother.
  destruct a;
    try (specialize (Hother o); unfold Samples.same in Hother;
         apply pair_equal_spec in Hother as [Hth Hf];
         unfold sampler_known in *; by rewrite Hth, Hf).
  - by apply thread_step_sampler_known.
  - unfold perform, sampler_known in *.
    unfold startSampling, lock_guard, bind, ret, gets, modify, final. simpl.
    destruct (samplingThread_ o) as [p|] eqn:Hpc; simpl; by rewrite ?Hpc.
  - unfold perform, stopSampling. rewrite final_bind.
    set (m := lock_guard _).
    assert (Hm : sampler_known (final (m o))).
    { subst m. unfold sampler_known in *.
      unfold lock_guard, bind, ret, gets, modify, final. simpl.
      destruct (terminateSamplingThread_ o); simpl; exact Hk. }
    destruct (outcome (m o)); [|exact Hm..].
    rewrite final_bind.
    change (outcome (gets samplingThread_ (final (m o))))
      with (Return (A := option (pc State)) (samplingThread_ (final (m o)))).
    change (final (gets samplingThread_ (final (m o)))) with (final (m o)).
    cbv iota.
    destruct (samplingThread_ (final (m o))) eqn:Hth; [|exact Hm].
    rewrite final_bind.
    pose proof (thread_run_sampler_known (remaining now (final (m o))) now _ Hm) as Hj.
    change (join now (final (m o)))
      with (goalSamplingThread_run (remaining now (final (m o))) now (final (m o))).
    destruct (outcome (goalSamplingThread_run (remaining now (final (m o))) now
                         (final (m o)))); [|exact Hj..].
    done.
Qed.

(** In every state reached from the constructor the thread may call the
    sampling function: the assumption of the properties of stopSampling. *)
Lemma reachable_may_sample cmp si samplerFunc (max_sampled_goals : Z) (autoStart : bool)
    (minDist : Q) o :
  reachable (new cmp si samplerFunc max_sampled_goals autoStart minDist) o →
  may_sample o.
Proof.
  intros Hr. assert (Hk : sampler_known o).
  { induction Hr as [|o a _ IH]; [|by apply perform_sampler_known].
    unfold new. by destruct autoStart. }
  unfold may_sample, sampler_known in *. intros Hpc. by rewrite Hpc in Hk.
Qed.

End Reachable.

(** ** The sampling thread *)

Section Thread.
Import Ompl Samples.
Context {State Callback : Type}.
#[local] Abbreviation Obj := (@WeightedGoalRegionSamples State Callback).
#[local] Abbreviation M := (@Ompl.M State Callback).
Implicit Types (o : Obj) (now n : nat).

Ltac exec :=
  unfold goalSamplingThread_step, startSampling, isSampling, goto, GoalStates_,
    GoalStates_addState, zoom, lock_guard, bind, ret, gets, modify, tell, throw,
    undefined, final, outcome, trace;
  simpl.

Lemma run_add n m now o :
  goalSamplingThread_run (n + m) now o
  = bind (goalSamplingThread_run n now) (λ _, goalSamplingThread_run m (now + n)) o.
Proof.
  revert now o. induction n as [|n IH]; intros now o.
  - simpl. rewrite Nat.add_0_r. unfold bind, ret.
    by destruct (goalSamplingThread_run m now o) as [[r o'] t].
  - change (S n + m) with (S (n + m)). cbn [goalSamplingThread_run].
    rewrite bind_assoc. replace (now + S n) with (S now + n) by lia.
    apply bind_ext. intros _ o1. apply IH.
Qed.

(** With the target reached and no stop requested the thread polls. *)
Lemma idle_step now o :
  terminateSamplingThread_ o = false →
  (max_sampled_goals_ o <= num_sampled_goals_ o)%Z →
  (samplingThread_ o = Some PcLoopHead →
   goalSamplingThread_step now o
   = (Return tt, set_samplingThread (Some PcSample) o, [Acquire; Release])) ∧
  (samplingThread_ o = Some PcSample →
   goalSamplingThread_step now o
   = (Return tt, set_samplingThread (Some PcLoopHead) o, [])).
Proof.
  intros Hstop Hmax. split; intros Hpc; exec; rewrite Hpc; simpl.
  - by rewrite Hstop, Hpc.
  - by rewrite (proj2 (Z.ltb_ge _ _) Hmax).
Qed.

Lemma idle_run n now o :
  terminateSamplingThread_ o = false →
  (max_sampled_goals_ o <= num_sampled_goals_ o)%Z →
  samplingThread_ o = Some PcLoopHead ∨ samplingThread_ o = Some PcSample →
  outcome (goalSamplingThread_run n now o) = Return tt ∧
  ∃ p, (p = PcLoopHead ∨ p = PcSample) ∧
       final (goalSamplingThread_run n now o) = set_samplingThread (Some p) o.
Proof.
  revert now o. induction n as [|n IH]; intros now o Hstop Hmax Hpc.
  - split; [done|]. destruct Hpc as [Hpc|Hpc]; eexists; (split; [|destruct o; simpl in *; by rewrite <- Hpc]); auto.
  - destruct (idle_step now o Hstop Hmax) as [Hhead Hsample].
    cbn [goalSamplingThread_run].
    destruct Hpc as [Hpc|Hpc];
      [rewrite (bind_Return _ _ _ _ _ _ (Hhead Hpc))
      |rewrite (bind_Return _ _ _ _ _ _ (Hsample Hpc))];
      rewrite outcome_triple, final_triple.
    + destruct (IH (S now) (set_samplingThread (Some PcSample) o)) as (Hout & p & Hp & Hfin);
        [done | done | by right |].
      split; [done|]. exists p. split; [done|]. by rewrite Hfin.
    + destruct (IH (S now) (set_samplingThread (Some PcLoopHead) o)) as (Hout & p & Hp & Hfin);
        [done | done | by left |].
      split; [done|]. exists p. split; [done|]. by rewrite Hfin.
Qed.

(** A thread told to stop comes closer to its end with every step. *)
Lemma stopping_step now o :
  terminateSamplingThread_ o = true →
  may_sample o →
  (∃ p, samplingThread_ o = Some p ∧ p ≠ PcDone) →
  outcome (goalSamplingThread_step now o) = Return tt ∧
  terminateSamplingThread_ (final (goalSamplingThread_step now o)) = true ∧
  (∃ p, samplingThread_ (final (goalSamplingThread_step now o)) = Some p ∧ p ≠ PcSample) ∧
  remaining (S now) (final (goalSamplingThread_step now o)) < remaining now o.
Proof.
  intros Hstop Hmay (p & Hpc & Hp). unfold may_sample in Hmay. unfold remaining. exec.
  rewrite Hpc. rewrite Hpc in Hmay.
  destruct p as [| | | | | |[|s rest] inc|inc|inc|inc| |]; simpl; rewrite ?Hstop; simpl;
    try done.
  all: try (destruct (Hmay eq_refl) as [f Hf]; rewrite Hf).
  all: repeat case_match; simpl; rewrite ?Hpc; simplify_eq/=.
  all: split_and!; eauto with lia.
Qed.

Lemma stopping_run n now o :
  terminateSamplingThread_ o = true →
  may_sample o →
  is_Some (samplingThread_ o) →
  remaining now o ≤ n →
  outcome (goalSamplingThread_run n now o) = Return tt ∧
  samplingThread_ (final (goalSamplingThread_run n now o)) = Some PcDone ∧
  terminateSamplingThread_ (final (goalSamplingThread_run n now o)) = true.
Proof.
  revert now o. induction n as [|n IH]; intros now o Hstop Hmay [p Hpc] Hn.
  - unfold remaining, may_sample in *. rewrite Hpc in Hn, Hmay.
    cbn [goalSamplingThread_run]. unfold ret. rewrite outcome_triple, final_triple.
    destruct p; simpl in *; try lia; [|done].
    destruct (Hmay eq_refl) as [f Hf]. rewrite Hf in Hn. lia.
  - cbn [goalSamplingThread_run]. rewrite outcome_bind, final_bind.
    assert (Hdec : p = PcDone ∨ p ≠ PcDone) by (destruct p; auto).
    destruct Hdec as [->|Hp].
    + assert (Hstep : goalSamplingThread_step now o = (Return tt, o, [])).
      { exec. by rewrite Hpc. }
      rewrite Hstep, outcome_triple, final_triple.
      apply IH; [done | done | by rewrite Hpc | ].
      unfold remaining. rewrite Hpc. lia.
    + destruct (stopping_step now o Hstop Hmay) as (Hout & Hstop' & (p' & Hpc' & Hp') & Hlt);
        [by eauto|].
      rewrite Hout.
      apply IH; [done | | by rewrite Hpc' | lia].
      unfold may_sample. rewrite Hpc'. congruence.
Qed.

Lemma stopSampling_stops now o :
  may_sample o →
  outcome (stopSampling now o) = Return tt ∧
  samplingThread_ (final (stopSampling now o)) = None ∧
  terminateSamplingThread_ (final (stopSampling now o)) = true.
Proof.
  intros Hmay. unfold stopSampling.
  set (m := lock_guard _).
  assert (Hm : ∃ o1, m o = (Return tt, o1, [Acquire; Release]) ∧
                     terminateSamplingThread_ o1 = true ∧
                     samplingThread_ o1 = samplingThread_ o ∧
                     samplerFunc_ o1 = samplerFunc_ o).
  { subst m. exec. destruct (terminateSamplingThread_ o) eqn:Hstop; simpl; eauto. }
  destruct Hm as (o1 & Hm & Hstop & Hth & Hf).
  rewrite (bind_Return _ _ _ _ _ _ Hm), outcome_triple, final_triple.
  rewrite outcome_bind, final_bind.
  change (outcome (gets samplingThread_ o1))
    with (Return (A := option (pc State)) (samplingThread_ o1)).
  change (final (gets samplingThread_ o1)) with o1. cbv iota.
  destruct (samplingThread_ o1) as [p|] eqn:Hpc; [|done].
  rewrite outcome_bind, final_bind.
  destruct (stopping_run (remaining now o1) now o1) as (Hout & _ & Hstop');
    [done | | by rewrite Hpc | done |].
  { unfold may_sample in *. rewrite Hf, Hpc, Hth. exact Hmay. }
  change (join now o1) with (goalSamplingThread_run (remaining now o1) now o1).
  rewrite Hout. done.
Qed.


(** One round of the loop on three valid candidates, from the loop head;
    the sampling function is called at the second step. *)
Lemma round_of_three now o (f : GoalRegionSamplingFn State) (a b c : State) :
  samplingThread_ o = Some PcLoopHead →
  terminateSamplingThread_ o = false →
  samplerFunc_ o = Some f →
  f (S now) = [a; b; c] →
  Forall (λ s, satisfiesBounds (si_ (base o)) s = true ∧ isValid (si_ (base o)) s = true)
    [a; b; c] →
  (num_sampled_goals_ o < max_sampled_goals_ o)%Z →
  (0 <= num_sampled_goals_ o)%Z → (num_sampled_goals_ o + 3 < 2 ^ 32)%Z →
  let o' :=
    set_num_sampled_goals (num_sampled_goals_ o + 3)
      (set_base (set_states (states_ (base o) ++ [a; b; c]) (base o)) o) in
  outcome (goalSamplingThread_run 6 now o) = Return tt ∧
  final (goalSamplingThread_run 6 now o)
  = set_samplingThread (Some (PcCheckTarget true)) o'.
Proof.
  intros Hpc Hstop Hf Hcall Hvalid Hlt H0 Hmax o'.
  apply Forall_cons in Hvalid as [[Ha1 Ha2] Hvalid].
  apply Forall_cons in Hvalid as [[Hb1 Hb2] Hvalid].
  apply Forall_cons in Hvalid as [[Hc1 Hc2] _].
  assert (Hu1 : uint (num_sampled_goals_ o + 1) = (num_sampled_goals_ o + 1)%Z)
    by (apply Z.mod_small; lia).
  assert (Hu2 : uint (num_sampled_goals_ o + 1 + 1) = (num_sampled_goals_ o + 2)%Z)
    by (unfold uint; rewrite Z.mod_small; lia).
  assert (Hu3 : uint (num_sampled_goals_ o + 2 + 1) = (num_sampled_goals_ o + 3)%Z)
    by (unfold uint; rewrite Z.mod_small; lia).
  apply Z.ltb_lt in Hlt.
  subst o'. destruct o as [[si ty sts pos] sf stop th att md mx sg num q cb].
  simpl in *. subst. exec.
  rewrite Hlt. simpl. rewrite Hcall. simpl.
  rewrite Ha1, Ha2. simpl. rewrite Hb1, Hb2. simpl. rewrite Hc1, Hc2. simpl.
  rewrite Hu1, Hu2, Hu3. rewrite <- !app_assoc. done.
Qed.

Lemma run_then n m now o :
  outcome (goalSamplingThread_run n now o) = Return tt →
  outcome (goalSamplingThread_run (n + m) now o)
  = outcome (goalSamplingThread_run m (now + n) (final (goalSamplingThread_run n now o))) ∧
  final (goalSamplingThread_run (n + m) now o)
  = final (goalSamplingThread_run m (now + n) (final (goalSamplingThread_run n now o))).
Proof. intros H. by rewrite run_add, outcome_bind, final_bind, H. Qed.

(** From its start to the loop head, in a space that is set up. *)
Lemma startup now o (f : GoalRegionSamplingFn State) :
  samplingThread_ o = Some PcStart →
  terminateSamplingThread_ o = false →
  samplerFunc_ o = Some f →
  isSetup (si_ (base o)) = true →
  outcome (goalSamplingThread_run 3 now o) = Return tt ∧
  final (goalSamplingThread_run 3 now o) = set_samplingThread (Some PcLoopHead) o.
Proof.
  intros Hpc Hstop Hf Hsetup.
  destruct o as [[si ty sts pos] sf stop th att md mx sg num q cb].
  simpl in *. subst. exec. rewrite Hsetup. done.
Qed.

(** The end of a round: the test of the target, the flag, the count of
    the attempts. *)
Lemma finish_round now o (increase : bool) :
  samplingThread_ o = Some (PcCheckTarget increase) →
  let reached := (max_sampled_goals_ o <=? num_sampled_goals_ o)%Z in
  let o1 := if reached then set_sample_goals false o else o in
  let o2 := if increase then set_samplingAttempts (uint (samplingAttempts_ o + 1)) o1
            else o1 in
  outcome (goalSamplingThread_run (if reached then 3 else 2) now o) = Return tt ∧
  final (goalSamplingThread_run (if reached then 3 else 2) now o)
  = set_samplingThread (Some PcLoopHead) o2.
Proof.
  intros Hpc reached o1 o2. subst o2 o1 reached.
  destruct o as [[si ty sts pos] sf stop th att md mx sg num q cb].
  simpl in *. subst.
  destruct (mx <=? num)%Z eqn:Hr; cbn [goalSamplingThread_run]; exec;
    rewrite Hr; simpl; by destruct increase.
Qed.

(** The first twenty steps of the thread of a sampler started by its
    constructor, with a target of five goals and three valid candidates at
    every call. *)
Lemma twenty_steps cmp si (f : GoalRegionSamplingFn State) (minDist : Q) :
  isSetup si = true →
  (∀ now, length (f now) = 3 ∧
          Forall (λ s, satisfiesBounds si s = true ∧ isValid si s = true) (f now)) →
  let init : Obj := new cmp si (Some f) 5 true minDist in
  let o := final (goalSamplingThread_run 20 0 init) in
  outcome (goalSamplingThread_run 20 0 init) = Return tt ∧
  samplingThread_ o = Some PcLoopHead ∧
  states_ (base o) = f 4 ++ f 12 ∧
  num_sampled_goals_ o = 6%Z ∧ max_sampled_goals_ o = 5%Z ∧
  sample_goals_ o = false ∧ samplingAttempts_ o = 2%Z ∧
  terminateSamplingThread_ o = false.
Proof.
  intros Hsetup Hf init o. subst o.
  destruct (Hf 4) as [Hl4 Hv4]. destruct (Hf 12) as [Hl12 Hv12].
  destruct (f 4) as [|a1 [|b1 [|c1 [|]]]] eqn:H4; try done.
  destruct (f 12) as [|a2 [|b2 [|c2 [|]]]] eqn:H12; try done.
  (* 3 steps to the loop head *)
  destruct (startup 0 init f) as [Hout1 Hfin1]; try done.
  change 20 with (3 + (6 + (2 + (6 + 3)))).
  destruct (run_then 3 (6 + (2 + (6 + 3))) 0 init Hout1) as [-> ->].
  rewrite Hfin1. clear Hout1 Hfin1. change (0 + 3) with 3.
  (* the first round *)
  set (o1 := set_samplingThread (Some PcLoopHead) init).
  destruct (round_of_three 3 o1 f a1 b1 c1) as [Hout2 Hfin2]; try done.
  destruct (run_then 6 (2 + (6 + 3)) 3 o1 Hout2) as [-> ->].
  rewrite Hfin2. clear Hout2 Hfin2. change (3 + 6) with 9.
  set (o2 := set_samplingThread (Some (PcCheckTarget true)) _).
  destruct (finish_round 9 o2 true) as [Hout3 Hfin3]; [done|].
  change ((max_sampled_goals_ o2 <=? num_sampled_goals_ o2)%Z) with false in Hout3, Hfin3.
  cbv iota in Hout3, Hfin3.
  destruct (run_then 2 (6 + 3) 9 o2 Hout3) as [-> ->].
  rewrite Hfin3. clear Hout3 Hfin3. change (9 + 2) with 11.
  (* the second round *)
  set (o3 := set_samplingThread (Some PcLoopHead) _).
  destruct (round_of_three 11 o3 f a2 b2 c2) as [Hout4 Hfin4]; try done.
  destruct (run_then 6 3 11 o3 Hout4) as [-> ->].
  rewrite Hfin4. clear Hout4 Hfin4. change (11 + 6) with 17.
  set (o4 := set_samplingThread (Some (PcCheckTarget true)) _).
  destruct (finish_round 17 o4 true) as [Hout5 Hfin5]; [done|].
  change ((max_sampled_goals_ o4 <=? num_sampled_goals_ o4)%Z) with true in Hout5, Hfin5.
  cbv iota in Hout5, Hfin5.
  rewrite Hout5, Hfin5. done.
Qed.

(** The thread of the first class with three valid candidates at every
    call of the sampling function and a target of 5: from the twentieth
    step on the store holds the 6 states of the two rounds,
    num_sampled_goals_ is 6 and sample_goals_ is false. *)
Lemma two_rounds_then_idle cmp si (f : GoalRegionSamplingFn State)
    (minDist : Q) :
  isSetup si = true →
  (∀ now, length (f now) = 3 ∧
          Forall (λ s, satisfiesBounds si s = true ∧ isValid si s = true) (f now)) →
  let init : Obj := new cmp si (Some f) 5 true minDist in
  ∀ n, 20 ≤ n →
    let o := final (goalSamplingThread_run n 0 init) in
    outcome (goalSamplingThread_run n 0 init) = Return tt ∧
    states_ (base o) = f 4 ++ f 12 ∧
    length (states_ (base o)) = 6 ∧
    num_sampled_goals_ o = 6%Z ∧
    sample_goals_ o = false.
Proof.
  intros Hsetup Hf init n Hn.
  destruct (twenty_steps cmp si f minDist Hsetup Hf)
    as (Hout & Hpc & Hst & Hnum & Hmax & Hsg & _ & Hstop).
  fold init in Hout, Hpc, Hst, Hnum, Hmax, Hsg, Hstop.
  replace n with (20 + (n - 20)) by lia.
  destruct (run_then 20 (n - 20) 0 init Hout) as [-> ->].
  destruct (idle_run (n - 20) (0 + 20) (final (goalSamplingThread_run 20 0 init)))
    as (Hout' & p & _ & ->); [done | lia | by left |].
  split; [done|].
  cbn [set_samplingThread base num_sampled_goals_ sample_goals_].
  rewrite Hst, length_app.
  destruct (Hf 4) as [-> _]. destruct (Hf 12) as [-> _]. done.
Qed.

End Thread.

(** ** The lock and the new-state callback *)

Section Locking.
Import Ompl Samples.
Context {State Callback : Type}.
#[local] Abbreviation Obj := (@WeightedGoalRegionSamples State Callback).
#[local] Abbreviation WeightedGoal := (@Ompl.WeightedGoal State).
#[local] Abbreviation M := (@Ompl.M State Callback).
Implicit Types (o : Obj) (wg : WeightedGoal) (st : State).

Ltac exec :=
  unfold goalSamplingThread_step, clear, addState, addStateIfDifferent, getState,
    hasStates, getStateCount, maxSampleCount, distanceGoal, sampleGoal,
    startSampling, isSampling, goto, queue_read, queue_write, GoalStates_,
    GoalStates_addState, GoalStates_clear, GoalStates_hasStates,
    GoalStates_getStateCount, GoalStates_maxSampleCount, GoalStates_getState,
    GoalStates_distanceGoal, GoalStates_sampleGoal, zoom, lock_guard, bind, ret,
    gets, modify, tell, throw, undefined, final, outcome, trace, well_locked;
  simpl.

(** C7, as amended: every insertion adds exactly one state at the end of
    the goal store.  addStateIfDifferent inserts when the state is farther
    than minDistance from every stored goal and then, if a callback is
    registered, calls it once, after the lock is released; otherwise it
    leaves the store as it is.  addState and the insertion of the sampling
    thread hold the lock for the insertion and call no callback, registered
    or not. *)
Theorem store_insertion_paths st (minDistance : Q) (now : nat) o :
  length (states_ (base (push_back st o))) = S (length (states_ (base o))) ∧
  addState st o
  = (Return tt, push_back st o, [Acquire; Access GoalCollection true; Release]) ∧
  (∀ rest increase,
     samplingThread_ o = Some (PcFor (st :: rest) increase) →
     satisfiesBounds (si_ (base o)) st && isValid (si_ (base o)) st = true →
     states_ (base (final (goalSamplingThread_step now o))) = states_ (base o) ++ [st] ∧
     trace (goalSamplingThread_step now o)
     = [Acquire; Access GoalCollection true; Release]) ∧
  (farther (min_distance (si_ (base o)) st (states_ (base o))) minDistance = true →
   addStateIfDifferent st minDistance o
   = (Return true, push_back st o,
      match callback_ o with
      | Some f => [Acquire; Access GoalCollection false; Access GoalCollection true;
                   Access GoalCollection false; Release; NewState f st]
      | None => [Acquire; Access GoalCollection false; Access GoalCollection true;
                 Release]
      end)) ∧
  (farther (min_distance (si_ (base o)) st (states_ (base o))) minDistance = false →
   addStateIfDifferent st minDistance o
   = (Return false, o, [Acquire; Access GoalCollection false; Release])).
Proof.
  split_and!.
  - simpl. rewrite length_app. simpl. lia.
  - reflexivity.
  - intros rest increase Hpc Hvalid. exec. rewrite Hpc. simpl. rewrite Hvalid. done.
  - intros Hfar. exec. rewrite Hfar. simpl.
    destruct (callback_ o) as [f|] eqn:Hcb; simpl; rewrite ?last_snoc; simpl;
      rewrite ?Hcb; done.
  - intros Hfar. exec. rewrite Hfar. simpl. by destruct o.
Qed.

(** The functions that take the lock: their accesses to the goal store and
    to the queue all happen while it is held. *)
Lemma locked_functions st (minDistance : Q) (index : Z) (now : nat) o :
  well_locked (trace (clear o)) = true ∧
  well_locked (trace (addState st o)) = true ∧
  well_locked (trace (addStateIfDifferent st minDistance o)) = true ∧
  well_locked (trace (getState index o)) = true ∧
  well_locked (trace (hasStates o)) = true ∧
  well_locked (trace (getStateCount o)) = true ∧
  well_locked (trace (maxSampleCount o)) = true ∧
  well_locked (trace (distanceGoal st o)) = true ∧
  well_locked (trace (sampleGoal o)) = true ∧
  well_locked (trace (goalSamplingThread_step now o)) = true.
Proof.
  split_and!; exec; try done.
  - repeat case_match; simplify_eq/=; done.
  - repeat case_match; simplify_eq/=; done.
  - repeat case_match; simplify_eq/=; done.
  - destruct (samplingThread_ o) as [[| | | | | |[|s rest] inc|inc|inc|inc| |]|];
      simpl; try done; repeat case_match; simplify_eq/=; done.
Qed.

(** The functions of the weighted selection begin with an access made
    without the lock. *)
Lemma unlocked_functions wg o :
  well_locked (trace (penalizeWeightedGoal wg o)) = false ∧
  well_locked (trace (rewardWeightedGoal wg o)) = false ∧
  well_locked (trace (sampleWeightedGoal wg o)) = false ∧
  well_locked (trace (sampleConsecutiveGoal wg o)) = false.
Proof.
  unfold penalizeWeightedGoal, rewardWeightedGoal, sampleWeightedGoal,
    sampleConsecutiveGoal, queue_read.
  split_and!; rewrite trace_bind; rewrite trace_bind; done.
Qed.

(** C8, as amended: clear, addState, addStateIfDifferent, getState,
    hasStates, getStateCount, maxSampleCount, distanceGoal, sampleGoal and
    the sampling thread touch the goal store and the queue only while they
    hold the lock; penalizeWeightedGoal, rewardWeightedGoal,
    sampleWeightedGoal and sampleConsecutiveGoal touch them without taking
    it. *)
Theorem lock_discipline st (minDistance : Q) (index : Z) (now : nat) wg o :
  (well_locked (trace (clear o)) = true ∧
   well_locked (trace (addState st o)) = true ∧
   well_locked (trace (addStateIfDifferent st minDistance o)) = true ∧
   well_locked (trace (getState index o)) = true ∧
   well_locked (trace (hasStates o)) = true ∧
   well_locked (trace (getStateCount o)) = true ∧
   well_locked (trace (maxSampleCount o)) = true ∧
   well_locked (trace (distanceGoal st o)) = true ∧
   well_locked (trace (sampleGoal o)) = true ∧
   well_locked (trace (goalSamplingThread_step now o)) = true) ∧
  (well_locked (trace (penalizeWeightedGoal wg o)) = false ∧
   well_locked (trace (rewardWeightedGoal wg o)) = false ∧
   well_locked (trace (sampleWeightedGoal wg o)) = false ∧
   well_locked (trace (sampleConsecutiveGoal wg o)) = false).
Proof. split; [apply locked_functions | apply unlocked_functions]. Qed.

End Locking.

(** ** The two classes *)

Section TwoClasses.
Import Ompl.
Context {State Callback Planner : Type}.
#[local] Abbreviation Samples := (@Samples.WeightedGoalRegionSamples State Callback).
#[local] Abbreviation Sampler :=
  (@Sampler.WeightedGoalRegionSampler State Callback Planner).
#[local] Abbreviation WeightedGoal := (@Ompl.WeightedGoal State).
#[local] Abbreviation M := (@Ompl.M State Callback).
#[local] Abbreviation agree :=
  (agree (State := State) (Callback := Callback) (Planner := Planner)).

(** What agreement says of the result, and of the roadmap members. *)
Lemma agree_result {A} (m : M Sampler A) (m' : M Samples A) (o : Sampler) :
  agree m m' → m' (forget_roadmap o) = through (m o).
Proof. intros H. apply H. Qed.

Lemma agree_roadmap {A} (m : M Sampler A) (m' : M Samples A) (o : Sampler) :
  agree m m' → roadmap_members (final (m o)) = roadmap_members o.
Proof. intros H. apply H. Qed.

Lemma agree_ret {A} (a : A) : agree (ret a) (ret a).
Proof. by intros o. Qed.

Lemma agree_bind {A B} (m : M Sampler A) (m' : M Samples A)
    (k : A → M Sampler B) (k' : A → M Samples B) :
  agree m m' → (∀ a, agree (k a) (k' a)) → agree (bind m k) (bind m' k').
Proof.
  intros Hm Hk o. destruct (Hm o) as [Hm1 Hm2]. unfold bind. rewrite Hm1.
  unfold through, outcome, final, trace in *.
  destruct (m o) as [[[a| |] o1] t1]; simpl in *; try done.
  destruct (Hk a o1) as [Hk1 Hk2]. rewrite Hk1.
  unfold through, outcome, final, trace in *.
  destruct (k a o1) as [[r o2] t2]. simpl in *. split; [done | congruence].
Qed.

Lemma agree_gets {A} (f : Sampler → A) (f' : Samples → A) :
  (∀ o, f' (forget_roadmap o) = f o) → agree (gets f) (gets f').
Proof. intros H o. unfold gets, through. simpl. by rewrite H. Qed.

Lemma agree_modify (f : Sampler → Sampler) (f' : Samples → Samples) :
  (∀ o, f' (forget_roadmap o) = forget_roadmap (f o)) →
  (∀ o, roadmap_members (f o) = roadmap_members o) →
  agree (modify f) (modify f').
Proof. intros H Hr o. unfold modify, through, final. simpl. by rewrite H, Hr. Qed.

Lemma agree_tell (e : event) : agree (tell e) (tell e).
Proof. by intros o. Qed.

Lemma agree_throw {A} (e : exception) :
  agree (throw e : M Sampler A) (throw e : M Samples A).
Proof. by intros o. Qed.

Lemma agree_undefined {A} :
  agree (undefined : M Sampler A) (undefined : M Samples A).
Proof. by intros o. Qed.

Lemma agree_lock_guard {A} (m : M Sampler A) (m' : M Samples A) :
  agree m m' → agree (lock_guard m) (lock_guard m').
Proof.
  intros H o. destruct (H o) as [H1 H2]. unfold lock_guard. rewrite H1.
  unfold through, outcome, final, trace in *.
  by destruct (m o) as [[r o1] t1].
Qed.

Lemma agree_base {A} (m : M GoalStates A) :
  agree (Sampler.GoalStates_ m) (Samples.GoalStates_ m).
Proof.
  intros o. unfold Sampler.GoalStates_, Samples.GoalStates_, zoom, through, final.
  simpl. by destruct (m (Sampler.base o)) as [[r p] t].
Qed.

Ltac agree :=
  repeat first
    [ apply agree_ret
    | apply agree_tell
    | apply agree_throw
    | apply agree_undefined
    | apply agree_base
    | apply agree_lock_guard
    | apply agree_gets; intros; reflexivity
    | apply agree_modify; intros; reflexivity
    | apply agree_bind; [|intros ?]
    | case_match ].

Lemma agree_isSampling : agree Sampler.isSampling Samples.isSampling.
Proof. unfold Sampler.isSampling, Samples.isSampling. agree. Qed.

Lemma agree_startSampling : agree Sampler.startSampling Samples.startSampling.
Proof. unfold Sampler.startSampling, Samples.startSampling. agree. Qed.

Lemma agree_queue_read {A} (f : BinaryHeap → A) :
  agree (Sampler.queue_read f) (Samples.queue_read f).
Proof. unfold Sampler.queue_read, Samples.queue_read. agree. Qed.

Lemma agree_queue_write (f : BinaryHeap → option BinaryHeap) :
  agree (Sampler.queue_write f) (Samples.queue_write f).
Proof. unfold Sampler.queue_write, Samples.queue_write. agree. Qed.

Lemma agree_step (now : nat) :
  agree (Sampler.goalSamplingThread_step now) (Samples.goalSamplingThread_step now).
Proof.
  unfold Sampler.goalSamplingThread_step, Samples.goalSamplingThread_step,
    Sampler.goto, Samples.goto.
  apply agree_bind; [agree|]. intros [[| | | | | |[|s rest] inc|inc|inc|inc| |]|];
    agree; apply agree_isSampling.
Qed.

Lemma agree_run (n now : nat) :
  agree (Sampler.goalSamplingThread_run n now) (Samples.goalSamplingThread_run n now).
Proof.
  revert now. induction n as [|n IH]; intros now; simpl; [agree|].
  apply agree_bind; [apply agree_step | intros _; apply IH].
Qed.

Lemma agree_join (now : nat) : agree (Sampler.join now) (Samples.join now).
Proof. intros o. unfold Sampler.join, Samples.join. apply agree_run. Qed.

Lemma agree_stopSampling (now : nat) :
  agree (Sampler.stopSampling now) (Samples.stopSampling now).
Proof.
  unfold Sampler.stopSampling, Samples.stopSampling.
  apply agree_bind; [agree|]. intros _. apply agree_bind; [agree|].
  intros [p|]; [|agree]. apply agree_bind; [apply agree_join | intros _; agree].
Qed.

Lemma agree_reset_weights (l : list WeightedGoal) :
  agree (Sampler.reset_weights l) (Samples.reset_weights l).
Proof.
  induction l as [|g l IH]; simpl; [agree|].
  destruct (heap_element_ g); [|agree].
  repeat (apply agree_bind; [apply agree_queue_write | intros _]). exact IH.
Qed.

Lemma agree_penalize (wg : WeightedGoal) :
  agree (Sampler.penalizeWeightedGoal wg) (Samples.penalizeWeightedGoal wg).
Proof.
  unfold Sampler.penalizeWeightedGoal, Samples.penalizeWeightedGoal.
  apply agree_bind; [apply agree_queue_read|]. intros e.
  destruct (heap_element_ wg); [|agree]. destruct e as [[pos e]|]; [|agree].
  do 2 (apply agree_bind; [apply agree_queue_write | intros _]).
  apply agree_bind; [agree|]. intros sg. case_match; [|agree].
  apply agree_bind; [apply agree_queue_read|]. intros existing.
  apply agree_bind; [apply agree_reset_weights|]. intros _. agree.
Qed.

Lemma agree_reward (wg : WeightedGoal) :
  agree (Sampler.rewardWeightedGoal wg) (Samples.rewardWeightedGoal wg).
Proof.
  unfold Sampler.rewardWeightedGoal, Samples.rewardWeightedGoal.
  apply agree_bind; [apply agree_queue_read|]. intros e.
  destruct (heap_element_ wg); [|agree]. destruct e as [[pos e]|]; [|agree].
  case_match; [|agree].
  apply agree_bind; [apply agree_queue_write | intros _; apply agree_queue_write].
Qed.

Lemma roadmap_step_roadmap_only (o : Sampler) :
  forget_roadmap (final (Sampler.roadmapGrowingThread_step o)) = forget_roadmap o.
Proof.
  unfold Sampler.roadmapGrowingThread_step, Sampler.isGrowingRoadmap, lock_guard, bind,
    gets, modify, tell, ret, undefined, final. simpl.
  destruct (Sampler.growingRoadmapThread_ o) as [[]|] eqn:Hth; simpl; try done.
  - by destruct (negb _ && _).
  - by destruct (Sampler.prm_planner_ o).
  - by destruct (Sampler.prm_planner_ o).
Qed.

Lemma roadmap_run_roadmap_only (n : nat) (o : Sampler) :
  forget_roadmap (final (Sampler.roadmapGrowingThread_run n o)) = forget_roadmap o.
Proof.
  revert o. induction n as [|n IH]; intros o; [done|].
  simpl. rewrite final_bind.
  destruct (outcome (Sampler.roadmapGrowingThread_step o));
    rewrite ?IH; apply roadmap_step_roadmap_only.
Qed.

Lemma stopGrowingRoadmap_roadmap_only (o : Sampler) :
  forget_roadmap (final (Sampler.stopGrowingRoadmap o)) = forget_roadmap o.
Proof.
  unfold Sampler.stopGrowingRoadmap. rewrite final_bind.
  set (m := lock_guard _).
  assert (Hm : forget_roadmap (final (m o)) = forget_roadmap o).
  { subst m. unfold lock_guard, bind, gets, modify, ret, final. simpl.
    by destruct (Sampler.terminateGrowingRoadmapThread_ o). }
  destruct (outcome (m o)); [|done..].
  rewrite final_bind.
  change (outcome (gets Sampler.growingRoadmapThread_ (final (m o))))
    with (Return (A := option roadmap_pc) (Sampler.growingRoadmapThread_ (final (m o)))).
  change (final (gets Sampler.growingRoadmapThread_ (final (m o)))) with (final (m o)).
  cbv iota.
  destruct (Sampler.growingRoadmapThread_ (final (m o))); [|done].
  rewrite final_bind. unfold Sampler.join_roadmap.
  pose proof (roadmap_run_roadmap_only 3 (final (m o))) as Hrun.
  destruct (outcome (Sampler.roadmapGrowingThread_run 3 (final (m o))));
    [|by rewrite Hrun..].
  unfold modify, final at 1. simpl. by rewrite <- Hm, <- Hrun.
Qed.

(** C9: on every object of the class WeightedGoalRegionSampler, each
    function the two classes share returns the same result, records the
    same events and updates the members the classes share in the same way
    as the function of WeightedGoalRegionSamples does on the object without
    the roadmap members, and leaves the roadmap members
    (terminateGrowingRoadmapThread_, growingRoadmapThread_, prm_planner_)
    as they are; the constructors agree, the second one leaving the
    roadmap flag false and both pointers null; and the functions the second
    class adds change the roadmap members only. *)
Theorem classes_agree :
  (∀ now, agree (Sampler.goalSamplingThread_step now) (Samples.goalSamplingThread_step now)) ∧
  (∀ n now, agree (Sampler.goalSamplingThread_run n now)
              (Samples.goalSamplingThread_run n now)) ∧
  (∀ wg, agree (Sampler.penalizeWeightedGoal wg) (Samples.penalizeWeightedGoal wg)) ∧
  (∀ wg, agree (Sampler.rewardWeightedGoal wg) (Samples.rewardWeightedGoal wg)) ∧
  (∀ wg, agree (Sampler.sampleWeightedGoal wg) (Samples.sampleWeightedGoal wg)) ∧
  (∀ wg, agree (Sampler.sampleConsecutiveGoal wg) (Samples.sampleConsecutiveGoal wg)) ∧
  agree Sampler.clear Samples.clear ∧
  (∀ st d, agree (Sampler.addStateIfDifferent st d) (Samples.addStateIfDifferent st d)) ∧
  agree Sampler.startSampling Samples.startSampling ∧
  (∀ now, agree (Sampler.stopSampling now) (Samples.stopSampling now)) ∧
  agree Sampler.isSampling Samples.isSampling ∧
  agree Sampler.couldSample Samples.couldSample ∧
  (∀ st, agree (Sampler.addState st) (Samples.addState st)) ∧
  (∀ st, agree (Sampler.distanceGoal st) (Samples.distanceGoal st)) ∧
  agree Sampler.sampleGoal Samples.sampleGoal ∧
  (∀ i, agree (Sampler.getState i) (Samples.getState i)) ∧
  agree Sampler.hasStates Samples.hasStates ∧
  agree Sampler.getStateCount Samples.getStateCount ∧
  agree Sampler.maxSampleCount Samples.maxSampleCount ∧
  (∀ f, agree (Sampler.setNewStateCallback f) (Samples.setNewStateCallback f)) ∧
  (∀ cmp si f max autoStart minDist,
     forget_roadmap (Sampler.new cmp si f max autoStart minDist : Sampler)
     = Samples.new cmp si f max autoStart minDist ∧
     roadmap_members (Sampler.new cmp si f max autoStart minDist : Sampler)
     = (false, None, None)) ∧
  (∀ o : Sampler,
     forget_roadmap (final (Sampler.startGrowingRoadmap o)) = forget_roadmap o) ∧
  (∀ o : Sampler,
     forget_roadmap (final (Sampler.stopGrowingRoadmap o)) = forget_roadmap o) ∧
  (∀ o : Sampler,
     forget_roadmap (final (Sampler.roadmapGrowingThread_step o)) = forget_roadmap o) ∧
  (∀ now (o : Sampler), outcome (Sampler.stopSampling now o) = Return tt →
            forget_roadmap (final (Sampler.delete now o))
            = final (Samples.delete now (forget_roadmap o))).
Proof.
  split_and!.
  - apply agree_step.
  - apply agree_run.
  - apply agree_penalize.
  - apply agree_reward.
  - intros wg. unfold Sampler.sampleWeightedGoal, Samples.sampleWeightedGoal.
    agree.
  - intros wg. unfold Sampler.sampleConsecutiveGoal, Samples.sampleConsecutiveGoal.
    agree.
  - unfold Sampler.clear, Samples.clear. agree.
  - intros st d. unfold Sampler.addStateIfDifferent, Samples.addStateIfDifferent,
      Sampler.farther, Samples.farther. agree.
  - apply agree_startSampling.
  - apply agree_stopSampling.
  - apply agree_isSampling.
  - unfold Sampler.couldSample, Samples.couldSample. agree.
  - intros st. unfold Sampler.addState, Samples.addState. agree.
  - intros st. unfold Sampler.distanceGoal, Samples.distanceGoal. agree.
  - unfold Sampler.sampleGoal, Samples.sampleGoal. agree.
  - intros i. unfold Sampler.getState, Samples.getState. agree.
  - unfold Sampler.hasStates, Samples.hasStates. agree.
  - unfold Sampler.getStateCount, Samples.getStateCount. agree.
  - unfold Sampler.maxSampleCount, Samples.maxSampleCount. agree.
  - intros f. unfold Sampler.setNewStateCallback, Samples.setNewStateCallback. agree.
  - intros cmp si f max autoStart minDist. unfold Sampler.new, Samples.new.
    destruct autoStart; split; reflexivity.
  - intros o. unfold Sampler.startGrowingRoadmap, lock_guard, bind, gets, modify, ret,
      final. simpl. by destruct (Sampler.growingRoadmapThread_ o).
  - apply stopGrowingRoadmap_roadmap_only.
  - apply roadmap_step_roadmap_only.
  - intros now o Hout. unfold Sampler.delete, Samples.delete.
    rewrite final_bind, Hout, stopGrowingRoadmap_roadmap_only.
    by rewrite (agree_result _ _ o (agree_stopSampling now)).
Qed.

End TwoClasses.

(** ** Instances of the claims on the thread, the store and the lock *)

Section ThreadInstances.
Import Ompl Samples Examples.

Lemma three_per_call_valid (now : nat) :
  length (three_per_call now) = 3 ∧
  Forall (λ s, satisfiesBounds si_ready s = true ∧ isValid si_ready s = true)
    (three_per_call now).
Proof. split; [reflexivity | repeat constructor]. Defined.

(** C1 as stated fails, in both classes: with three valid candidates per
    call and a target of 5 the loop has stopped producing after twenty
    steps, and the store holds 6 states, not 5; a hundred steps later
    nothing has changed. *)
Lemma store_holds_six_not_five :
  (sample_goals_ paused = false ∧
   states_ (base paused) = [12; 13; 14; 36; 37; 38] ∧
   length (states_ (base paused)) ≠ 5 ∧
   states_ (base (final (goalSamplingThread_run 100 20 paused))) = states_ (base paused) ∧
   sample_goals_ (final (goalSamplingThread_run 100 20 paused)) = false) ∧
  (Sampler.sample_goals_ paused_sampler = false ∧
   states_ (Sampler.base paused_sampler) = [12; 13; 14; 36; 37; 38] ∧
   length (states_ (Sampler.base paused_sampler)) ≠ 5 ∧
   states_ (Sampler.base (final (Sampler.goalSamplingThread_run 100 20 paused_sampler)))
   = states_ (Sampler.base paused_sampler) ∧
   Sampler.sample_goals_ (final (Sampler.goalSamplingThread_run 100 20 paused_sampler))
   = false).
Proof. vm_compute. repeat split; discriminate. Qed.



Lemma store_insertion_paths_witness :
  farther (min_distance (si_ (base paused_with_callback)) 18
             (states_ (base paused_with_callback))) 1 = true ∧
  addStateIfDifferent 18 1 paused_with_callback
  = (Return true, push_back 18 paused_with_callback,
     [Acquire; Access GoalCollection false; Access GoalCollection true;
      Access GoalCollection false; Release; NewState 1 18]) ∧
  farther (min_distance (si_ (base paused_with_callback)) 15
             (states_ (base paused_with_callback))) 1 = false ∧
  addStateIfDifferent 15 1 paused_with_callback
  = (Return false, paused_with_callback, [Acquire; Access GoalCollection false; Release]).
Proof.
  destruct (store_insertion_paths 18 1 0 paused_with_callback) as (_ & _ & _ & Hfar & _).
  destruct (store_insertion_paths 15 1 0 paused_with_callback) as (_ & _ & _ & _ & Hnear).
  split; [reflexivity|]. split; [exact (Hfar eq_refl)|].
  split; [reflexivity|]. exact (Hnear eq_refl).
Defined.

(** C7 as stated fails: a callback is registered; addState stores the state
    and the sampling thread stores its candidate, and neither calls the
    callback. *)
Lemma insertion_without_callback :
  callback_ paused_with_callback = Some 1 ∧
  states_ (base (final (addState 7 paused_with_callback)))
  = states_ (base paused_with_callback) ++ [7] ∧
  filter (λ e, is_callback e = true) (trace (addState 7 paused_with_callback)) = [] ∧
  callback_ inserting = Some 1 ∧
  states_ (base (final (goalSamplingThread_step 0 inserting)))
  = states_ (base inserting) ++ [7] ∧
  filter (λ e, is_callback e = true) (trace (goalSamplingThread_step 0 inserting)) = [].
Proof. vm_compute. repeat split. Qed.

(** C8 as stated fails: penalizeWeightedGoal, rewardWeightedGoal and
    sampleWeightedGoal read and write the queue, and never take the lock. *)
Lemma selection_without_lock :
  trace (penalizeWeightedGoal (handle 1) paused_with_goals)
  = [Access WeightQueue false; Access WeightQueue true; Access WeightQueue true] ∧
  trace (rewardWeightedGoal (handle 1) paused_with_goals)
  = [Access WeightQueue false; Access WeightQueue true; Access WeightQueue true] ∧
  trace (sampleWeightedGoal (handle 1) paused_with_goals)
  = [Access GoalCollection false; Access WeightQueue false] ∧
  well_locked (trace (penalizeWeightedGoal (handle 1) paused_with_goals)) = false.
Proof. vm_compute. repeat split. Qed.

Lemma target_reached_when_paused_witness :
  reachable fresh paused ∧
  sample_goals_ paused = false ∧
  (max_sampled_goals_ paused <= num_sampled_goals_ paused)%Z.
Proof.
  assert (Hr : reachable fresh paused) by (apply thread_run_reachable; constructor).
  split; [exact Hr|]. split; [reflexivity|].
  destruct (target_reached_when_paused (Callback := nat) by_weight si_ready
              (Some three_per_call) 5 true 0) as [_ Hinv].
  exact (Hinv paused Hr eq_refl).
Defined.

End ThreadInstances.

(** * Further properties of the two files *)

(** ** The lock is never taken twice *)

Section LockFacts.
Import Ompl.
Context {State Callback : Type}.
#[local] Abbreviation event := (@Ompl.event State Callback).
#[local] Abbreviation M := (@Ompl.M State Callback).
#[local] Abbreviation lockless := (Ompl.lockless (State := State) (Callback := Callback)).
#[local] Abbreviation proper := (Ompl.proper (State := State) (Callback := Callback)).

Lemma lock_free_app (held : bool) (t1 t2 : list event) :
  lock_free_from held t1 = true →
  lock_free_from held (t1 ++ t2) = lock_free_from false t2.
Proof.
  revert held. induction t1 as [|e t1 IH]; intros held H; simpl in *.
  - by destruct held.
  - destruct e; try by apply IH.
    + apply andb_true_iff in H as [-> H]. by apply IH.
    + apply andb_true_iff in H as [-> H]. by apply IH.
Qed.

Lemma lock_free_lockless (held : bool) (t : list event) :
  Forall (λ e, is_lock_event e = false) t →
  lock_free_from held t = negb held.
Proof.
  induction 1 as [|e t He _ IH]; [done|]. by destruct e.
Qed.

Lemma lock_free_guard (t : list event) :
  Forall (λ e, is_lock_event e = false) t →
  balanced (Acquire :: t ++ [Release]) = true.
Proof.
  intros H. unfold balanced. simpl.
  induction H as [|e t He _ IH]; [done|]. by destruct e.
Qed.

Lemma lockless_ret {O A} (a : A) : lockless (ret a : M O A).
Proof. intros o. constructor. Qed.

Lemma lockless_gets {O A} (f : O → A) : lockless (gets f).
Proof. intros o. constructor. Qed.

Lemma lockless_modify {O} (f : O → O) : lockless (modify f).
Proof. intros o. constructor. Qed.

Lemma lockless_throw {O A} (e : exception) : lockless (throw e : M O A).
Proof. intros o. constructor. Qed.

Lemma lockless_undefined {O A} : lockless (undefined : M O A).
Proof. intros o. constructor. Qed.

Lemma lockless_tell {O} (e : event) :
  is_lock_event e = false → lockless (tell e : M O unit).
Proof. intros He o. by repeat constructor. Qed.

Lemma lockless_bind {O A B} (m : M O A) (k : A → M O B) :
  lockless m → (∀ a, lockless (k a)) → lockless (bind m k).
Proof.
  intros Hm Hk o. rewrite trace_bind. specialize (Hm o).
  destruct (outcome (m o)); [|done..]. apply Forall_app. split; [done | apply Hk].
Qed.

Lemma lockless_zoom {O P A} (get : O → P) (set : P → O → O) (m : M P A) :
  lockless m → lockless (zoom get set m).
Proof.
  intros Hm o. specialize (Hm (get o)). unfold zoom, trace in *.
  by destruct (m (get o)) as [[r p] t].
Qed.

Lemma proper_lockless {O A} (m : M O A) : lockless m → proper m.
Proof. intros Hm o. unfold balanced. by rewrite lock_free_lockless. Qed.

Lemma proper_lock_guard {O A} (m : M O A) : lockless m → proper (lock_guard m).
Proof.
  intros Hm o. specialize (Hm o). unfold lock_guard, trace in *.
  destruct (m o) as [[r o1] t]. by apply lock_free_guard.
Qed.

Lemma proper_bind {O A B} (m : M O A) (k : A → M O B) :
  proper m → (∀ a, proper (k a)) → proper (bind m k).
Proof.
  intros Hm Hk o. rewrite trace_bind. specialize (Hm o).
  destruct (outcome (m o)); [|done..].
  unfold balanced in *. rewrite lock_free_app by done. apply Hk.
Qed.

End LockFacts.

Ltac lockless :=
  repeat first
    [ apply lockless_ret
    | apply lockless_gets
    | apply lockless_modify
    | apply lockless_throw
    | apply lockless_undefined
    | apply lockless_tell; reflexivity
    | apply lockless_zoom
    | apply lockless_bind; [|intros ?]
    | case_match ].

Ltac proper :=
  repeat first
    [ apply proper_lock_guard; lockless
    | apply proper_bind; [|intros ?]
    | case_match
    | apply proper_lockless; lockless ].

Section NoNesting.
Import Ompl.
Context {State Callback Planner : Type}.
#[local] Abbreviation Samples := (@Samples.WeightedGoalRegionSamples State Callback).
#[local] Abbreviation Sampler :=
  (@Sampler.WeightedGoalRegionSampler State Callback Planner).
#[local] Abbreviation M := (@Ompl.M State Callback).
#[local] Abbreviation proper := (Ompl.proper (State := State) (Callback := Callback)).

Lemma proper_thread_step (now : nat) :
  proper (Samples.goalSamplingThread_step now).
Proof.
  unfold Samples.goalSamplingThread_step, Samples.isSampling, Samples.goto,
    Samples.GoalStates_, GoalStates_addState.
  apply proper_bind; [proper|].
  intros [[| | | | | |[|s rest] inc|inc|inc|inc| |]|]; proper.
Qed.

Lemma proper_thread_run (n now : nat) :
  proper (Samples.goalSamplingThread_run n now).
Proof.
  revert now. induction n as [|n IH]; intros now; simpl; [proper|].
  apply proper_bind; [apply proper_thread_step | intros _; apply IH].
Qed.

Lemma proper_stopSampling (now : nat) : proper (Samples.stopSampling now).
Proof.
  unfold Samples.stopSampling.
  apply proper_bind; [proper|]. intros _.
  apply proper_bind; [proper|]. intros [p|]; [|proper].
  apply proper_bind; [|intros _; proper].
  intros o. unfold Samples.join. apply proper_thread_run.
Qed.

Lemma proper_sampler_step (now : nat) :
  proper (Sampler.goalSamplingThread_step now : M Sampler unit).
Proof.
  unfold Sampler.goalSamplingThread_step, Sampler.isSampling, Sampler.goto,
    Sampler.GoalStates_, GoalStates_addState.
  apply proper_bind; [proper|].
  intros [[| | | | | |[|s rest] inc|inc|inc|inc| |]|]; proper.
Qed.

Lemma proper_sampler_run (n now : nat) :
  proper (Sampler.goalSamplingThread_run n now : M Sampler unit).
Proof.
  revert now. induction n as [|n IH]; intros now; simpl; [proper|].
  apply proper_bind; [apply proper_sampler_step | intros _; apply IH].
Qed.

Lemma proper_sampler_stopSampling (now : nat) :
  proper (Sampler.stopSampling now : M Sampler unit).
Proof.
  unfold Sampler.stopSampling.
  apply proper_bind; [proper|]. intros _.
  apply proper_bind; [proper|]. intros [p|]; [|proper].
  apply proper_bind; [|intros _; proper].
  intros o. unfold Sampler.join. apply proper_sampler_run.
Qed.

Lemma proper_roadmap_step :
  proper (Sampler.roadmapGrowingThread_step : M Sampler unit).
Proof.
  unfold Sampler.roadmapGrowingThread_step, Sampler.isGrowingRoadmap.
  apply proper_bind; [proper|]. intros [[]|]; proper.
Qed.

Lemma proper_roadmap_run (n : nat) :
  proper (Sampler.roadmapGrowingThread_run n : M Sampler unit).
Proof.
  induction n as [|n IH]; simpl; [proper|].
  apply proper_bind; [apply proper_roadmap_step | intros _; apply IH].
Qed.

Lemma proper_stopGrowingRoadmap :
  proper (Sampler.stopGrowingRoadmap : M Sampler unit).
Proof.
  unfold Sampler.stopGrowingRoadmap.
  apply proper_bind; [proper|]. intros _.
  apply proper_bind; [proper|]. intros [p|]; [|proper].
  apply proper_bind; [|intros _; proper].
  apply proper_roadmap_run.
Qed.

(** X2: no member function and neither thread takes lock_ while holding
    it, and each leaves it free, also when it throws: every lock_guard
    scope is closed before the next one opens.  In particular couldSample
    calls maxSampleCount and isSampling one after the other,
    addStateIfDifferent calls the functions of the base class inside its
    scope, and stopSampling, stopGrowingRoadmap and the destructors have
    released the lock before they join a thread, whose steps take it
    themselves. *)
Theorem no_nested_locking (st : State) (minDistance : Q) (index : Z) (n now : nat)
    (o : Samples) (o' : Sampler) :
  (balanced (trace (Samples.startSampling o)) = true ∧
   balanced (trace (Samples.stopSampling now o)) = true ∧
   balanced (trace (Samples.delete now o)) = true ∧
   balanced (trace (Samples.goalSamplingThread_run n now o)) = true ∧
   balanced (trace (Samples.isSampling o)) = true ∧
   balanced (trace (Samples.couldSample o)) = true ∧
   balanced (trace (Samples.clear o)) = true ∧
   balanced (trace (Samples.distanceGoal st o)) = true ∧
   balanced (trace (Samples.sampleGoal o)) = true ∧
   balanced (trace (Samples.addState st o)) = true ∧
   balanced (trace (Samples.getState index o)) = true ∧
   balanced (trace (Samples.hasStates o)) = true ∧
   balanced (trace (Samples.getStateCount o)) = true ∧
   balanced (trace (Samples.maxSampleCount o)) = true ∧
   balanced (trace (Samples.addStateIfDifferent st minDistance o)) = true) ∧
  (balanced (trace (Sampler.startGrowingRoadmap o')) = true ∧
   balanced (trace (Sampler.stopGrowingRoadmap o')) = true ∧
   balanced (trace (Sampler.roadmapGrowingThread_run n o')) = true ∧
   balanced (trace (Sampler.isGrowingRoadmap o')) = true ∧
   balanced (trace (Sampler.stopSampling now o')) = true ∧
   balanced (trace (Sampler.delete now o')) = true).
Proof.
  split; split_and!;
    try match goal with
        | |- balanced (trace (?m ?x)) = true => revert x; change (proper m)
        end.
  - unfold Samples.startSampling. proper.
  - apply proper_stopSampling.
  - apply proper_stopSampling.
  - apply proper_thread_run.
  - unfold Samples.isSampling. proper.
  - unfold Samples.couldSample, Samples.isSampling, Samples.GoalStates_,
      GoalStates_maxSampleCount. proper.
  - unfold Samples.clear, Samples.GoalStates_, GoalStates_clear, Samples.queue_write.
    proper.
  - unfold Samples.distanceGoal, Samples.GoalStates_, GoalStates_distanceGoal. proper.
  - unfold Samples.sampleGoal, Samples.GoalStates_, GoalStates_sampleGoal. proper.
  - unfold Samples.addState, Samples.GoalStates_, GoalStates_addState. proper.
  - unfold Samples.getState, Samples.GoalStates_, GoalStates_getState. proper.
  - unfold Samples.hasStates, Samples.GoalStates_, GoalStates_hasStates. proper.
  - unfold Samples.getStateCount, Samples.GoalStates_, GoalStates_getStateCount. proper.
  - unfold Samples.maxSampleCount, Samples.GoalStates_, GoalStates_maxSampleCount. proper.
  - unfold Samples.addStateIfDifferent, Samples.GoalStates_, GoalStates_distanceGoal,
      GoalStates_addState. proper.
  - unfold Sampler.startGrowingRoadmap. proper.
  - apply proper_stopGrowingRoadmap.
  - apply proper_roadmap_run.
  - unfold Sampler.isGrowingRoadmap. proper.
  - apply proper_sampler_stopSampling.
  - unfold Sampler.delete.
    apply proper_bind; [apply proper_sampler_stopSampling|].
    intros _. apply proper_stopGrowingRoadmap.
Qed.

End NoNesting.

(** ** A round of the sampling loop *)

Section Round.
Import Ompl Samples.
Context {State Callback : Type}.
#[local] Abbreviation Obj := (@WeightedGoalRegionSamples State Callback).
#[local] Abbreviation M := (@Ompl.M State Callback).
Implicit Types (o : Obj) (now n : nat).

Ltac exec :=
  unfold goalSamplingThread_step, startSampling, isSampling, goto, GoalStates_,
    GoalStates_addState, zoom, lock_guard, bind, ret, gets, modify, tell, throw,
    undefined, final, outcome, trace;
  simpl.

Lemma uint_range z : (0 <= uint z < 2 ^ 32)%Z.
Proof. unfold uint. apply Z.mod_pos_bound. lia. Qed.

Lemma uint_succ_add z (k : nat) :
  uint (uint (z + 1) + Z.of_nat k) = uint (z + Z.of_nat (S k)).
Proof.
  unfold uint. rewrite Zplus_mod_idemp_l. f_equal. lia.
Qed.

Lemma run_S n now o :
  goalSamplingThread_run (S n) now o
  = bind (goalSamplingThread_step now) (λ _, goalSamplingThread_run n (S now)) o.
Proof. reflexivity. Qed.

Lemma existsb_accepted (si : SpaceInformation) (l : list State) :
  existsb (λ s, satisfiesBounds si s && isValid si s) l
  = match accepted si l with [] => false | _ :: _ => true end.
Proof.
  induction l as [|s l IH]; [done|]. unfold accepted in *. simpl.
  by destruct (satisfiesBounds si s && isValid si s).
Qed.

(** The loop over the candidates of a batch (lines 130-146). *)
Lemma for_loop l now o (inc : bool) :
  samplingThread_ o = Some (PcFor l inc) →
  (0 <= num_sampled_goals_ o < 2 ^ 32)%Z →
  outcome (goalSamplingThread_run (S (length l)) now o) = Return tt ∧
  final (goalSamplingThread_run (S (length l)) now o)
  = set_samplingThread
      (Some (PcCheckTarget
               (inc || existsb (λ s, satisfiesBounds (si_ (base o)) s
                                     && isValid (si_ (base o)) s) l)))
      (after_batch l o).
Proof.
  revert now o inc. induction l as [|s l IH]; intros now o inc Hpc Hnum.
  - destruct o as [[si ty sts pos] sf stop th att md mx sg num q cb].
    simpl in *. subst. exec. unfold after_batch. simpl.
    rewrite orb_false_r, app_nil_r, Z.add_0_r.
    unfold uint. rewrite Z.mod_small by lia. done.
  - change (length (s :: l)) with (S (length l)). rewrite run_S.
    destruct (satisfiesBounds (si_ (base o)) s && isValid (si_ (base o)) s) eqn:Hv.
    + assert (Hstep : goalSamplingThread_step now o
                      = (Return tt,
                         set_samplingThread (Some (PcFor l true))
                           (set_base (set_states (states_ (base o) ++ [s]) (base o))
                              (set_num_sampled_goals (uint (num_sampled_goals_ o + 1)) o)),
                         [Acquire; Access GoalCollection true; Release])).
      { exec. rewrite Hpc. simpl. rewrite Hv. done. }
      set (o1 := set_samplingThread _ _) in Hstep.
      rewrite (bind_Return _ _ _ _ _ _ Hstep), outcome_triple, final_triple.
      destruct (IH (S now) o1 true eq_refl (uint_range _)) as [Hout Hfin].
      rewrite Hout, Hfin. split; [done|]. subst o1.
      unfold after_batch, accepted. simpl. rewrite Hv. simpl.
      rewrite orb_true_r, uint_succ_add, <- app_assoc. done.
    + assert (Hstep : goalSamplingThread_step now o
                      = (Return tt, set_samplingThread (Some (PcFor l inc)) o, [])).
      { exec. rewrite Hpc. simpl. rewrite Hv. done. }
      rewrite (bind_Return _ _ _ _ _ _ Hstep), outcome_triple, final_triple.
      destruct (IH (S now) (set_samplingThread (Some (PcFor l inc)) o) inc eq_refl Hnum)
        as [Hout Hfin].
      rewrite Hout, Hfin. split; [done|].
      unfold after_batch, accepted. simpl. rewrite Hv. simpl. done.
Qed.

(** From the loop head to the loop over a new batch (lines 119-124). *)
Lemma enter_round now o (f : GoalRegionSamplingFn State) :
  samplingThread_ o = Some PcLoopHead →
  terminateSamplingThread_ o = false →
  samplerFunc_ o = Some f →
  (num_sampled_goals_ o < max_sampled_goals_ o)%Z →
  outcome (goalSamplingThread_run 2 now o) = Return tt ∧
  final (goalSamplingThread_run 2 now o)
  = set_samplingThread (Some (PcFor (f (S now)) false)) o.
Proof.
  intros Hpc Hstop Hf Hlt. apply Z.ltb_lt in Hlt.
  destruct o as [[si ty sts pos] sf stop th att md mx sg num q cb].
  simpl in *. subst. exec. rewrite Hlt. done.
Qed.

(** A whole round on the batch [l]. *)
Lemma round_on l now o :
  samplingThread_ o = Some PcLoopHead →
  (0 <= num_sampled_goals_ o < 2 ^ 32)%Z →
  outcome (goalSamplingThread_run 2 now o) = Return tt →
  final (goalSamplingThread_run 2 now o) = set_samplingThread (Some (PcFor l false)) o →
  outcome (goalSamplingThread_run (round_steps l o) now o) = Return tt ∧
  final (goalSamplingThread_run (round_steps l o) now o) = after_round l o.
Proof.
  intros Hpc Hnum Hout1 Hfin1.
  set (o1 := set_samplingThread (Some (PcFor l false)) o) in *.
  destruct (for_loop l (now + 2) o1 false eq_refl Hnum) as [Hout2 Hfin2].
  set (o2 := set_samplingThread _ (after_batch l o1)) in *.
  destruct (finish_round (now + 2 + S (length l)) o2 _ eq_refl) as [Hout3 Hfin3].
  set (k := if (max_sampled_goals_ o2 <=? num_sampled_goals_ o2)%Z then 3 else 2) in *.
  assert (Hsteps : round_steps l o = 2 + (S (length l) + k)).
  { unfold round_steps. subst k o2 o1. simpl. destruct (_ <=? _)%Z; lia. }
  rewrite Hsteps.
  destruct (run_then 2 (S (length l) + k) now o Hout1) as [-> ->]. rewrite Hfin1.
  destruct (run_then (S (length l)) k (now + 2) o1 Hout2) as [-> ->]. rewrite Hfin2.
  rewrite Hout3, Hfin3. split; [done|].
  unfold after_round. subst o2 o1.
  destruct o as [[si ty sts pos] sf stop th att md mx sg num q cb].
  simpl in *. subst. unfold after_batch. simpl.
  destruct (existsb _ l); destruct (_ <=? _)%Z; reflexivity.
Qed.

(** X1: one round of the loop of goalSamplingThread, from the loop head,
    while no stop is requested and the count is below the target.  The
    round ends at the loop head again; the candidates of the batch that
    pass satisfiesBounds and isValid, and no others, have been added to the
    end of the store in the order of the batch; num_sampled_goals_ has
    grown by their number (as an unsigned int); sample_goals_ is false if
    the count has reached the target and is as before otherwise;
    samplingAttempts_ has grown by one if a candidate was accepted and not
    at all otherwise; nothing else has changed. *)
Theorem sampling_round now o (f : GoalRegionSamplingFn State) :
  samplingThread_ o = Some PcLoopHead →
  terminateSamplingThread_ o = false →
  samplerFunc_ o = Some f →
  (0 <= num_sampled_goals_ o < max_sampled_goals_ o)%Z →
  (num_sampled_goals_ o < 2 ^ 32)%Z →
  let l := f (S now) in
  let ok := accepted (si_ (base o)) l in
  let o' := final (goalSamplingThread_run (round_steps l o) now o) in
  outcome (goalSamplingThread_run (round_steps l o) now o) = Return tt ∧
  o' = after_round l o ∧
  samplingThread_ o' = Some PcLoopHead ∧
  states_ (base o') = states_ (base o) ++ ok ∧
  num_sampled_goals_ o' = uint (num_sampled_goals_ o + Z.of_nat (length ok)) ∧
  sample_goals_ o'
  = (if (max_sampled_goals_ o <=? num_sampled_goals_ o')%Z then false
     else sample_goals_ o) ∧
  samplingAttempts_ o'
  = match ok with
    | [] => samplingAttempts_ o
    | _ :: _ => uint (samplingAttempts_ o + 1)
    end.
Proof.
  intros Hpc Hstop Hf Hlt Hmax l ok o'.
  destruct (enter_round now o f Hpc Hstop Hf) as [Hout1 Hfin1]; [lia|].
  destruct (round_on l now o Hpc) as [Hout Hfin]; [lia | done | done |].
  split; [done|]. subst o'. rewrite Hfin. split; [done|].
  unfold after_round. rewrite existsb_accepted. fold ok.
  unfold after_batch. fold ok. simpl. clearbody ok.
  destruct ok as [|s ok]; destruct (_ <=? _)%Z eqn:Hle; simpl in Hle |- *;
    rewrite ?Hle; done.
Qed.

End Round.

(** ** The goal store and the space information *)

Section Store.
Import Ompl Samples.
Context {State Callback : Type}.
#[local] Abbreviation Obj := (@WeightedGoalRegionSamples State Callback).
#[local] Abbreviation WeightedGoal := (@Ompl.WeightedGoal State).
#[local] Abbreviation BinaryHeap := (@Ompl.BinaryHeap State).
#[local] Abbreviation action := (@Samples.action State Callback).
#[local] Abbreviation M := (@Ompl.M State Callback).
#[local] Abbreviation same := (Samples.same (State := State) (Callback := Callback)).
#[local] Abbreviation frames := (Ompl.frames (State := State) (Callback := Callback)).
#[local] Abbreviation base_kept :=
  (Samples.base_kept (State := State) (Callback := Callback)).
Implicit Types (o : Obj) (wg : WeightedGoal) (a : action) (q : BinaryHeap).

#[local] Existing Instance same_refl.
#[local] Existing Instance same_trans.

#[local] Instance store_kept_refl : Reflexive (@store_kept State).
Proof. by intros g. Qed.

#[local] Instance store_kept_trans : Transitive (@store_kept State).
Proof.
  intros g1 g2 g3 [H1 H1'] [H2 H2']. split; [congruence | by etrans].
Qed.

#[local] Instance base_kept_refl : Reflexive base_kept.
Proof. intros o. apply store_kept_refl. Qed.

#[local] Instance base_kept_trans : Transitive base_kept.
Proof. intros o1 o2 o3. apply store_kept_trans. Qed.

Lemma frames_base {A} (m : M GoalStates A) :
  frames store_kept m → frames base_kept (GoalStates_ m).
Proof.
  intros Hm o. specialize (Hm (base o)). unfold GoalStates_, zoom, final in *.
  by destruct (m (base o)) as [[r p] t].
Qed.

Lemma same_base_kept {A} (m : M Obj A) : frames (same base) m → frames base_kept m.
Proof. intros H o. unfold Samples.base_kept. by rewrite (H o). Qed.

Lemma addState_store (st : State) : frames store_kept (GoalStates_addState st).
Proof.
  unfold GoalStates_addState. frame. intros g. split; [done | by apply prefix_app_r].
Qed.

Lemma distanceGoal_store (st : State) : frames store_kept (GoalStates_distanceGoal st).
Proof. unfold GoalStates_distanceGoal. frame. Qed.

Lemma sampleGoal_store : frames store_kept (@GoalStates_sampleGoal State Callback).
Proof. unfold GoalStates_sampleGoal. frame. intros g. by split. Qed.

Ltac frame_base :=
  repeat first
    [ apply frames_ret; apply _
    | apply frames_just_gets; apply _
    | apply frames_tell; apply _
    | apply frames_throw; apply _
    | apply frames_undefined; apply _
    | apply frames_lock_guard
    | apply frames_base;
      first [apply addState_store | apply distanceGoal_store | apply sampleGoal_store]
    | apply frames_modify; intros ?; by split
    | apply frames_bind; [apply _ | | intros ?]
    | case_match ].

(** The steps of the thread keep the space information and the goals
    stored. *)
Lemma thread_step_base (now : nat) : frames base_kept (goalSamplingThread_step now).
Proof. unfold goalSamplingThread_step, isSampling, goto. frame_base. Qed.

Lemma thread_run_base (n now : nat) : frames base_kept (goalSamplingThread_run n now).
Proof.
  revert now. induction n as [|n IH]; intros now; simpl; [frame_base|].
  apply frames_bind; [apply _ | apply thread_step_base | intros _; apply IH].
Qed.

Lemma stopSampling_base (now : nat) : frames base_kept (stopSampling now).
Proof.
  unfold stopSampling.
  apply frames_bind; [apply _ | frame_base |]. intros _.
  apply frames_bind; [apply _ | frame_base |]. intros [p|]; [|frame_base].
  apply frames_bind; [apply _ | | intros _; frame_base].
  intros o. unfold join. apply thread_run_base.
Qed.

Lemma reset_weights_base (l : list WeightedGoal) : frames (same base) (reset_weights l).
Proof.
  induction l as [|g l IH]; simpl; [frame|].
  destruct (heap_element_ g) as [h|]; [|frame].
  unfold queue_write in *. frame. exact IH.
Qed.

(** What a step of the sampler or of its clients does to the goal store. *)
Lemma perform_base a o :
  match a with
  | Clear => si_ (base (perform a o)) = si_ (base o) ∧ states_ (base (perform a o)) = []
  | SpaceSetup =>
      states_ (base (perform a o)) = states_ (base o) ∧
      isSetup (si_ (base (perform a o))) = true
  | _ => base_kept o (perform a o)
  end.
Proof.
  revert o. destruct a; unfold perform;
    try match goal with
        | |- ∀ o, base_kept o (final (?m o)) => change (frames base_kept m)
        end.
  - apply thread_step_base.
  - by intros o.
  - apply same_base_kept. unfold enqueueGoal, queue_write. frame.
  - apply same_base_kept. unfold startSampling. frame.
  - apply stopSampling_base.
  - by intros o.
  - apply same_base_kept. unfold setNewStateCallback. frame.
  - unfold addState. frame_base.
  - unfold addStateIfDifferent. frame_base.
  - unfold sampleGoal. frame_base.
  - apply same_base_kept. unfold penalizeWeightedGoal, queue_read, queue_write. frame.
    apply reset_weights_base.
  - apply same_base_kept. unfold rewardWeightedGoal, queue_read, queue_write. frame.
  - apply same_base_kept. unfold sampleWeightedGoal, queue_read. frame.
  - unfold sampleConsecutiveGoal. frame_base.
Qed.

(** X3: only clear() removes goals from the store.  A step of the sampling
    thread, and a call of any member function other than clear (stopSampling
    with the join of the thread included), leaves every stored goal in the
    store, at the index it had: the store after the step begins with the
    store before it.  After clear() the store is empty. *)
Theorem store_grows_until_clear a o :
  match a with
  | Clear => states_ (base (perform a o)) = []
  | _ =>
      states_ (base o) `prefix_of` states_ (base (perform a o)) ∧
      (length (states_ (base o)) ≤ length (states_ (base (perform a o)))) ∧
      ∀ (i : nat) (s : State),
        states_ (base o) !! i = Some s → states_ (base (perform a o)) !! i = Some s
  end.
Proof.
  pose proof (perform_base a o) as H.
  assert (Hp : ∀ l l' : list State,
             l `prefix_of` l' →
             l `prefix_of` l' ∧ length l ≤ length l' ∧
             ∀ (i : nat) (s : State), l !! i = Some s → l' !! i = Some s).
  { intros l l' Hl. split; [done|]. split; [by apply prefix_length|].
    intros i s Hi. by eapply prefix_lookup_Some. }
  destruct a; try (apply Hp, H).
  - apply Hp. destruct H as [-> _]. done.
  - apply H.
Qed.

(** The calls of the planning thread, start and stop apart, leave the
    thread where it is, do not tell it to stop and do not count. *)
Lemma reset_weights_thread_state (l : list WeightedGoal) :
  frames (same thread_state) (reset_weights l).
Proof.
  induction l as [|g l IH]; simpl; [frame|].
  destruct (heap_element_ g) as [h|]; [|frame].
  unfold queue_write in *. frame. exact IH.
Qed.

Lemma planner_calls_thread_state a :
  match a with
  | ThreadStep _ | StartSampling | StopSampling _ => True
  | _ => ∀ o, same thread_state o (perform a o)
  end.
Proof.
  destruct a; try exact I; unfold perform;
    try match goal with
        | |- ∀ o, same ?v o (final (?m o)) => change (frames (same v) m)
        end.
  - by intros o.
  - unfold enqueueGoal, queue_write. frame.
  - unfold clear, GoalStates_, queue_write. frame.
  - unfold setNewStateCallback. frame.
  - unfold addState, GoalStates_. frame.
  - unfold addStateIfDifferent, GoalStates_. frame.
  - unfold sampleGoal, GoalStates_. frame.
  - unfold penalizeWeightedGoal, queue_read, queue_write. frame.
    apply reset_weights_thread_state.
  - unfold rewardWeightedGoal, queue_read, queue_write. frame.
  - unfold sampleWeightedGoal, queue_read. frame.
  - unfold sampleConsecutiveGoal, GoalStates_. frame.
Qed.

Lemma thread_step_setup_seen (now : nat) o :
  setup_seen o → setup_seen (final (goalSamplingThread_step now o)).
Proof.
  unfold setup_seen.
  unfold goalSamplingThread_step, isSampling, goto, GoalStates_, GoalStates_addState,
    zoom, lock_guard, bind, ret, gets, modify, tell, undefined, final. simpl.
  destruct (samplingThread_ o) as [[| | | | | |[|s rest] inc|inc|inc|inc| |]|] eqn:Hpc;
    simpl; intros Hk; repeat case_match; simpl; simplify_eq/=; rewrite ?Hpc;
    try done; eauto.
  all: repeat match goal with
         | H : negb _ = true |- _ => apply negb_true_iff in H
         | H : negb _ = false |- _ => apply negb_false_iff in H
         | H : _ && _ = true |- _ => apply andb_true_iff in H as [? ?]
         | H : _ && _ = false |- _ => apply andb_false_iff in H as [?|?]
         end; simplify_eq/=; eauto.
  all: try (destruct Hk; congruence).
Qed.

Lemma thread_run_setup_seen (n now : nat) o :
  setup_seen o → setup_seen (final (goalSamplingThread_run n now o)).
Proof.
  revert now o. induction n as [|n IH]; intros now o Hk; [done|].
  simpl. rewrite final_bind.
  pose proof (thread_step_setup_seen now o Hk) as Hstep.
  destruct (outcome (goalSamplingThread_step now o)); [|done..].
  by apply IH.
Qed.

Lemma startSampling_final o :
  final (startSampling o)
  = match samplingThread_ o with
    | Some _ => o
    | None => set_samplingThread (Some PcStart) (set_terminateSamplingThread false o)
    end.
Proof.
  unfold startSampling, lock_guard, bind, ret, gets, modify, final. simpl.
  by destruct (samplingThread_ o).
Qed.

(** The first block of stopSampling (lines 82-89). *)
Lemma request_stop o :
  ∃ o1,
    (lock_guard (let* stop := gets terminateSamplingThread_ in
                 if negb stop then modify (set_terminateSamplingThread true) else ret tt)
       : M Obj unit) o
    = (Return tt, o1, [Acquire; Release]) ∧
    terminateSamplingThread_ o1 = true ∧
    (o1 = o ∨ o1 = set_terminateSamplingThread true o).
Proof.
  unfold lock_guard, bind, ret, gets, modify. simpl.
  destruct (terminateSamplingThread_ o) eqn:Hstop; simpl; eauto.
Qed.

Lemma setup_seen_kept o o' :
  samplingThread_ o' = samplingThread_ o →
  (terminateSamplingThread_ o = true → terminateSamplingThread_ o' = true) →
  (isSetup (si_ (base o)) = true → isSetup (si_ (base o')) = true) →
  setup_seen o → setup_seen o'.
Proof.
  unfold setup_seen. intros -> Hstop Hsi.
  destruct (samplingThread_ o) as [[]|]; try done; auto.
  intros [?|?]; auto.
Qed.

Lemma perform_setup_seen a o : setup_seen o → setup_seen (perform a o).
Proof.
  intros Hk. pose proof (planner_calls_thread_state a) as Hrun.
  pose proof (perform_base a o) as Hbase.
  destruct a; unfold perform in *;
    try (specialize (Hrun o); unfold Samples.same, thread_state in Hrun;
         apply pair_equal_spec in Hrun as [Hrun _];
         apply pair_equal_spec in Hrun as [Hth Hstop];
         apply (setup_seen_kept o); [done | by rewrite Hstop | | done];
         by destruct Hbase as [-> _]).
  - by apply thread_step_setup_seen.
  - unfold setup_seen, setup in *. simpl.
    destruct (samplingThread_ o) as [[]|]; auto.
  - rewrite startSampling_final.
    destruct (samplingThread_ o) as [p|] eqn:Hpc; [done|].
    unfold setup_seen. by simpl.
  - unfold stopSampling. rewrite final_bind.
    set (m := lock_guard _).
    assert (Hm : setup_seen (final (m o))).
    { destruct (request_stop o) as (o1 & Hm & Hstop & [->| ->]); fold m in Hm;
        rewrite Hm, final_triple; [done|].
      by apply (setup_seen_kept o). }
    destruct (outcome (m o)); [|exact Hm..].
    rewrite final_bind.
    change (outcome (gets samplingThread_ (final (m o))))
      with (Return (A := option (pc State)) (samplingThread_ (final (m o)))).
    change (final (gets samplingThread_ (final (m o)))) with (final (m o)).
    cbv iota.
    destruct (samplingThread_ (final (m o))) eqn:Hth; [|exact Hm].
    rewrite final_bind.
    pose proof (thread_run_setup_seen (remaining now (final (m o))) now _ Hm) as Hj.
    change (join now (final (m o)))
      with (goalSamplingThread_run (remaining now (final (m o))) now (final (m o))).
    destruct (outcome (goalSamplingThread_run (remaining now (final (m o))) now
                         (final (m o)))); [|exact Hj..].
    done.
Qed.

(** X4: in every state reached from the constructor by steps of the
    sampling thread and calls of the member functions, in any order, a
    thread that is about to call the sampling function, or is testing the
    candidates of a batch, runs on a space information that has been set
    up: the wait of lines 108-114 is passed only once isSetup() holds, or on
    a stop request, and then the loop is not entered. *)
Theorem samples_only_after_setup cmp si samplerFunc (max_sampled_goals : Z)
    (autoStart : bool) (minDist : Q) o :
  reachable (new cmp si samplerFunc max_sampled_goals autoStart minDist) o →
  match samplingThread_ o with
  | Some (PcSample | PcFor _ _) => isSetup (si_ (base o)) = true
  | _ => True
  end.
Proof.
  intros Hr. assert (Hk : setup_seen o).
  { induction Hr as [|o a _ IH]; [|by apply perform_setup_seen].
    unfold new. by destruct autoStart. }
  unfold setup_seen in Hk. by destruct (samplingThread_ o) as [[]|].
Qed.

End Store.

(** ** The thread before the space is set up *)

Section Waiting.
Import Ompl Samples.
Context {State Callback : Type}.
#[local] Abbreviation Obj := (@WeightedGoalRegionSamples State Callback).
#[local] Abbreviation M := (@Ompl.M State Callback).
Implicit Types (o : Obj) (now n : nat).

Ltac exec :=
  unfold goalSamplingThread_step, startSampling, isSampling, goto, GoalStates_,
    GoalStates_addState, zoom, lock_guard, bind, ret, gets, modify, tell, throw,
    undefined, final, outcome, trace;
  simpl.

(** The polling loop of lines 112-113. *)
Lemma waiting_run n now o :
  samplingThread_ o = Some PcWaitSetup →
  isSetup (si_ (base o)) = false →
  terminateSamplingThread_ o = false →
  goalSamplingThread_run n now o = (Return tt, o, []).
Proof.
  intros Hpc Hsetup Hstop. revert now. induction n as [|n IH]; intros now; [done|].
  assert (Hstep : goalSamplingThread_step now o = (Return tt, o, [])).
  { destruct o as [[si ty sts pos] sf stop th att md mx sg num q cb].
    simpl in *. subst. exec. rewrite Hsetup. done. }
  rewrite run_S, (bind_Return _ _ _ _ _ _ Hstep), IH. done.
Qed.

(** X5: while the space information is not set up, a thread that is not
    told to stop waits: after its first two steps it polls for ever, the
    object unchanged; it does not call the sampling function.  A thread
    told to stop while it waits does not enter the loop: it warns that it
    never did any work, and returns.  Once the space is set up, the waiting
    thread of a sampler with a sampling function goes to the head of the
    loop. *)
Theorem thread_waits_for_setup now o :
  isSetup (si_ (base o)) = false →
  (samplingThread_ o = Some PcStart → terminateSamplingThread_ o = false →
   ∀ n, goalSamplingThread_run (2 + n) now o
        = (Return tt, set_samplingThread (Some PcWaitSetup) o, [Acquire; Release])) ∧
  (samplingThread_ o = Some PcWaitSetup → terminateSamplingThread_ o = true →
   goalSamplingThread_run 3 now o
   = (Return tt, set_samplingThread (Some PcDone) o,
      [Acquire; Release; Warning; Acquire; Release])) ∧
  (samplingThread_ o = Some PcWaitSetup → terminateSamplingThread_ o = false →
   is_Some (samplerFunc_ o) →
   goalSamplingThread_run 2 now (setup o)
   = (Return tt, set_samplingThread (Some PcLoopHead) (setup o), [Acquire; Release])).
Proof.
  intros Hsetup. split_and!.
  - intros Hpc Hstop n.
    assert (H2 : goalSamplingThread_run 2 now o
                 = (Return tt, set_samplingThread (Some PcWaitSetup) o, [Acquire; Release])).
    { destruct o as [[si ty sts pos] sf stop th att md mx sg num q cb].
      simpl in *. subst. exec. rewrite Hsetup. done. }
    rewrite run_add, (bind_Return _ _ _ _ _ _ H2), waiting_run; done.
  - intros Hpc Hstop.
    destruct o as [[si ty sts pos] sf stop th att md mx sg num q cb].
    simpl in *. subst. exec. done.
  - intros Hpc Hstop [f Hf].
    destruct o as [[si ty sts pos] sf stop th att md mx sg num q cb].
    simpl in *. subst. exec. done.
Qed.

End Waiting.

(** ** The region reset and the thread *)

Section Reset.
Import Ompl Samples.
Context {State Callback : Type}.
#[local] Abbreviation Obj := (@WeightedGoalRegionSamples State Callback).
#[local] Abbreviation WeightedGoal := (@Ompl.WeightedGoal State).
#[local] Abbreviation action := (@Samples.action State Callback).
#[local] Abbreviation M := (@Ompl.M State Callback).
Implicit Types (o : Obj) (wg : WeightedGoal) (a : action) (h : Handle).

(** The object after a region reset. *)
Lemma penalize_reset wg o h (pos : nat) (e : Element) :
  wf_heap (goals_priority_queue_ o) →
  heap_element_ wg = Some h →
  find_element h (vector_ (goals_priority_queue_ o)) = Some (pos, e) →
  (weight_ (data e) <? 0.2)%float = true →
  sample_goals_ o = false →
  ∃ q', final (penalizeWeightedGoal wg o)
        = set_max_sampled_goals (uint (max_sampled_goals_ o + 10))
            (set_sample_goals true (set_goals_priority_queue q' o)).
Proof.
  intros Hwf Hh Hf Hw Hflag.
  destruct (penalize_spec wg o h pos e Hwf Hh Hf) as (q' & t & _ & _ & _ & _ & Hcase).
  rewrite Hw, Hflag in Hcase. simpl in Hcase.
  destruct Hcase as [-> _]. by exists q'.
Qed.

(** X6: a region reset makes a paused thread sample again.  When
    penalizeWeightedGoal resets the region (the weight before the call is
    below 0.2 and sample_goals_ is false) and the count of the goals
    sampled is below the raised target, the thread at the head of its loop
    calls the sampling function at its second step. *)
Theorem reset_resumes_sampling (now : nat) wg o h (pos : nat) (e : Element)
    (f : GoalRegionSamplingFn State) :
  wf_heap (goals_priority_queue_ o) →
  heap_element_ wg = Some h →
  find_element h (vector_ (goals_priority_queue_ o)) = Some (pos, e) →
  (weight_ (data e) <? 0.2)%float = true →
  sample_goals_ o = false →
  terminateSamplingThread_ o = false →
  samplingThread_ o = Some PcLoopHead →
  samplerFunc_ o = Some f →
  (num_sampled_goals_ o < uint (max_sampled_goals_ o + 10))%Z →
  let o1 := final (penalizeWeightedGoal wg o) in
  sample_goals_ o1 = true ∧
  max_sampled_goals_ o1 = uint (max_sampled_goals_ o + 10) ∧
  outcome (goalSamplingThread_run 2 now o1) = Return tt ∧
  samplingThread_ (final (goalSamplingThread_run 2 now o1))
  = Some (PcFor (f (S now)) false).
Proof.
  intros Hwf Hh Hf Hw Hflag Hstop Hpc Hsf Hlt o1.
  destruct (penalize_reset wg o h pos e Hwf Hh Hf Hw Hflag) as [q' Hfin].
  subst o1. rewrite Hfin. split; [done|]. split; [done|].
  set (o1 := set_max_sampled_goals _ _).
  destruct (enter_round now o1 f Hpc Hstop Hsf Hlt) as [Hout ->]. done.
Qed.

Lemma stalled_kept o o' :
  control o' = control o →
  terminateSamplingThread_ o' = terminateSamplingThread_ o →
  stalled o → stalled o'.
Proof.
  unfold control, stalled. intros Hc Hstop.
  apply pair_equal_spec in Hc as [Hc Hmax].
  apply pair_equal_spec in Hc as [Hc Hnum].
  apply pair_equal_spec in Hc as [Hth Hflag].
  by rewrite Hth, Hflag, Hnum, Hmax, Hstop.
Qed.

Lemma stalled_step a o :
  stalled o → (∀ now, a ≠ StopSampling now) →
  stalled (perform a o) ∧
  max_sampled_goals_ (perform a o) = max_sampled_goals_ o ∧
  num_sampled_goals_ (perform a o) = num_sampled_goals_ o.
Proof.
  intros Hs Ha.
  assert (Hkept : control (perform a o) = control o →
                  terminateSamplingThread_ (perform a o) = terminateSamplingThread_ o →
                  stalled (perform a o) ∧
                  max_sampled_goals_ (perform a o) = max_sampled_goals_ o ∧
                  num_sampled_goals_ (perform a o) = num_sampled_goals_ o).
  { intros Hc Hstop. split; [by apply (stalled_kept o)|].
    unfold control in Hc.
    apply pair_equal_spec in Hc as [Hc Hmax].
    apply pair_equal_spec in Hc as [_ Hnum]. done. }
  pose proof (other_calls_control a) as Hother.
  pose proof (planner_calls_thread_state a) as Hrun.
  assert (Hstop : match a with
                  | ThreadStep _ | StartSampling | StopSampling _ => True
                  | _ => terminateSamplingThread_ (perform a o) = terminateSamplingThread_ o
                  end).
  { destruct a; try exact I; specialize (Hrun o);
      unfold Samples.same, thread_state in Hrun;
      apply pair_equal_spec in Hrun as [Hrun _];
      by apply pair_equal_spec in Hrun as [_ Hrun]. }
  destruct Hs as (Hflag & Hterm & Hmax & Hpc).
  destruct a; try (apply Hkept; [apply Hother | exact Hstop]).
  - (* a step of the thread *)
    destruct (idle_step now o Hterm Hmax) as [Hhead Hsample]. unfold perform.
    destruct Hpc as [Hpc|Hpc];
      [rewrite (Hhead Hpc) | rewrite (Hsample Hpc)]; rewrite final_triple;
      (split; [|done]); unfold stalled; simpl; auto.
  - (* startSampling *)
    unfold perform. rewrite startSampling_final.
    assert (Hth : is_Some (samplingThread_ o)) by (destruct Hpc as [->| ->]; eauto).
    destruct Hth as [p ->]. unfold stalled. auto.
  - by destruct (Ha now).
  - (* penalizeWeightedGoal *)
    apply Hkept; [|exact Hstop].
    destruct (penalize_control weighted_goal o) as [Hc|[Hf _]]; [exact Hc | congruence].
Qed.

(** X7: a region reset that leaves the raised target at or below the count
    of the goals sampled (a batch overshot the old target by ten or more, or
    the addition of 10 wrapped around) stalls the sampler: sample_goals_ is
    true, the thread does not sample because the target is reached, and no
    step of the thread and no call of a member function short of stopSampling
    changes that; in particular no later penalty resets the region, since
    the reset requires sample_goals_ to be false, and the target and the
    count stay as they are. *)
Theorem reset_after_overshoot_stalls :
  (∀ wg o h (pos : nat) (e : Element),
     wf_heap (goals_priority_queue_ o) →
     heap_element_ wg = Some h →
     find_element h (vector_ (goals_priority_queue_ o)) = Some (pos, e) →
     (weight_ (data e) <? 0.2)%float = true →
     sample_goals_ o = false →
     terminateSamplingThread_ o = false →
     samplingThread_ o = Some PcLoopHead ∨ samplingThread_ o = Some PcSample →
     (uint (max_sampled_goals_ o + 10) <= num_sampled_goals_ o)%Z →
     stalled (final (penalizeWeightedGoal wg o))) ∧
  (∀ a o,
     stalled o → (∀ now, a ≠ StopSampling now) →
     stalled (perform a o) ∧
     max_sampled_goals_ (perform a o) = max_sampled_goals_ o ∧
     num_sampled_goals_ (perform a o) = num_sampled_goals_ o).
Proof.
  split; [|apply stalled_step].
  intros wg o h pos e Hwf Hh Hf Hw Hflag Hstop Hpc Hmax.
  destruct (penalize_reset wg o h pos e Hwf Hh Hf Hw Hflag) as [q' ->].
  unfold stalled. simpl. auto.
Qed.

End Reset.

(** ** The weights of the queue *)

Section Weights.
Import Ompl Samples.
Context {State Callback : Type}.
#[local] Abbreviation Obj := (@WeightedGoalRegionSamples State Callback).
#[local] Abbreviation WeightedGoal := (@Ompl.WeightedGoal State).
#[local] Abbreviation BinaryHeap := (@Ompl.BinaryHeap State).
#[local] Abbreviation M := (@Ompl.M State Callback).
Implicit Types (o : Obj) (wg : WeightedGoal) (h : Handle) (q : BinaryHeap).

Lemma range_reweigh h (w : float) (v : list (@Element State)) :
  in_range w →
  Forall (λ e, in_range (weight_ (data e))) v →
  Forall (λ e, in_range (weight_ (data e))) (reweigh h w <$> v).
Proof.
  intros Hw Hv. apply Forall_fmap. eapply Forall_impl; [exact Hv|].
  intros e He. simpl. unfold reweigh. by destruct (Nat.eqb _ _).
Qed.

Lemma find_element_range h q (pos : nat) (e : Element) :
  weights_in_range q → find_element h (vector_ q) = Some (pos, e) →
  in_range (weight_ (data e)).
Proof.
  intros Hr Hf. apply find_element_Some in Hf as [Hf _].
  unfold weights_in_range in Hr. rewrite Forall_forall in Hr. apply Hr.
  by eapply list_elem_of_lookup_2.
Qed.

(** A handle that points to no element of the queue: the functions end in
    undefined behaviour at their first dereference. *)
Lemma dangling wg o :
  deref (goals_priority_queue_ o) (heap_element_ wg) = None →
  penalizeWeightedGoal wg o = (Undefined, o, [Access WeightQueue false]) ∧
  rewardWeightedGoal wg o = (Undefined, o, [Access WeightQueue false]).
Proof.
  intros Hd.
  unfold penalizeWeightedGoal, rewardWeightedGoal, queue_read, bind, gets, tell,
    undefined. simpl. rewrite Hd. by destruct (heap_element_ wg).
Qed.

(** X8: penalizeWeightedGoal and rewardWeightedGoal keep every weight of
    the queue in (0,1], and keep the goals of the queue: on a well-formed
    queue whose weights are all in (0,1], after a call on any argument (a
    handle into the queue, a dangling or a null one) the queue holds the
    elements it held, every one with a weight in (0,1]; this covers the
    weight 0.5 that a region reset gives to every goal, and the rounding
    of the two quotients in binary64. *)
Theorem weights_stay_in_range wg o :
  wf_heap (goals_priority_queue_ o) →
  weights_in_range (goals_priority_queue_ o) →
  let o1 := final (penalizeWeightedGoal wg o) in
  let o2 := final (rewardWeightedGoal wg o) in
  (weights_in_range (goals_priority_queue_ o1) ∧
   address <$> vector_ (goals_priority_queue_ o1)
     ≡ₚ address <$> vector_ (goals_priority_queue_ o)) ∧
  (weights_in_range (goals_priority_queue_ o2) ∧
   address <$> vector_ (goals_priority_queue_ o2)
     ≡ₚ address <$> vector_ (goals_priority_queue_ o)).
Proof.
  intros Hwf Hr o1 o2.
  destruct (deref (goals_priority_queue_ o) (heap_element_ wg)) as [[pos e]|] eqn:Hd.
  - destruct (heap_element_ wg) as [h|] eqn:Hh; [|done]. simpl in Hd.
    pose proof (find_element_range h _ pos e Hr Hd) as He.
    split.
    + destruct (penalize_spec wg o h pos e Hwf Hh Hd) as (q' & t & _ & _ & Hp & _ & Hcase).
      destruct ((weight_ (data e) <? 0.2)%float && negb (sample_goals_ o)).
      * destruct Hcase as [Hfin Hall]. subst o1. rewrite Hfin. simpl. split; [|done].
        unfold weights_in_range. eapply Forall_impl; [exact Hall|].
        intros e' ->. split; reflexivity.
      * destruct Hcase as [Hfin Hv]. subst o1. rewrite Hfin. simpl. split; [|done].
        unfold weights_in_range. rewrite Hv.
        apply range_reweigh; [|done]. destruct He as [He0 He1].
        destruct (penalized_double _ He0 He1) as (Hpos & _ & Hle). by split.
    + pose proof (reward_spec wg o h pos e Hwf Hh Hd) as Hcase. simpl in Hcase.
      destruct (weight_ (data e) <? 1)%float eqn:Hc.
      * destruct Hcase as (q' & _ & _ & Hfin & Hv). subst o2. rewrite Hfin. simpl.
        split.
        -- unfold weights_in_range. rewrite Hv.
           apply range_reweigh; [|done]. destruct He as [He0 He1].
           destruct (rewarded_double _ (ltb_leb _ _ He0) Hc) as (_ & Hle & _ & Hpos).
           split; [by apply Hpos | done].
        -- by rewrite Hv, addresses_reweigh.
      * subst o2. by rewrite Hcase.
  - destruct (dangling wg o Hd) as [H1 H2]. subst o1 o2. by rewrite H1, H2.
Qed.

End Weights.

(** ** clear() *)

Section Clear.
Import Ompl Samples.
Context {State Callback : Type}.
#[local] Abbreviation Obj := (@WeightedGoalRegionSamples State Callback).
#[local] Abbreviation WeightedGoal := (@Ompl.WeightedGoal State).
#[local] Abbreviation M := (@Ompl.M State Callback).
Implicit Types (o : Obj) (wg : WeightedGoal) (now n : nat).

Ltac monad :=
  unfold clear, hasStates, getStateCount, couldSample, maxSampleCount, sampleGoal,
    isSampling, penalizeWeightedGoal, rewardWeightedGoal, sampleWeightedGoal,
    sampleConsecutiveGoal, queue_read, queue_write, GoalStates_, GoalStates_clear,
    GoalStates_hasStates, GoalStates_getStateCount, GoalStates_maxSampleCount,
    GoalStates_sampleGoal, BinaryHeap_clear, deref, zoom, lock_guard, bind, ret, gets,
    modify, tell, throw, undefined, outcome, final, trace; simpl.

(** X10: clear() leaves no goal to select and no valid handle.  After
    clear() the store and the queue are empty; hasStates() is false and
    getStateCount() is 0; sampleGoal, sampleWeightedGoal and
    sampleConsecutiveGoal throw "There are no goals to sample"; and
    penalizeWeightedGoal and rewardWeightedGoal on any WeightedGoal, one
    sampled before the call of clear() included, dereference a heap element
    that clear() has freed (or a null pointer): undefined behaviour, the
    object untouched. *)
Theorem clear_invalidates_handles wg o :
  let o' := final (clear o) in
  outcome (clear o) = Return tt ∧
  states_ (base o') = [] ∧
  vector_ (goals_priority_queue_ o') = [] ∧
  outcome (hasStates o') = Return false ∧
  outcome (getStateCount o') = Return 0%Z ∧
  outcome (sampleGoal o') = Throw NoGoalsToSample ∧
  outcome (sampleWeightedGoal wg o') = Throw NoGoalsToSample ∧
  outcome (sampleConsecutiveGoal wg o') = Throw NoGoalsToSample ∧
  outcome (penalizeWeightedGoal wg o') = Undefined ∧
  final (penalizeWeightedGoal wg o') = o' ∧
  outcome (rewardWeightedGoal wg o') = Undefined ∧
  final (rewardWeightedGoal wg o') = o'.
Proof.
  intros o'. subst o'. split_and!; try reflexivity; monad; by destruct (heap_element_ wg).
Qed.

(** X11: clear() does not reset the count of the goals sampled.  When the
    store is cleared while the target is reached and no stop is requested,
    the thread stays paused: however many steps it takes, the store stays
    empty, num_sampled_goals_, max_sampled_goals_ and sample_goals_ are as
    before the call, hasStates() is false and couldSample() is true, the
    thread being alive. *)
Theorem cleared_store_not_refilled now o :
  terminateSamplingThread_ o = false →
  (max_sampled_goals_ o <= num_sampled_goals_ o)%Z →
  samplingThread_ o = Some PcLoopHead ∨ samplingThread_ o = Some PcSample →
  ∀ n,
    let o' := final (goalSamplingThread_run n now (final (clear o))) in
    outcome (goalSamplingThread_run n now (final (clear o))) = Return tt ∧
    states_ (base o') = [] ∧
    num_sampled_goals_ o' = num_sampled_goals_ o ∧
    max_sampled_goals_ o' = max_sampled_goals_ o ∧
    sample_goals_ o' = sample_goals_ o ∧
    outcome (hasStates o') = Return false ∧
    outcome (couldSample o') = Return true.
Proof.
  intros Hstop Hmax Hpc n o'.
  destruct (idle_run n now (final (clear o))) as (Hout & p & Hp & Hfin); [done..|].
  subst o'. rewrite Hfin. split; [done|]. split_and!; try reflexivity.
  monad. by rewrite Hstop.
Qed.

End Clear.

(** ** Starting and stopping the thread *)

Section Lifecycle.
Import Ompl Samples.
Context {State Callback : Type}.
#[local] Abbreviation Obj := (@WeightedGoalRegionSamples State Callback).
#[local] Abbreviation WeightedGoal := (@Ompl.WeightedGoal State).
#[local] Abbreviation M := (@Ompl.M State Callback).
Implicit Types (o : Obj) (wg : WeightedGoal) (now n : nat).

Lemma isSampling_outcome o :
  outcome (isSampling o)
  = Return (negb (terminateSamplingThread_ o)
            && match samplingThread_ o with Some _ => true | None => false end).
Proof. reflexivity. Qed.


(** X12: startSampling starts a thread only when samplingThread_ is null.
    On an object that has a thread, running or ended, it changes nothing;
    so after the thread has ended, or has been told to stop,
    startSampling does not make isSampling() true.  After stopSampling,
    which joins the thread and resets the pointer, startSampling starts a
    new thread and clears the stop request: isSampling() is true. *)
Theorem restart_needs_stop now o :
  (is_Some (samplingThread_ o) → final (startSampling o) = o) ∧
  (is_Some (samplingThread_ o) → terminateSamplingThread_ o = true →
   outcome (isSampling (final (startSampling o))) = Return false) ∧
  (may_sample o →
   let o' := final (startSampling (final (stopSampling now o))) in
   outcome (stopSampling now o) = Return tt ∧
   samplingThread_ o' = Some PcStart ∧
   terminateSamplingThread_ o' = false ∧
   outcome (isSampling o') = Return true).
Proof.
  split_and!.
  - intros [p Hp]. by rewrite startSampling_final, Hp.
  - intros [p Hp] Hstop. rewrite startSampling_final, Hp, isSampling_outcome.
    by rewrite Hstop.
  - intros Hmay o'. destruct (stopSampling_stops now o Hmay) as (Hout & Hth & Hstop).
    subst o'. rewrite startSampling_final, Hth. done.
Qed.


End Lifecycle.

(** ** What fills the queue *)

Section Queue.
Import Ompl Samples.
Context {State Callback : Type}.
#[local] Abbreviation Obj := (@WeightedGoalRegionSamples State Callback).
#[local] Abbreviation WeightedGoal := (@Ompl.WeightedGoal State).
#[local] Abbreviation BinaryHeap := (@Ompl.BinaryHeap State).
#[local] Abbreviation action := (@Samples.action State Callback).
#[local] Abbreviation M := (@Ompl.M State Callback).
#[local] Abbreviation same := (Samples.same (State := State) (Callback := Callback)).
#[local] Abbreviation frames := (Ompl.frames (State := State) (Callback := Callback)).
#[local] Abbreviation empty_kept :=
  (Samples.empty_kept (State := State) (Callback := Callback)).
Implicit Types (o : Obj) (wg : WeightedGoal) (a : action) (q : BinaryHeap).

#[local] Existing Instance same_refl.
#[local] Existing Instance same_trans.

#[local] Instance empty_kept_refl : Reflexive empty_kept.
Proof. intros o H. exact H. Qed.

#[local] Instance empty_kept_trans : Transitive empty_kept.
Proof. unfold Samples.empty_kept. intros o1 o2 o3 H1 H2. auto. Qed.

Lemma same_queue_empty_kept {A} (m : M Obj A) :
  frames (same goals_priority_queue_) m → frames empty_kept m.
Proof. intros H o He. unfold frames, same, Samples.same in H. by rewrite H. Qed.

Lemma queue_write_empty (f : BinaryHeap → option BinaryHeap) :
  (∀ q q', f q = Some q' → vector_ q = [] → vector_ q' = []) →
  frames empty_kept (queue_write f).
Proof.
  intros Hf o He. unfold queue_write, bind, gets, modify, tell, undefined, final. simpl.
  destruct (f (goals_priority_queue_ o)) as [q'|] eqn:Hq; simpl; eauto.
Qed.

Lemma assign_weight_empty (h : Handle) (w : float) q q' :
  assign_weight h w q = Some q' → vector_ q = [] → vector_ q' = [].
Proof. unfold assign_weight. intros H He. by rewrite He in H. Qed.

Lemma update_empty (h : Handle) q q' :
  BinaryHeap_update h q = Some q' → vector_ q = [] → vector_ q' = [].
Proof. unfold BinaryHeap_update. intros H He. by rewrite He in H. Qed.

Lemma reset_weights_empty (l : list WeightedGoal) : frames empty_kept (reset_weights l).
Proof.
  induction l as [|g l IH]; simpl; [frame|].
  destruct (heap_element_ g) as [h|]; [|frame].
  apply frames_bind; [apply _ | apply queue_write_empty, assign_weight_empty | intros _].
  apply frames_bind; [apply _ | apply queue_write_empty, update_empty | intros _].
  exact IH.
Qed.

Lemma perform_empty a o :
  is_enqueue a = false →
  vector_ (goals_priority_queue_ o) = [] →
  vector_ (goals_priority_queue_ (perform a o)) = [].
Proof.
  intros Ha. revert o. destruct a; try discriminate Ha; clear Ha; unfold perform;
    try match goal with
        | |- ∀ o, _ → vector_ (goals_priority_queue_ (final (?m o))) = [] =>
            change (frames empty_kept m)
        end.
  - apply same_queue_empty_kept, thread_step_queue.
  - intros o H. exact H.
  - apply same_queue_empty_kept. unfold startSampling. frame.
  - apply same_queue_empty_kept, stopSampling_queue.
  - intros o _. reflexivity.
  - frame.
  - unfold addState, GoalStates_. frame.
  - unfold addStateIfDifferent, GoalStates_. frame.
  - unfold sampleGoal, GoalStates_. frame.
  - unfold penalizeWeightedGoal, queue_read.
    apply frames_bind; [apply _ | frame |]. intros e.
    destruct (heap_element_ weighted_goal) as [h|]; [|frame].
    destruct e as [[pos e]|]; [|frame].
    apply frames_bind; [apply _ | apply queue_write_empty, assign_weight_empty | intros _].
    apply frames_bind; [apply _ | apply queue_write_empty, update_empty | intros _].
    apply frames_bind; [apply _ | frame |]. intros sg. case_match; [|frame].
    apply frames_bind; [apply _ | frame |]. intros existing.
    apply frames_bind; [apply _ | apply reset_weights_empty | intros _]. frame.
  - unfold rewardWeightedGoal, queue_read.
    apply frames_bind; [apply _ | frame |]. intros e.
    destruct (heap_element_ weighted_goal) as [h|]; [|frame].
    destruct e as [[pos e]|]; [|frame]. case_match; [|frame].
    apply frames_bind; [apply _ | apply queue_write_empty, assign_weight_empty | intros _].
    apply queue_write_empty, update_empty.
  - unfold sampleWeightedGoal, queue_read. frame.
  - unfold sampleConsecutiveGoal, GoalStates_. frame.
Qed.

Lemma perform_all_empty (acts : list action) o :
  Forall (λ a, is_enqueue a = false) acts →
  vector_ (goals_priority_queue_ o) = [] →
  vector_ (goals_priority_queue_ (perform_all acts o)) = [].
Proof.
  intros Hacts. revert o. induction Hacts as [|a acts Ha _ IH]; intros o He; [done|].
  simpl. apply IH. by apply perform_empty.
Qed.

(** X14: the functions of the file put no goal into the priority queue.
    Starting from the constructor, after any sequence of steps of the
    sampling thread and calls of the member functions defined in the file
    (no goal entering the queue from outside), the queue is empty; so
    sampleWeightedGoal does not return a goal: it throws while the store is
    empty, and once a state is stored it reads the null top() of the
    queue. *)
Theorem queue_not_filled_by_members cmp si samplerFunc (max_sampled_goals : Z)
    (autoStart : bool) (minDist : Q) (acts : list action) wg :
  Forall (λ a, is_enqueue a = false) acts →
  let o := perform_all acts (new cmp si samplerFunc max_sampled_goals autoStart minDist) in
  vector_ (goals_priority_queue_ o) = [] ∧
  outcome (sampleWeightedGoal wg o)
  = match states_ (base o) with
    | [] => Throw NoGoalsToSample
    | _ :: _ => Undefined
    end.
Proof.
  intros Hacts o.
  assert (He : vector_ (goals_priority_queue_ o) = []).
  { subst o. apply perform_all_empty; [done|].
    unfold new. by destruct autoStart. }
  split; [exact He|].
  unfold sampleWeightedGoal, queue_read, BinaryHeap_top, bind, gets, tell, throw,
    undefined, ret, outcome. simpl.
  destruct (states_ (base o)); [done|]. simpl. by rewrite He.
Qed.

End Queue.

(** ** addStateIfDifferent *)

Section Different.
Import Ompl Samples.
Context {State Callback : Type}.
#[local] Abbreviation Obj := (@WeightedGoalRegionSamples State Callback).
#[local] Abbreviation M := (@Ompl.M State Callback).
Implicit Types (o : Obj) (st : State) (l : list State) (si : @SpaceInformation State).

Lemma farther_foldl si st l (acc : option Q) (d : Q) :
  farther
    (foldl (λ acc s,
              let d := distance si st s in
              match acc with
              | None => Some d
              | Some m => if Qltb d m then Some d else Some m
              end) acc l) d = true
  ↔ farther acc d = true ∧ Forall (λ s, (d < distance si st s)%Q) l.
Proof.
  revert acc. induction l as [|s l IH]; intros acc; simpl.
  - split; [by intros H; split | by intros [H _]].
  - rewrite IH, Forall_cons. clear IH.
    assert (Hstep : farther (match acc with
                             | None => Some (distance si st s)
                             | Some m => if Qltb (distance si st s) m
                                         then Some (distance si st s) else Some m
                             end) d = true
                    ↔ farther acc d = true ∧ (d < distance si st s)%Q).
    { destruct acc as [m|]; simpl.
      - destruct (Qltb (distance si st s) m) eqn:Hc; simpl; rewrite !Qltb_lt.
        + apply Qltb_lt in Hc. split; [intros; split; lra | by intros [_ ?]].
        + apply Qltb_ge in Hc. split; [intros; split; lra | by intros [? _]].
      - rewrite Qltb_lt. split; [by intros; split | by intros [_ ?]]. }
    rewrite Hstep. tauto.
Qed.

(** The test of line 240, on the distances one by one. *)
Lemma farther_all si st l (d : Q) :
  farther (min_distance si st l) d = true
  ↔ Forall (λ s, (d < distance si st s)%Q) l.
Proof.
  unfold min_distance. rewrite farther_foldl. simpl. tauto.
Qed.

Lemma apart_snoc si (d : Q) l st :
  apart si d (l ++ [st]) ↔ apart si d l ∧ Forall (λ s, (d < distance si st s)%Q) l.
Proof.
  induction l as [|s l IH]; simpl.
  - split; [by intros; split | by intros; split].
  - rewrite IH, Forall_app, Forall_singleton, Forall_cons. tauto.
Qed.

Lemma some_near (f : State → Q) (d : Q) l :
  ¬ Forall (λ s, (d < f s)%Q) l → Exists (λ s, (f s <= d)%Q) l.
Proof.
  induction l as [|s l IH]; intros Hn; [by destruct Hn|].
  destruct (Qlt_le_dec d (f s)) as [Hlt|Hle]; [|by left].
  right. apply IH. intros Hf. apply Hn. by constructor.
Qed.

(** What addStateIfDifferent does, by the result of the test. *)
Lemma addStateIfDifferent_cases st (minDistance : Q) o :
  let far := farther (min_distance (si_ (base o)) st (states_ (base o))) minDistance in
  outcome (addStateIfDifferent st minDistance o) = Return far ∧
  final (addStateIfDifferent st minDistance o) = (if far then push_back st o else o).
Proof.
  intros far. subst far.
  unfold addStateIfDifferent, GoalStates_, GoalStates_distanceGoal, GoalStates_addState,
    zoom, lock_guard, bind, ret, gets, modify, tell, undefined, outcome, final. simpl.
  destruct (farther _ _) eqn:Hfar; simpl.
  - destruct (callback_ o) as [f|] eqn:Hcb; simpl; rewrite ?last_snoc; simpl;
      rewrite ?Hcb; done.
  - by destruct o.
Qed.

(** X15: addStateIfDifferent keeps the stored goals apart.  It returns
    true, and stores the state, exactly when every stored goal is at a
    distance greater than minDistance from the state; it returns false, and
    leaves the store as it is, exactly when some stored goal is within
    minDistance.  So if every stored goal is farther than minDistance from
    the goals stored before it, this still holds after the call. *)
Theorem addStateIfDifferent_keeps_apart st (minDistance : Q) o :
  apart (si_ (base o)) minDistance (states_ (base o)) →
  let o' := final (addStateIfDifferent st minDistance o) in
  apart (si_ (base o')) minDistance (states_ (base o')) ∧
  (outcome (addStateIfDifferent st minDistance o) = Return true
   ↔ Forall (λ s, (minDistance < distance (si_ (base o)) st s)%Q) (states_ (base o))) ∧
  (outcome (addStateIfDifferent st minDistance o) = Return false
   ↔ Exists (λ s, (distance (si_ (base o)) st s <= minDistance)%Q) (states_ (base o))) ∧
  states_ (base o')
  = (if farther (min_distance (si_ (base o)) st (states_ (base o))) minDistance
     then states_ (base o) ++ [st] else states_ (base o)).
Proof.
  intros Hap o'. destruct (addStateIfDifferent_cases st minDistance o) as [Hout Hfin].
  subst o'. rewrite Hout, Hfin.
  pose proof (farther_all (si_ (base o)) st (states_ (base o)) minDistance) as Hall.
  destruct (farther _ _) eqn:Hfar.
  - split_and!.
    + simpl. apply apart_snoc. split; [done | by apply Hall].
    + split; [intros _; by apply Hall | done].
    + split; [done|]. intros Hex. apply Exists_exists in Hex as (s & Hs & Hd).
      assert (Hf : Forall (λ s, (minDistance < distance (si_ (base o)) st s)%Q)
                     (states_ (base o))) by by apply Hall.
      rewrite Forall_forall in Hf. specialize (Hf s Hs). lra.
    + done.
  - split_and!.
    + done.
    + split; [done|]. intros Hf. apply Hall in Hf. done.
    + split; [|done]. intros _. apply some_near. intros Hf. apply Hall in Hf. done.
    + done.
Qed.

End Different.

(** ** The roadmap thread and the destructor *)

Section Roadmap.
Import Ompl Sampler.
Context {State Callback Planner : Type}.
#[local] Abbreviation Obj := (@WeightedGoalRegionSampler State Callback Planner).
#[local] Abbreviation M := (@Ompl.M State Callback).
Implicit Types (o : Obj) (now n k : nat).

Ltac exec :=
  unfold startGrowingRoadmap, stopGrowingRoadmap, isGrowingRoadmap, join_roadmap,
    roadmapGrowingThread_run, roadmapGrowingThread_step, lock_guard, bind, ret, gets,
    modify, tell, undefined, outcome, final, trace; simpl.

(** One turn of the loop of roadmapGrowingThread, with a planner. *)
Lemma roadmap_turn o :
  growingRoadmapThread_ o = Some RmLoopHead →
  terminateGrowingRoadmapThread_ o = false →
  is_Some (prm_planner_ o) →
  roadmapGrowingThread_run 2 o
  = (Return tt, o, [Acquire; Release; GrowRoadmap 0.1]).
Proof.
  intros Hth Hstop [p Hp].
  destruct o as [b sf stop stop2 th th2 pl att md mx sg num q cb]. simpl in *. subst.
  reflexivity.
Qed.

(** The same turn with the null pointer the constructor leaves. *)
Lemma roadmap_turn_null o :
  growingRoadmapThread_ o = Some RmLoopHead →
  terminateGrowingRoadmapThread_ o = false →
  prm_planner_ o = None →
  roadmapGrowingThread_run 2 o
  = (Undefined, set_growingRoadmapThread (Some RmGrow) o, [Acquire; Release]).
Proof.
  intros Hth Hstop Hp.
  destruct o as [b sf stop stop2 th th2 pl att md mx sg num q cb]. simpl in *. subst.
  reflexivity.
Qed.

Lemma roadmap_run_add n m o :
  roadmapGrowingThread_run (n + m) o
  = bind (roadmapGrowingThread_run n) (λ _, roadmapGrowingThread_run m) o.
Proof.
  revert o. induction n as [|n IH]; intros o.
  - simpl. unfold bind, ret.
    by destruct (roadmapGrowingThread_run m o) as [[r o'] t].
  - change (S n + m) with (S (n + m)). cbn [roadmapGrowingThread_run].
    rewrite bind_assoc. apply bind_ext. intros _ o1. apply IH.
Qed.

Lemma roadmap_turns k o :
  growingRoadmapThread_ o = Some RmLoopHead →
  terminateGrowingRoadmapThread_ o = false →
  is_Some (prm_planner_ o) →
  roadmapGrowingThread_run (2 * k) o
  = (Return tt, o, concat (replicate k [Acquire; Release; GrowRoadmap 0.1])).
Proof.
  intros Hth Hstop Hp. induction k as [|k IH]; [done|].
  replace (2 * S k) with (2 + 2 * k) by lia.
  rewrite roadmap_run_add, (bind_Return _ _ _ _ _ _ (roadmap_turn o Hth Hstop Hp)), IH.
  done.
Qed.

Lemma stopGrowingRoadmap_stops o :
  is_Some (prm_planner_ o) ∨ growingRoadmapThread_ o = None →
  outcome (stopGrowingRoadmap o) = Return tt ∧
  growingRoadmapThread_ (final (stopGrowingRoadmap o)) = None ∧
  terminateGrowingRoadmapThread_ (final (stopGrowingRoadmap o)) = true ∧
  prm_planner_ (final (stopGrowingRoadmap o)) = prm_planner_ o ∧
  length (filter (λ e, is_grow e = true) (trace (stopGrowingRoadmap o))) ≤ 1.
Proof.
  destruct o as [b sf stop stop2 th th2 pl att md mx sg num q cb]. simpl.
  intros [[p ->] | ->].
  - destruct stop2, th2 as [[]|]; vm_compute; repeat split; lia.
  - destruct stop2; vm_compute; repeat split; lia.
Qed.

Lemma stopGrowingRoadmap_null o :
  prm_planner_ o = None →
  growingRoadmapThread_ o = Some RmLoopHead ∨ growingRoadmapThread_ o = Some RmGrow
  ∨ growingRoadmapThread_ o = Some RmExit →
  outcome (stopGrowingRoadmap o) = Undefined.
Proof.
  destruct o as [b sf stop stop2 th th2 pl att md mx sg num q cb]. simpl.
  intros -> [->|[->| ->]]; by destruct stop2.
Qed.

(** X16: the roadmap thread of weighted_goal_region_sampler.cpp.
    startGrowingRoadmap starts the thread when there is none and changes
    nothing when there is one.  With a planner assigned to prm_planner_,
    while no stop is requested the thread calls growRoadmap(0.1) once per
    turn of its loop, testing isGrowingRoadmap() under the lock before each
    call, and changes no member, and stopGrowingRoadmap returns with the
    thread joined, the pointer null and the stop flag set, after at most
    one more call of growRoadmap.  With prm_planner_ null, as the
    constructor leaves it, the first turn of the thread dereferences the
    null pointer, and so does the thread that stopGrowingRoadmap joins. *)
Theorem roadmap_thread_lifecycle k o :
  (growingRoadmapThread_ o = None →
   let o1 := final (startGrowingRoadmap o) in
   growingRoadmapThread_ o1 = Some RmLoopHead ∧
   terminateGrowingRoadmapThread_ o1 = false ∧
   prm_planner_ o1 = prm_planner_ o ∧
   outcome (isGrowingRoadmap o1) = Return true) ∧
  (is_Some (growingRoadmapThread_ o) → final (startGrowingRoadmap o) = o) ∧
  (growingRoadmapThread_ o = Some RmLoopHead →
   terminateGrowingRoadmapThread_ o = false →
   is_Some (prm_planner_ o) →
   roadmapGrowingThread_run (2 * k) o
   = (Return tt, o, concat (replicate k [Acquire; Release; GrowRoadmap 0.1]))) ∧
  (growingRoadmapThread_ o = Some RmLoopHead →
   terminateGrowingRoadmapThread_ o = false →
   prm_planner_ o = None →
   roadmapGrowingThread_run 2 o
   = (Undefined, set_growingRoadmapThread (Some RmGrow) o, [Acquire; Release])) ∧
  (is_Some (prm_planner_ o) ∨ growingRoadmapThread_ o = None →
   let o2 := final (stopGrowingRoadmap o) in
   outcome (stopGrowingRoadmap o) = Return tt ∧
   growingRoadmapThread_ o2 = None ∧
   terminateGrowingRoadmapThread_ o2 = true ∧
   outcome (isGrowingRoadmap o2) = Return false ∧
   length (filter (λ e, is_grow e = true) (trace (stopGrowingRoadmap o))) ≤ 1) ∧
  (prm_planner_ o = None → growingRoadmapThread_ o = Some RmLoopHead →
   outcome (stopGrowingRoadmap o) = Undefined).
Proof.
  split_and!.
  - intros Hth. exec. by rewrite Hth.
  - intros [p Hth]. exec. rewrite Hth. by destruct o.
  - apply roadmap_turns.
  - apply roadmap_turn_null.
  - intros Hp. destruct (stopGrowingRoadmap_stops o Hp) as (Hout & Hth & Hstop & _ & Hgrow).
    split_and!; try done.
    unfold isGrowingRoadmap, lock_guard, gets, outcome. simpl. by rewrite Hstop.
  - intros Hp Hth. apply stopGrowingRoadmap_null; auto.
Qed.

End Roadmap.

Section Destructor.
Import Ompl.
Context {State Callback Planner : Type}.
#[local] Abbreviation Samples := (@Samples.WeightedGoalRegionSamples State Callback).
#[local] Abbreviation Sampler :=
  (@Sampler.WeightedGoalRegionSampler State Callback Planner).
#[local] Abbreviation M := (@Ompl.M State Callback).

(** X17: the destructor of WeightedGoalRegionSampler stops both threads,
    when a planner is assigned to prm_planner_ or no roadmap thread was
    started: it returns, and then both thread pointers are null, both stop
    flags are set, and isSampling() and isGrowingRoadmap() are false. *)
Theorem destructor_stops_both_threads (now : nat) (o : Sampler) :
  Samples.may_sample (forget_roadmap o) →
  is_Some (Sampler.prm_planner_ o) ∨ Sampler.growingRoadmapThread_ o = None →
  let o' := final (Sampler.delete now o) in
  outcome (Sampler.delete now o) = Return tt ∧
  Sampler.samplingThread_ o' = None ∧
  Sampler.terminateSamplingThread_ o' = true ∧
  Sampler.growingRoadmapThread_ o' = None ∧
  Sampler.terminateGrowingRoadmapThread_ o' = true ∧
  outcome (Sampler.isSampling o') = Return false ∧
  outcome (Sampler.isGrowingRoadmap o') = Return false.
Proof.
  intros Hmay Hplanner o'.
  destruct (stopSampling_stops now (forget_roadmap o) Hmay) as (Hout & Hth & Hstop).
  pose proof (agree_roadmap _ _ o (agree_stopSampling now)) as Hroad.
  rewrite (agree_result _ _ o (agree_stopSampling now)) in Hout, Hth, Hstop.
  unfold through in Hout, Hth, Hstop. rewrite outcome_triple in Hout.
  rewrite final_triple in Hth, Hstop.
  set (o1 := final (Sampler.stopSampling now o)) in *.
  assert (Hplanner1 : is_Some (Sampler.prm_planner_ o1)
                      ∨ Sampler.growingRoadmapThread_ o1 = None).
  { unfold roadmap_members in Hroad.
    apply pair_equal_spec in Hroad as [Hroad Hp].
    apply pair_equal_spec in Hroad as [_ Hg]. by rewrite Hp, Hg. }
  destruct (stopGrowingRoadmap_stops o1 Hplanner1) as (Hout2 & Hth2 & Hstop2 & _).
  pose proof (stopGrowingRoadmap_roadmap_only o1) as Hsame.
  assert (Hfin : o' = final (Sampler.stopGrowingRoadmap o1)).
  { subst o'. unfold Sampler.delete. by rewrite final_bind, Hout. }
  assert (Hth' : Sampler.samplingThread_ o' = None).
  { rewrite Hfin. change (Samples.samplingThread_ (forget_roadmap (final (Sampler.stopGrowingRoadmap o1))) = None).
    by rewrite Hsame. }
  assert (Hstop' : Sampler.terminateSamplingThread_ o' = true).
  { rewrite Hfin. change (Samples.terminateSamplingThread_ (forget_roadmap (final (Sampler.stopGrowingRoadmap o1))) = true).
    by rewrite Hsame. }
  split_and!; try done.
  - unfold Sampler.delete. by rewrite outcome_bind, Hout.
  - by rewrite Hfin.
  - by rewrite Hfin.
  - unfold Sampler.isSampling, lock_guard, gets, outcome. simpl. by rewrite Hstop'.
  - unfold Sampler.isGrowingRoadmap, lock_guard, gets, outcome. simpl.
    by rewrite Hfin, Hstop2.
Qed.

End Destructor.

(** ** Reading the store *)

Section Consecutive.
Import Ompl Samples.
Context {State Callback : Type}.
#[local] Abbreviation Obj := (@WeightedGoalRegionSamples State Callback).
#[local] Abbreviation WeightedGoal := (@Ompl.WeightedGoal State).
#[local] Abbreviation M := (@Ompl.M State Callback).
Implicit Types (o : Obj) (wg : WeightedGoal) (st : State).

(** One draw of the base class from a store that is not empty. *)
Lemma GoalStates_sampleGoal_next (g : @GoalStates State) (l : list State) :
  states_ g = l → l ≠ [] →
  let i := (samplePosition_ g mod Z.of_nat (length l))%Z in
  ∃ s, l !! Z.to_nat i = Some s ∧
       (GoalStates_sampleGoal : M GoalStates State) g
       = (Return s, set_samplePosition (uint (i + 1)) g, [Access GoalCollection false]).
Proof.
  intros Hl Hne i.
  assert (Hn : (0 < Z.of_nat (length l))%Z) by (destruct l; simpl; [done | lia]).
  assert (Hi : (0 <= i < Z.of_nat (length l))%Z) by (apply Z.mod_pos_bound; lia).
  destruct (lookup_lt_is_Some_2 l (Z.to_nat i)) as [s Hs]; [lia|].
  exists s. split; [done|].
  unfold GoalStates_sampleGoal, bind, tell, gets. rewrite Hl.
  destruct l as [|s0 l]; [done|]. fold i. rewrite Hs. reflexivity.
Qed.

(** One call of sampleConsecutiveGoal on a store that is not empty. *)
Lemma sampleConsecutiveGoal_next wg o :
  states_ (base o) ≠ [] →
  let i := (samplePosition_ (base o) mod Z.of_nat (length (states_ (base o))))%Z in
  ∃ s, states_ (base o) !! Z.to_nat i = Some s ∧
       sampleConsecutiveGoal wg o
       = (Return {| state_ := s; weight_ := weight_ wg;
                    heap_element_ := heap_element_ wg |},
          set_base (set_samplePosition (uint (i + 1)) (base o)) o,
          [Access GoalCollection false; Access GoalCollection false]).
Proof.
  intros Hne i.
  destruct (GoalStates_sampleGoal_next (base o) _ eq_refl Hne) as (s & Hs & Hrun).
  exists s. split; [done|]. fold i in Hrun. clearbody i.
  unfold sampleConsecutiveGoal, GoalStates_, zoom, bind, tell, gets, ret.
  destruct (states_ (base o)) eqn:Hl; [done|]. cbv beta iota. by rewrite Hrun.
Qed.

(** The position of the base class after [k] draws. *)
Lemma drawn wg o (k : nat) :
  states_ (base o) ≠ [] →
  (Z.of_nat (length (states_ (base o))) < 2 ^ 32)%Z →
  ∃ p : Z,
    calls k (drawConsecutiveGoal wg) o
    = (Return tt, set_base (set_samplePosition p (base o)) o,
       concat (replicate k [Access GoalCollection false; Access GoalCollection false])) ∧
    (p mod Z.of_nat (length (states_ (base o)))
     = (samplePosition_ (base o) + Z.of_nat k) mod Z.of_nat (length (states_ (base o))))%Z.
Proof.
  intros Hne Hlen.
  assert (Hn : (0 < Z.of_nat (length (states_ (base o))))%Z)
    by (destruct (states_ (base o)); simpl; [done | lia]).
  induction k as [|k (p & Hrun & Hp)].
  - exists (samplePosition_ (base o)). split; [|by rewrite Z.add_0_r].
    simpl. unfold ret. by destruct o as [[]].
  - set (o1 := set_base (set_samplePosition p (base o)) o) in *.
    destruct (sampleConsecutiveGoal_next wg o1 Hne) as (s & _ & Hnext).
    simpl in Hnext.
    exists (uint (p mod Z.of_nat (length (states_ (base o))) + 1)). split.
    + rewrite replicate_S_end, concat_app.
      rewrite calls_S, (bind_Return _ _ _ _ _ _ Hrun).
      unfold drawConsecutiveGoal.
      rewrite !(bind_Return _ _ _ _ _ _ Hnext). unfold ret. simpl. done.
    + pose proof (Z.mod_pos_bound p _ Hn) as Hb.
      unfold uint. rewrite (Z.mod_small (_ + 1)) by lia.
      rewrite Hp, Zplus_mod_idemp_l. f_equal. lia.
Qed.

(** X18: sampleConsecutiveGoal hands the stored goals out in turn.  On a
    store of n goals (0 < n < 2^32) that does not change, the call after
    [k] earlier calls returns the goal at index (samplePosition_ + k) mod n,
    so that n calls in a row return every stored goal once; the weight and
    the heap handle of the argument are returned as they were passed, and
    neither the store nor the queue is changed. *)
Theorem consecutive_goals_in_turn wg o (k : nat) :
  states_ (base o) ≠ [] →
  (Z.of_nat (length (states_ (base o))) < 2 ^ 32)%Z →
  let n := Z.of_nat (length (states_ (base o))) in
  let o_k := final (calls k (drawConsecutiveGoal wg) o) in
  outcome (calls k (drawConsecutiveGoal wg) o) = Return tt ∧
  states_ (base o_k) = states_ (base o) ∧
  goals_priority_queue_ o_k = goals_priority_queue_ o ∧
  ∃ s,
    states_ (base o) !! Z.to_nat ((samplePosition_ (base o) + Z.of_nat k) mod n) = Some s ∧
    outcome (sampleConsecutiveGoal wg o_k)
    = Return {| state_ := s; weight_ := weight_ wg; heap_element_ := heap_element_ wg |}.
Proof.
  intros Hne Hlen n o_k.
  destruct (drawn wg o k Hne Hlen) as (p & Hrun & Hp).
  subst o_k. rewrite Hrun. split; [done|]. split; [done|]. split; [done|].
  set (o1 := set_base (set_samplePosition p (base o)) o).
  destruct (sampleConsecutiveGoal_next wg o1 Hne) as (s & Hs & Hnext).
  exists s. split; [unfold n; rewrite <- Hp; exact Hs|].
  rewrite final_triple. fold o1. by rewrite Hnext.
Qed.

(** X19: what addState stores, getState returns.  In a store of fewer
    than 2^32 - 1 goals, getState at the index getStateCount() throws;
    after addState(st) it returns st, the count is one more, hasStates()
    is true, the next index throws, and every index that returned a state
    returns the same state.  The index is an unsigned int: an argument
    2^32 higher gives the same answer. *)
Theorem addState_getState st o :
  let n := Z.of_nat (length (states_ (base o))) in
  let o' := final (addState st o) in
  (n + 1 < 2 ^ 32)%Z →
  outcome (getState n o) = Throw IndexOutOfRange ∧
  outcome (getState n o') = Return st ∧
  outcome (getState (n + 1) o') = Throw IndexOutOfRange ∧
  outcome (getStateCount o') = Return (n + 1)%Z ∧
  outcome (hasStates o') = Return true ∧
  (∀ (i : Z) (s : State),
     outcome (getState i o) = Return s → outcome (getState i o') = Return s) ∧
  (∀ i : Z, outcome (getState (i + 2 ^ 32) o') = outcome (getState i o')).
Proof.
  intros n o' Hn. subst o'.
  assert (Hget : ∀ (i : Z) o1,
             outcome (getState i o1)
             = match states_ (base o1) !! Z.to_nat (uint i) with
               | Some s => Return s
               | None => Throw IndexOutOfRange
               end).
  { intros i o1. unfold getState, GoalStates_, GoalStates_getState, zoom, lock_guard,
      bind, tell, gets, ret, throw, outcome. simpl.
    by destruct (states_ (base o1) !! Z.to_nat (uint i)). }
  assert (Hst : states_ (base (final (addState st o))) = states_ (base o) ++ [st])
    by reflexivity.
  assert (Hu : uint n = n) by (apply Z.mod_small; lia).
  assert (Hu1 : uint (n + 1) = (n + 1)%Z) by (apply Z.mod_small; lia).
  rewrite !Hget, Hst, Hu, Hu1. unfold n. rewrite Nat2Z.id.
  split_and!.
  - by rewrite lookup_ge_None_2.
  - by rewrite lookup_app_r, Nat.sub_diag.
  - rewrite lookup_ge_None_2; [done|]. rewrite length_app. simpl. lia.
  - unfold getStateCount, GoalStates_, GoalStates_getStateCount, zoom, lock_guard,
      bind, tell, gets, outcome. simpl. rewrite length_app. simpl. f_equal. lia.
  - unfold hasStates, GoalStates_, GoalStates_hasStates, zoom, lock_guard,
      bind, tell, gets, outcome. simpl. f_equal. apply negb_true_iff, bool_decide_eq_false.
    by destruct (states_ (base o)).
  - intros i s. rewrite !Hget, Hst.
    destruct (states_ (base o) !! Z.to_nat (uint i)) as [s'|] eqn:Hl; [|done].
    intros [= ->]. by rewrite (lookup_app_l_Some _ _ _ _ Hl).
  - intros i. rewrite !Hget. unfold uint.
    by rewrite <- (Z.mul_1_l (2 ^ 32)) at 1; rewrite Z.mod_add.
Qed.

End Consecutive.

(** ** The thread, the penalties and the rewards in both classes

    goalSamplingThread, penalizeWeightedGoal and rewardWeightedGoal are
    written out in both files.  Each statement of this section has two
    halves, one on the function of WeightedGoalRegionSamples and one on
    the function of WeightedGoalRegionSampler. *)

Section BothClasses.
Import Ompl.
Context {State Callback Planner : Type}.
#[local] Abbreviation Samples := (@Samples.WeightedGoalRegionSamples State Callback).
#[local] Abbreviation Sampler :=
  (@Sampler.WeightedGoalRegionSampler State Callback Planner).
#[local] Abbreviation WeightedGoal := (@Ompl.WeightedGoal State).
#[local] Abbreviation M := (@Ompl.M State Callback).
#[local] Abbreviation agree :=
  (agree (State := State) (Callback := Callback) (Planner := Planner)).

(** What a function of the second class returns, and the object it leaves,
    read off the function of the first class it agrees with. *)
Lemma transfer {A} (m : M Sampler A) (m' : M Samples A) (o : Sampler) :
  agree m m' →
  outcome (m' (forget_roadmap o)) = outcome (m o) ∧
  final (m' (forget_roadmap o)) = forget_roadmap (final (m o)).
Proof. intros H. by rewrite (agree_result _ _ o H). Qed.

(** An object of the second class is its shared members and its roadmap
    members. *)
Lemma sampler_eq (a b : Sampler) :
  forget_roadmap a = forget_roadmap b → roadmap_members a = roadmap_members b → a = b.
Proof.
  destruct a, b. unfold forget_roadmap, roadmap_members. simpl.
  intros H1 H2. injection H1 as ?. injection H2 as ?. subst. reflexivity.
Qed.

Lemma agree_calls {n : nat} (m : M Sampler unit) (m' : M Samples unit) :
  agree m m' → agree (calls n m) (calls n m').
Proof.
  intros H. induction n as [|n IH]; simpl; [apply agree_ret|].
  apply agree_bind; [exact IH | intros _; exact H].
Qed.

(** C1, as amended: with three valid candidates at every call of the
    sampling function and a target of 5, the loop of goalSamplingThread,
    in WeightedGoalRegionSamples and in WeightedGoalRegionSampler, stops
    calling the function after its second round; from then on the goal
    store holds the 6 states of the two rounds (the whole second batch is
    stored, the target is passed), num_sampled_goals_ is 6 and
    sample_goals_ is false. *)
Theorem three_candidates_target_five cmp si (f : GoalRegionSamplingFn State)
    (minDist : Q) :
  isSetup si = true →
  (∀ now, length (f now) = 3 ∧
          Forall (λ s, satisfiesBounds si s = true ∧ isValid si s = true) (f now)) →
  (let init : Samples := Samples.new cmp si (Some f) 5 true minDist in
   ∀ n, 20 ≤ n →
     let o := final (Samples.goalSamplingThread_run n 0 init) in
     outcome (Samples.goalSamplingThread_run n 0 init) = Return tt ∧
     states_ (Samples.base o) = f 4 ++ f 12 ∧
     length (states_ (Samples.base o)) = 6 ∧
     Samples.num_sampled_goals_ o = 6%Z ∧
     Samples.sample_goals_ o = false) ∧
  (let init : Sampler := Sampler.new cmp si (Some f) 5 true minDist in
   ∀ n, 20 ≤ n →
     let o := final (Sampler.goalSamplingThread_run n 0 init) in
     outcome (Sampler.goalSamplingThread_run n 0 init) = Return tt ∧
     states_ (Sampler.base o) = f 4 ++ f 12 ∧
     length (states_ (Sampler.base o)) = 6 ∧
     Sampler.num_sampled_goals_ o = 6%Z ∧
     Sampler.sample_goals_ o = false).
Proof.
  intros Hsetup Hf. split.
  - apply two_rounds_then_idle; assumption.
  - intros init n Hn o.
    pose proof (two_rounds_then_idle (Callback := Callback) cmp si f minDist Hsetup Hf
                  n Hn) as H.
    cbv zeta in H.
    change (Samples.new cmp si (Some f) 5 true minDist) with (forget_roadmap init) in H.
    destruct (transfer _ _ init (agree_run n 0)) as [Ho Hfin].
    rewrite Ho, Hfin in H. exact H.
Qed.

(** C2, as amended: penalizeWeightedGoal, in WeightedGoalRegionSamples and
    in WeightedGoalRegionSampler, on a goal of a well-formed queue (the
    queue of every reachable state is one) returns, and resets the region
    exactly when the weight of the goal BEFORE the call is below 0.2 and
    sample_goals_ is false.  After a reset every goal of the queue has
    weight 0.5, the queue holds the same elements, max_sampled_goals_ has
    grown by 10 (as an unsigned int) and sample_goals_ is true.  Without a
    reset the target and the flag are unchanged and the goal alone has the
    new weight, the binary64 quotient w / (w + 1.). *)
Theorem penalize_region_reset wg (h : Handle) (pos : nat) (e : @Element State) :
  heap_element_ wg = Some h →
  let w := weight_ (data e) in
  (∀ o : Samples,
     wf_heap (Samples.goals_priority_queue_ o) →
     find_element h (vector_ (Samples.goals_priority_queue_ o)) = Some (pos, e) →
     let o' := final (Samples.penalizeWeightedGoal wg o) in
     outcome (Samples.penalizeWeightedGoal wg o) = Return tt ∧
     ((w <? 0.2)%float = true ∧ Samples.sample_goals_ o = false →
        Forall (λ e', weight_ (data e') = 0.5%float)
          (vector_ (Samples.goals_priority_queue_ o')) ∧
        address <$> vector_ (Samples.goals_priority_queue_ o')
          ≡ₚ address <$> vector_ (Samples.goals_priority_queue_ o) ∧
        Samples.max_sampled_goals_ o' = uint (Samples.max_sampled_goals_ o + 10) ∧
        Samples.sample_goals_ o' = true) ∧
     (¬ ((w <? 0.2)%float = true ∧ Samples.sample_goals_ o = false) →
        Samples.max_sampled_goals_ o' = Samples.max_sampled_goals_ o ∧
        Samples.sample_goals_ o' = Samples.sample_goals_ o ∧
        vector_ (Samples.goals_priority_queue_ o')
          ≡ₚ reweigh h (w / (w + 1))%float <$> vector_ (Samples.goals_priority_queue_ o))) ∧
  (∀ o : Sampler,
     wf_heap (Sampler.goals_priority_queue_ o) →
     find_element h (vector_ (Sampler.goals_priority_queue_ o)) = Some (pos, e) →
     let o' := final (Sampler.penalizeWeightedGoal wg o) in
     outcome (Sampler.penalizeWeightedGoal wg o) = Return tt ∧
     ((w <? 0.2)%float = true ∧ Sampler.sample_goals_ o = false →
        Forall (λ e', weight_ (data e') = 0.5%float)
          (vector_ (Sampler.goals_priority_queue_ o')) ∧
        address <$> vector_ (Sampler.goals_priority_queue_ o')
          ≡ₚ address <$> vector_ (Sampler.goals_priority_queue_ o) ∧
        Sampler.max_sampled_goals_ o' = uint (Sampler.max_sampled_goals_ o + 10) ∧
        Sampler.sample_goals_ o' = true) ∧
     (¬ ((w <? 0.2)%float = true ∧ Sampler.sample_goals_ o = false) →
        Sampler.max_sampled_goals_ o' = Sampler.max_sampled_goals_ o ∧
        Sampler.sample_goals_ o' = Sampler.sample_goals_ o ∧
        vector_ (Sampler.goals_priority_queue_ o')
          ≡ₚ reweigh h (w / (w + 1))%float <$> vector_ (Sampler.goals_priority_queue_ o))).
Proof.
  intros Hh w. split.
  - intros o Hwf Hfind. by apply (reset_on_penalty wg o h pos e).
  - intros o Hwf Hfind o'.
    pose proof (reset_on_penalty wg (forget_roadmap o) h pos e Hwf Hh Hfind) as H.
    cbv zeta in H.
    destruct (transfer _ _ o (agree_penalize wg)) as [Ho Hfin].
    rewrite Ho, Hfin in H. exact H.
Qed.


(** C5: the rewards, in WeightedGoalRegionSamples and in
    WeightedGoalRegionSampler.  A goal of a well-formed queue with a weight
    in [0,1] is rewarded [n] times by rewardWeightedGoal, then once more.
    Every call returns; the weight stays in [0,1]; the last call replaces a
    weight w < 1.0 by the binary64 quotient w / (1. - w) clamped to at most
    1.0, which is not less than w, and a call on a weight that is not below
    1.0 (in [0,1]: the weight 1.0) leaves the whole object unchanged. *)
Theorem reward_sequence wg (h : Handle) (w0 : float) :
  heap_element_ wg = Some h →
  (0 <=? w0)%float = true → (w0 <=? 1)%float = true →
  (∀ o : Samples,
     wf_heap (Samples.goals_priority_queue_ o) →
     weight_at (Samples.goals_priority_queue_ o) h = Some w0 →
     ∀ n : nat,
       let o_n := final (calls n (Samples.rewardWeightedGoal wg) o) in
       let o' := final (Samples.rewardWeightedGoal wg o_n) in
       outcome (calls n (Samples.rewardWeightedGoal wg) o) = Return tt ∧
       outcome (Samples.rewardWeightedGoal wg o_n) = Return tt ∧
       ∃ w w' : float,
         weight_at (Samples.goals_priority_queue_ o_n) h = Some w ∧
         weight_at (Samples.goals_priority_queue_ o') h = Some w' ∧
         (0 <=? w)%float = true ∧ (w <=? 1)%float = true ∧
         (w <=? w')%float = true ∧ (w' <=? 1)%float = true ∧
         ((w <? 1)%float = true →
            w' = if (1 <? w / (1 - w))%float then 1%float else (w / (1 - w))%float) ∧
         ((w <? 1)%float = false → o' = o_n ∧ w' = w)) ∧
  (∀ o : Sampler,
     wf_heap (Sampler.goals_priority_queue_ o) →
     weight_at (Sampler.goals_priority_queue_ o) h = Some w0 →
     ∀ n : nat,
       let o_n := final (calls n (Sampler.rewardWeightedGoal wg) o) in
       let o' := final (Sampler.rewardWeightedGoal wg o_n) in
       outcome (calls n (Sampler.rewardWeightedGoal wg) o) = Return tt ∧
       outcome (Sampler.rewardWeightedGoal wg o_n) = Return tt ∧
       ∃ w w' : float,
         weight_at (Sampler.goals_priority_queue_ o_n) h = Some w ∧
         weight_at (Sampler.goals_priority_queue_ o') h = Some w' ∧
         (0 <=? w)%float = true ∧ (w <=? 1)%float = true ∧
         (w <=? w')%float = true ∧ (w' <=? 1)%float = true ∧
         ((w <? 1)%float = true →
            w' = if (1 <? w / (1 - w))%float then 1%float else (w / (1 - w))%float) ∧
         ((w <? 1)%float = false → o' = o_n ∧ w' = w)).
Proof.
  intros Hh H0 H1. split.
  - intros o Hwf Hw n. by apply (rewards_in_a_row wg o h w0).
  - intros o Hwf Hw n o_n o'.
    pose proof (rewards_in_a_row wg (forget_roadmap o) h w0 Hwf Hh Hw H0 H1 n) as H.
    cbv zeta in H.
    destruct (transfer _ _ o (agree_calls (n := n) _ _ (agree_reward wg))) as [Ho Hfin].
    rewrite Ho, Hfin in H.
    destruct (transfer _ _ o_n (agree_reward wg)) as [Ho' Hfin'].
    fold o_n in H. rewrite Ho', Hfin' in H. fold o' in H.
    destruct H as (Hout & Hout' & w & w' & Hwn & Hw' & Hr0 & Hr1 & Hle & Hle1 & Hlt & Hge).
    split; [exact Hout|]. split; [exact Hout'|].
    exists w, w'. split_and!; try assumption.
    intros Hnot. destruct (Hge Hnot) as [Hobj ->]. split; [|done].
    apply sampler_eq; [exact Hobj|].
    apply (agree_roadmap _ _ o_n (agree_reward wg)).
Qed.

End BothClasses.

(** ** Instances in both classes *)

Section BothClassesInstances.
Import Ompl Examples.

Lemma paused_sampler_with_goals_wf :
  wf_heap (Sampler.goals_priority_queue_ paused_sampler_with_goals).
Proof.
  split; [apply (bool_decide_unpack _); vm_compute; exact I
         | vm_compute; repeat constructor].
Defined.


(** Twenty-five steps of the thread of the sampler with three candidates
    per call and a target of five, in each class. *)
Lemma three_candidates_target_five_witness :
  isSetup si_ready = true ∧
  (length (states_ (Samples.base (final (Samples.goalSamplingThread_run 25 0 fresh)))) = 6 ∧
   Samples.num_sampled_goals_ (final (Samples.goalSamplingThread_run 25 0 fresh)) = 6%Z ∧
   Samples.sample_goals_ (final (Samples.goalSamplingThread_run 25 0 fresh)) = false) ∧
  (length (states_ (Sampler.base
                      (final (Sampler.goalSamplingThread_run 25 0 fresh_sampler)))) = 6 ∧
   Sampler.num_sampled_goals_
     (final (Sampler.goalSamplingThread_run 25 0 fresh_sampler)) = 6%Z ∧
   Sampler.sample_goals_
     (final (Sampler.goalSamplingThread_run 25 0 fresh_sampler)) = false).
Proof.
  split; [reflexivity|].
  destruct (three_candidates_target_five (Callback := nat) (Planner := nat) by_weight
              si_ready three_per_call 0 eq_refl three_per_call_valid) as [Hfirst Hsecond].
  assert (Hn : 20 ≤ 25) by (repeat constructor).
  destruct (Hfirst 25 Hn) as (_ & _ & Hlen & Hnum & Hflag).
  destruct (Hsecond 25 Hn) as (_ & _ & Hlen' & Hnum' & Hflag').
  exact (conj (conj Hlen (conj Hnum Hflag)) (conj Hlen' (conj Hnum' Hflag'))).
Defined.

(** The goal of weight 0.1 is penalized while the thread is paused: the
    region is reset, in each class. *)
Lemma penalize_region_reset_witness :
  (wf_heap (Samples.goals_priority_queue_ paused_with_goals) ∧
   find_element 2 (vector_ (Samples.goals_priority_queue_ paused_with_goals))
   = Some (1, goal_13) ∧
   outcome (Samples.penalizeWeightedGoal (handle 2) paused_with_goals) = Return tt ∧
   Samples.sample_goals_ (final (Samples.penalizeWeightedGoal (handle 2) paused_with_goals))
   = true ∧
   Samples.max_sampled_goals_
     (final (Samples.penalizeWeightedGoal (handle 2) paused_with_goals)) = 15%Z) ∧
  (wf_heap (Sampler.goals_priority_queue_ paused_sampler_with_goals) ∧
   find_element 2 (vector_ (Sampler.goals_priority_queue_ paused_sampler_with_goals))
   = Some (1, goal_13) ∧
   outcome (Sampler.penalizeWeightedGoal (handle 2) paused_sampler_with_goals)
   = Return tt ∧
   Sampler.sample_goals_
     (final (Sampler.penalizeWeightedGoal (handle 2) paused_sampler_with_goals)) = true ∧
   Sampler.max_sampled_goals_
     (final (Sampler.penalizeWeightedGoal (handle 2) paused_sampler_with_goals)) = 15%Z).
Proof.
  destruct (penalize_region_reset (Callback := nat) (Planner := nat) (handle 2) 2 1 goal_13
              eq_refl) as [Hfirst Hsecond].
  split.
  - split; [exact paused_with_goals_wf|]. split; [reflexivity|].
    destruct (Hfirst paused_with_goals paused_with_goals_wf eq_refl)
      as (Hout & Hreset & _).
    split; [exact Hout|].
    destruct Hreset as (_ & _ & Hmax & Hflag); [split; reflexivity|].
    split; [exact Hflag | exact Hmax].
  - split; [exact paused_sampler_with_goals_wf|]. split; [reflexivity|].
    destruct (Hsecond paused_sampler_with_goals paused_sampler_with_goals_wf eq_refl)
      as (Hout & Hreset & _).
    split; [exact Hout|].
    destruct Hreset as (_ & _ & Hmax & Hflag); [split; reflexivity|].
    split; [exact Hflag | exact Hmax].
Defined.


(** Four rewards of the goal of weight 0.1, in each class. *)
Lemma reward_sequence_witness :
  (0 <=? 0.1)%float = true ∧ (0.1 <=? 1)%float = true ∧
  (wf_heap (Samples.goals_priority_queue_ paused_with_goals) ∧
   weight_at (Samples.goals_priority_queue_ paused_with_goals) 2 = Some 0.1%float ∧
   outcome (calls 4 (Samples.rewardWeightedGoal (handle 2)) paused_with_goals)
   = Return tt) ∧
  (wf_heap (Sampler.goals_priority_queue_ paused_sampler_with_goals) ∧
   weight_at (Sampler.goals_priority_queue_ paused_sampler_with_goals) 2
   = Some 0.1%float ∧
   outcome (calls 4 (Sampler.rewardWeightedGoal (handle 2)) paused_sampler_with_goals)
   = Return tt).
Proof.
  split; [reflexivity|]. split; [reflexivity|].
  destruct (reward_sequence (Callback := nat) (Planner := nat) (handle 2) 2 0.1%float
              eq_refl eq_refl eq_refl) as [Hfirst Hsecond].
  split.
  - split; [exact paused_with_goals_wf|]. split; [reflexivity|].
    destruct (Hfirst paused_with_goals paused_with_goals_wf eq_refl 4) as (Hout & _).
    exact Hout.
  - split; [exact paused_sampler_with_goals_wf|]. split; [reflexivity|].
    destruct (Hsecond paused_sampler_with_goals paused_sampler_with_goals_wf eq_refl 4)
      as (Hout & _).
    exact Hout.
Defined.

End BothClassesInstances.

(** ** Instances of the further properties *)

Section FurtherInstances.
Import Ompl Samples Examples.

(** A round on the batch 12, 13, 14 in the space of the even numbers: 12
    and 14 are stored. *)
Lemma sampling_round_witness :
  samplingThread_ screening = Some PcLoopHead ∧
  accepted si_even (three_per_call 4) = [12; 14] ∧
  outcome (goalSamplingThread_run 8 3 screening) = Return tt ∧
  states_ (base (final (goalSamplingThread_run 8 3 screening))) = [12; 14] ∧
  num_sampled_goals_ (final (goalSamplingThread_run 8 3 screening)) = 2%Z ∧
  samplingAttempts_ (final (goalSamplingThread_run 8 3 screening)) = 1%Z.
Proof.
  assert (Hnum : (0 <= num_sampled_goals_ screening < max_sampled_goals_ screening)%Z)
    by (vm_compute; split; [discriminate | reflexivity]).
  assert (Hmax : (num_sampled_goals_ screening < 2 ^ 32)%Z) by (vm_compute; reflexivity).
  destruct (sampling_round 3 screening three_per_call eq_refl eq_refl eq_refl Hnum Hmax)
    as (Hout & _ & _ & Hst & Hcount & _ & Hatt).
  split; [reflexivity|]. split; [reflexivity|].
  exact (conj Hout (conj Hst (conj Hcount Hatt))).
Defined.

Lemma samples_only_after_setup_witness :
  reachable fresh sampling ∧
  samplingThread_ sampling = Some PcSample ∧
  isSetup (si_ (base sampling)) = true.
Proof.
  assert (Hr : reachable fresh sampling) by (apply thread_run_reachable; constructor).
  split; [exact Hr|]. split; [reflexivity|].
  exact (samples_only_after_setup (Callback := nat) by_weight si_ready
           (Some three_per_call) 5 true 0 sampling Hr).
Defined.

Lemma thread_waits_for_setup_witness :
  isSetup (si_ (base waiting)) = false ∧
  goalSamplingThread_run 50 0 waiting
  = (Return tt, set_samplingThread (Some PcWaitSetup) waiting, [Acquire; Release]).
Proof.
  split; [reflexivity|].
  destruct (thread_waits_for_setup 0 waiting eq_refl) as (Hwait & _ & _).
  exact (Hwait eq_refl eq_refl 48).
Defined.

Lemma paused_with_goals_below_raised_target :
  (num_sampled_goals_ paused_with_goals
   < uint (max_sampled_goals_ paused_with_goals + 10))%Z.
Proof. vm_compute. reflexivity. Defined.

(** The goal of weight 0.1 is penalized on the paused sampler: the thread
    calls the sampling function again. *)
Lemma reset_resumes_sampling_witness :
  wf_heap (goals_priority_queue_ paused_with_goals) ∧
  (weight_ (data goal_13) <? 0.2)%float = true ∧
  (num_sampled_goals_ paused_with_goals
   < uint (max_sampled_goals_ paused_with_goals + 10))%Z ∧
  samplingThread_
    (final (goalSamplingThread_run 2 20
              (final (penalizeWeightedGoal (handle 2) paused_with_goals))))
  = Some (PcFor (three_per_call 21) false).
Proof.
  assert (Hw : (weight_ (data goal_13) <? 0.2)%float = true) by reflexivity.
  split; [exact paused_with_goals_wf|]. split; [exact Hw|].
  split; [exact paused_with_goals_below_raised_target|].
  destruct (reset_resumes_sampling 20 (handle 2) paused_with_goals 2 1 goal_13
              three_per_call paused_with_goals_wf eq_refl eq_refl Hw eq_refl eq_refl
              eq_refl eq_refl paused_with_goals_below_raised_target)
    as (_ & _ & _ & Hpc).
  exact Hpc.
Defined.

Lemma overshot_wf : wf_heap (goals_priority_queue_ overshot).
Proof.
  split; [apply (bool_decide_unpack _); vm_compute; exact I
         | vm_compute; repeat constructor].
Defined.

(** One batch of fifteen goals for a target of five; the reset raises the
    target to fifteen, which is reached already: a second penalty of the
    same goal does not raise it. *)
Lemma reset_after_overshoot_stalls_witness :
  num_sampled_goals_ overshot = 15%Z ∧
  max_sampled_goals_ overshot = 5%Z ∧
  sample_goals_ overshot = false ∧
  max_sampled_goals_ (final (penalizeWeightedGoal (handle 1) overshot)) = 15%Z ∧
  stalled (final (penalizeWeightedGoal (handle 1) overshot)) ∧
  max_sampled_goals_
    (perform (Penalize (handle 1)) (final (penalizeWeightedGoal (handle 1) overshot)))
  = max_sampled_goals_ (final (penalizeWeightedGoal (handle 1) overshot)).
Proof.
  destruct (reset_after_overshoot_stalls (State := nat) (Callback := nat))
    as [Hreset Hkeep].
  assert (Hs : stalled (final (penalizeWeightedGoal (handle 1) overshot))).
  { apply (Hreset (handle 1) overshot 1 0
             {| address := 1;
                data := {| state_ := 7; weight_ := 0.1; heap_element_ := Some 1 |} |}).
    - exact overshot_wf.
    - reflexivity.
    - vm_compute. reflexivity.
    - reflexivity.
    - vm_compute. reflexivity.
    - vm_compute. reflexivity.
    - left. vm_compute. reflexivity.
    - vm_compute. discriminate. }
  split; [vm_compute; reflexivity|]. split; [vm_compute; reflexivity|].
  split; [vm_compute; reflexivity|]. split; [vm_compute; reflexivity|].
  split; [exact Hs|].
  destruct (Hkeep (Penalize (handle 1)) (final (penalizeWeightedGoal (handle 1) overshot)) Hs)
    as (_ & Hmax & _); [discriminate|].
  exact Hmax.
Defined.

Lemma paused_with_goals_in_range : weights_in_range (goals_priority_queue_ paused_with_goals).
Proof.
  unfold weights_in_range. vm_compute.
  repeat (constructor; [split; reflexivity|]). constructor.
Defined.

(** The penalty that resets the region leaves every weight at 0.5. *)
Lemma weights_stay_in_range_witness :
  wf_heap (goals_priority_queue_ paused_with_goals) ∧
  weights_in_range (goals_priority_queue_ paused_with_goals) ∧
  weights_in_range
    (goals_priority_queue_ (final (penalizeWeightedGoal (handle 2) paused_with_goals))) ∧
  weights_in_range
    (goals_priority_queue_ (final (rewardWeightedGoal (handle 2) paused_with_goals))).
Proof.
  split; [exact paused_with_goals_wf|]. split; [exact paused_with_goals_in_range|].
  destruct (weights_stay_in_range (handle 2) paused_with_goals paused_with_goals_wf
              paused_with_goals_in_range) as [[Hpen _] [Hrew _]].
  exact (conj Hpen Hrew).
Defined.

Lemma paused_with_goals_target_reached :
  (max_sampled_goals_ paused_with_goals <= num_sampled_goals_ paused_with_goals)%Z.
Proof. vm_compute. discriminate. Defined.

(** The store of the paused sampler is cleared; a hundred steps of the
    thread later it is still empty, and couldSample() is true. *)
Lemma cleared_store_not_refilled_witness :
  terminateSamplingThread_ paused_with_goals = false ∧
  samplingThread_ paused_with_goals = Some PcLoopHead ∧
  states_ (base (final (goalSamplingThread_run 100 20 (final (clear paused_with_goals)))))
  = [] ∧
  outcome (couldSample
             (final (goalSamplingThread_run 100 20 (final (clear paused_with_goals)))))
  = Return true.
Proof.
  split; [reflexivity|]. split; [reflexivity|].
  destruct (cleared_store_not_refilled 20 paused_with_goals eq_refl
              paused_with_goals_target_reached (or_introl eq_refl) 100)
    as (_ & Hst & _ & _ & _ & _ & Hcould).
  exact (conj Hst Hcould).
Defined.



Lemma member_calls_members : Forall (λ a, is_enqueue a = false) member_calls.
Proof. repeat constructor. Defined.

Lemma member_calls_states : states_ (base (perform_all member_calls fresh)) = [7; 9].
Proof. vm_compute. reflexivity. Defined.

(** Steps of the thread, addState, a penalty, sampleGoal and
    addStateIfDifferent: two states are stored, the queue is empty, and
    sampleWeightedGoal reads its null top. *)
Lemma queue_not_filled_by_members_witness :
  Forall (λ a, is_enqueue a = false) member_calls ∧
  states_ (base (perform_all member_calls fresh)) = [7; 9] ∧
  vector_ (goals_priority_queue_ (perform_all member_calls fresh)) = [] ∧
  outcome (sampleWeightedGoal (handle 0) (perform_all member_calls fresh)) = Undefined.
Proof.
  split; [exact member_calls_members|]. split; [exact member_calls_states|].
  pose proof (queue_not_filled_by_members (Callback := nat) by_weight si_ready
                (Some three_per_call) 5 true 0 member_calls (handle 0)
                member_calls_members) as Hq.
  cbv zeta in Hq.
  change (new by_weight si_ready (Some three_per_call) 5 true 0) with fresh in Hq.
  rewrite member_calls_states in Hq. exact Hq.
Defined.

Lemma paused_apart :
  apart (si_ (base paused_with_callback)) (1 # 4) (states_ (base paused_with_callback)).
Proof.
  vm_compute. repeat split; repeat (constructor; [reflexivity|]); constructor.
Defined.

(** The stored goals 12, 13, 14, 36, 37, 38 are more than 0.25 apart; 18
    is stored, 13 is not. *)
Lemma addStateIfDifferent_keeps_apart_witness :
  apart (si_ (base paused_with_callback)) (1 # 4) (states_ (base paused_with_callback)) ∧
  states_ (base (final (addStateIfDifferent 18 (1 # 4) paused_with_callback)))
  = [12; 13; 14; 36; 37; 38; 18] ∧
  states_ (base (final (addStateIfDifferent 13 (1 # 4) paused_with_callback)))
  = [12; 13; 14; 36; 37; 38] ∧
  apart (si_ (base paused_with_callback)) (1 # 4)
    (states_ (base (final (addStateIfDifferent 18 (1 # 4) paused_with_callback)))).
Proof.
  split; [exact paused_apart|].
  destruct (addStateIfDifferent_keeps_apart 18 (1 # 4) paused_with_callback paused_apart)
    as (Hap & _ & _ & Hfar).
  destruct (addStateIfDifferent_keeps_apart 13 (1 # 4) paused_with_callback paused_apart)
    as (_ & _ & _ & Hnear).
  exact (conj Hfar (conj Hnear Hap)).
Defined.

Lemma growing_may_sample : may_sample (forget_roadmap growing).
Proof. intros _. eexists. reflexivity. Defined.

Lemma growing_has_planner : is_Some (Sampler.prm_planner_ growing).
Proof. eexists. reflexivity. Defined.

(** Three turns of the roadmap thread of the sampler with a planner, and
    its end; the sampler without a planner. *)
Lemma roadmap_thread_lifecycle_witness :
  Sampler.growingRoadmapThread_ growing = Some RmLoopHead ∧
  Sampler.terminateGrowingRoadmapThread_ growing = false ∧
  is_Some (Sampler.prm_planner_ growing) ∧
  Sampler.roadmapGrowingThread_run (2 * 3) growing
  = (Return tt, growing,
     concat (replicate 3 [Acquire; Release; GrowRoadmap 0.1])) ∧
  outcome (Sampler.stopGrowingRoadmap growing) = Return tt ∧
  Sampler.prm_planner_ growing_without_planner = None ∧
  outcome (Sampler.stopGrowingRoadmap growing_without_planner) = Undefined.
Proof.
  split; [reflexivity|]. split; [reflexivity|]. split; [exact growing_has_planner|].
  destruct (roadmap_thread_lifecycle 3 growing) as (_ & _ & Hturns & _ & Hstop & _).
  destruct (roadmap_thread_lifecycle 0 growing_without_planner)
    as (_ & _ & _ & _ & _ & Hnull).
  split; [exact (Hturns eq_refl eq_refl growing_has_planner)|].
  split; [exact (proj1 (Hstop (or_introl growing_has_planner)))|].
  split; [reflexivity|]. exact (Hnull eq_refl eq_refl).
Defined.

Lemma fresh_sampler_may_sample : may_sample (forget_roadmap fresh_sampler).
Proof. intros H. discriminate H. Defined.

(** The destructor on the sampler with both threads and a planner, and on
    the sampler as its constructor leaves it, with no roadmap thread. *)
Lemma destructor_stops_both_threads_witness :
  (Sampler.samplingThread_ growing = Some PcStart ∧
   Sampler.growingRoadmapThread_ growing = Some RmLoopHead ∧
   is_Some (Sampler.prm_planner_ growing) ∧
   outcome (Sampler.delete 0 growing) = Return tt ∧
   Sampler.samplingThread_ (final (Sampler.delete 0 growing)) = None ∧
   Sampler.growingRoadmapThread_ (final (Sampler.delete 0 growing)) = None) ∧
  (Sampler.samplingThread_ fresh_sampler = Some PcStart ∧
   Sampler.growingRoadmapThread_ fresh_sampler = None ∧
   Sampler.prm_planner_ fresh_sampler = None ∧
   outcome (Sampler.delete 0 fresh_sampler) = Return tt ∧
   Sampler.samplingThread_ (final (Sampler.delete 0 fresh_sampler)) = None ∧
   Sampler.growingRoadmapThread_ (final (Sampler.delete 0 fresh_sampler)) = None).
Proof.
  split.
  - split; [reflexivity|]. split; [reflexivity|]. split; [exact growing_has_planner|].
    destruct (destructor_stops_both_threads 0 growing growing_may_sample
                (or_introl growing_has_planner))
      as (Hout & Hth & _ & Hrm & _).
    exact (conj Hout (conj Hth Hrm)).
  - split; [reflexivity|]. split; [reflexivity|]. split; [reflexivity|].
    destruct (destructor_stops_both_threads 0 fresh_sampler fresh_sampler_may_sample
                (or_intror eq_refl))
      as (Hout & Hth & _ & Hrm & _).
    exact (conj Hout (conj Hth Hrm)).
Defined.

Lemma paused_store_small : (Z.of_nat (length (states_ (base paused))) < 2 ^ 32)%Z.
Proof. vm_compute. reflexivity. Defined.

Lemma paused_store_filled : states_ (base paused) ≠ [].
Proof. vm_compute. discriminate. Defined.

(** The eighth call on the store 12, 13, 14, 36, 37, 38 returns 13, with
    the weight and the handle of the argument. *)
Lemma consecutive_goals_in_turn_witness :
  (Z.of_nat (length (states_ (base paused))) < 2 ^ 32)%Z ∧
  outcome (calls 7 (drawConsecutiveGoal (handle 5)) paused) = Return tt ∧
  ∃ s,
    states_ (base paused) !! 1 = Some s ∧
    outcome (sampleConsecutiveGoal (handle 5)
               (final (calls 7 (drawConsecutiveGoal (handle 5)) paused)))
    = Return {| state_ := s; weight_ := 0; heap_element_ := Some 5 |}.
Proof.
  split; [exact paused_store_small|].
  destruct (consecutive_goals_in_turn (handle 5) paused 7 paused_store_filled
              paused_store_small) as (Hout & _ & _ & s & Hs & Hnext).
  split; [exact Hout|]. exists s. exact (conj Hs Hnext).
Defined.

Lemma paused_store_room : (Z.of_nat (length (states_ (base paused))) + 1 < 2 ^ 32)%Z.
Proof. vm_compute. reflexivity. Defined.

(** The store 12, 13, 14, 36, 37, 38 and the state 7: getState(6) throws
    before addState(7) and returns 7 after it. *)
Lemma addState_getState_witness :
  (Z.of_nat (length (states_ (base paused))) + 1 < 2 ^ 32)%Z ∧
  outcome (getState (Z.of_nat (length (states_ (base paused)))) paused)
  = Throw IndexOutOfRange ∧
  outcome (getState (Z.of_nat (length (states_ (base paused))))
             (final (addState 7 paused)))
  = Return 7.
Proof.
  split; [exact paused_store_room|].
  destruct (addState_getState 7 paused paused_store_room) as (Hthrow & Hget & _).
  exact (conj Hthrow Hget).
Defined.

End FurtherInstances.
